(** * The SQL Server dialect of SQLAlchemy: a shallow embedding

    This development embeds the parts of
    [lib/sqlalchemy/dialects/mssql/base.py] that decide how schema
    qualifiers are resolved, how large types are rendered, how a SELECT
    with LIMIT / OFFSET is paginated and how the execution context brackets
    an INSERT with [SET IDENTITY_INSERT], and proves properties of them.
    It goes on to the identifier preparer, the literal, date, time and
    row version processors, the comparison and alias hooks of the
    compiler, the isolation level and the switch of database, and the
    two reflection functions whose result is computed from the rows
    read.

    Python values are modelled as the code uses them: [str] as [string],
    and as the sequence of its code points where the code tells digits
    from other characters; [int] as [Z], [None]-able attributes as
    [option], version tuples as [list Z], dictionaries keyed by parameter
    name as [gmap string], exceptions as an explicit result type. *)

From Stdlib Require Import ZArith Bool List Ascii String DecimalString Lia.
From Stdlib Require Strings.Byte.
From stdpp Require Import base option strings gmap.

Import ListNotations.
Local Open Scope string_scope.
Local Open Scope Z_scope.

(** ** Python preliminaries *)

Module Py.

(** The exceptions the embedded code raises or lets through. *)
Inductive Exception : Type :=
| CompileError (msg : string)
| IndexError
| TypeError
| AttributeError
| DBAPIError (msg : string).

(** The outcome of a call that may raise. *)
Inductive Result (A : Type) : Type :=
| Return (a : A)
| Raise (e : Exception).
Arguments Return {A} a.
Arguments Raise {A} e.

Definition bind {A B} (r : Result A) (k : A -> Result B) : Result B :=
  match r with
  | Return a => k a
  | Raise e => Raise e
  end.

(** [a and b], [a or b] on conditions whose evaluation may raise: the
    right operand is not evaluated when the left one decides. *)
Definition and_then (a b : Result bool) : Result bool :=
  bind a (fun x => if x then b else Return false).
Definition or_else (a b : Result bool) : Result bool :=
  bind a (fun x => if x then Return true else b).

(** [str(n)] and ["%s" % n] for an integer. *)
Definition str_of_int (n : Z) : string := NilZero.string_of_int (Z.to_int n).

(** Comparison of tuples of integers, as [<] and [>=] on Python tuples. *)
Fixpoint tuple_lt (a b : list Z) : bool :=
  match a, b with
  | _, [] => false
  | [], _ :: _ => true
  | x :: a', y :: b' => if x <? y then true else if y <? x then false else tuple_lt a' b'
  end.
Definition tuple_ge (a b : list Z) : bool := negb (tuple_lt a b).

(** A string as the dialect handles it: a plain [str], or a
    [quoted_name] carrying its [quote] flag ([True], [False] or [None]). *)
Inductive PyStr : Type :=
| Str (s : string)
| quoted_name (s : string) (quote : option bool).

Definition text (x : PyStr) : string :=
  match x with
  | Str s => s
  | quoted_name s _ => s
  end.

(** Truth value of [None]-able flags and of strings. *)
Definition truthy_flag (b : option bool) : bool :=
  match b with Some true => true | _ => false end.
Definition truthy_str (s : string) : bool :=
  match s with EmptyString => false | _ => true end.

End Py.

(** [let* x := c in k] runs [c], then [k] on its result; the first
    exception raised ends the computation. *)
Notation "'let*' x ':=' c 'in' k" := (Py.bind c (fun x => k))
  (at level 10, x name, c at level 100, k at level 200).

(** ** The dialect object *)

(** [MS_2012_VERSION], [MS_2008_VERSION], [MS_2005_VERSION]. *)
Definition MS_2012_VERSION : list Z := [11].
Definition MS_2008_VERSION : list Z := [10].
Definition MS_2005_VERSION : list Z := [9].

(** The attributes of [MSDialect] read or written by the embedded code. *)
Record MSDialect : Type := mkDialect {
  server_version_info : list Z;
  deprecate_large_types : option bool;
  _supports_offset_fetch : bool;
  implicit_returning : bool;
  full_returning : bool;
  supports_multivalues_insert : bool;
  schema_name : string;
  default_schema_name : Py.PyStr;
  use_scope_identity : bool;
  supports_unicode_statements : bool
}.

(** The class-level defaults and those of [MSDialect.__init__]. *)
Definition default_dialect : MSDialect := {|
  server_version_info := [];
  deprecate_large_types := None;
  _supports_offset_fetch := false;
  implicit_returning := true;
  full_returning := true;
  supports_multivalues_insert := false;
  schema_name := "dbo";
  default_schema_name := Py.Str "dbo";
  use_scope_identity := true;
  supports_unicode_statements := true
|}.

(** ** Type rendering: [MSTypeCompiler] *)

Module TypeCompiler.
Import Py.

(** A length as [_extend] receives it: an integer, or the word [max]. *)
Inductive Length : Type :=
| LenInt (n : Z)
| LenStr (s : string).

Definition truthy_len (l : option Length) : bool :=
  match l with
  | None => false
  | Some (LenInt n) => negb (n =? 0)
  | Some (LenStr s) => truthy_str s
  end.

Definition str_of_len (l : Length) : string :=
  match l with
  | LenInt n => str_of_int n
  | LenStr s => s
  end.

(** A type object: its [length] and its [collation] ([None] when the type
    has no such attribute). *)
Record TypeEngine : Type := mkType {
  length : option Z;
  collation : option string
}.

Definition type_length (t : TypeEngine) : option Length :=
  option_map LenInt (length t).

(** [x or "max"]. *)
Definition or_max (l : option Length) : option Length :=
  if truthy_len l then l else Some (LenStr "max").

Definition _extend (spec : string) (type_ : TypeEngine) (length : option Length) : string :=
  let collation :=
    match collation type_ with
    | Some c => if truthy_str c then Some ("COLLATE " ++ c) else None
    | None => None
    end in
  let length := if truthy_len length then length else type_length type_ in
  let spec :=
    match length with
    | Some l => if truthy_len length then spec ++ "(" ++ str_of_len l ++ ")" else spec
    | None => spec
    end in
  match collation with
  | Some c => spec ++ " " ++ c
  | None => spec
  end.

Definition visit_NTEXT (type_ : TypeEngine) : string := _extend "NTEXT" type_ None.
Definition visit_TEXT (type_ : TypeEngine) : string := _extend "TEXT" type_ None.
Definition visit_VARCHAR (type_ : TypeEngine) : string :=
  _extend "VARCHAR" type_ (or_max (type_length type_)).
Definition visit_NVARCHAR (type_ : TypeEngine) : string :=
  _extend "NVARCHAR" type_ (or_max (type_length type_)).
Definition visit_IMAGE (type_ : TypeEngine) : string := "IMAGE".
Definition visit_VARBINARY (type_ : TypeEngine) : string :=
  _extend "VARBINARY" type_ (or_max (type_length type_)).

Definition visit_text (dialect : MSDialect) (type_ : TypeEngine) : string :=
  if truthy_flag (deprecate_large_types dialect)
  then visit_VARCHAR type_ else visit_TEXT type_.

Definition visit_unicode_text (dialect : MSDialect) (type_ : TypeEngine) : string :=
  if truthy_flag (deprecate_large_types dialect)
  then visit_NVARCHAR type_ else visit_NTEXT type_.

Definition visit_large_binary (dialect : MSDialect) (type_ : TypeEngine) : string :=
  if truthy_flag (deprecate_large_types dialect)
  then visit_VARBINARY type_ else visit_IMAGE type_.

End TypeCompiler.

(** ** Version-dependent attributes: [MSDialect._setup_version_attributes] *)

Module Dialect.
Import Py.

Definition recognised_major (v : Z) : bool := (8 <=? v) && (v <? 17).

(** The dialect after the call, with the warnings it emitted;
    [server_version_info[0]] raises on the empty tuple. *)
Definition _setup_version_attributes (self : MSDialect)
  : Result (MSDialect * list string) :=
  match server_version_info self with
  | [] => Raise IndexError
  | major :: _ =>
    let info := server_version_info self in
    let warnings :=
      if negb (recognised_major major)
      then ["Unrecognized server version info '"
              ++ String.concat "." (map str_of_int info)
              ++ "'.  Some SQL Server features may not function properly."]
      else [] in
    let returning_off := tuple_lt info MS_2005_VERSION in
    Return
      ({| server_version_info := info;
          deprecate_large_types :=
            match deprecate_large_types self with
            | None => Some (tuple_ge info MS_2012_VERSION)
            | Some b => Some b
            end;
          _supports_offset_fetch := (11 <=? major);
          implicit_returning :=
            if returning_off then false else implicit_returning self;
          full_returning :=
            if returning_off then false else full_returning self;
          supports_multivalues_insert :=
            if tuple_ge info MS_2008_VERSION then true
            else supports_multivalues_insert self;
          schema_name := schema_name self;
          default_schema_name := default_schema_name self;
          use_scope_identity := use_scope_identity self;
          supports_unicode_statements := supports_unicode_statements self |},
       warnings)
  end.

End Dialect.

(** ** Schema qualifiers: [_schema_elements] and its callers *)

Module Schema.
Import Py.

(** What [_schema_elements] returns: [(dbname, owner)]. *)
Definition Elements : Type := option PyStr * option PyStr.

(** *** The memo of resolved schemas *)

(** Modelled from the spec: [util.LRUCache], the class of
    [_memoized_schema], is not among the sources.  The spec describes a
    cache keyed by the exact raw input string, of fixed capacity, which
    evicts the least recently used entry.  The entries are kept most
    recently used first. *)
Record LRUCache : Type := mkCache {
  capacity : nat;
  entries : list (string * Elements)
}.

Definition empty_cache (capacity : nat) : LRUCache :=
  {| capacity := capacity; entries := [] |}.

Definition key_is (k : string) (e : string * Elements) : bool := String.eqb k (fst e).

(** [memo[k]] for a key that is present: the value, and the memo with the
    entry moved to the front; [None] when [k not in memo]. *)
Definition getitem (k : string) (memo : LRUCache) : option (Elements * LRUCache) :=
  match List.find (key_is k) (entries memo) with
  | Some (_, v) =>
    Some (v, {| capacity := capacity memo;
                entries := (k, v) :: List.filter (fun e => negb (key_is k e)) (entries memo) |})
  | None => None
  end.

(** [memo[k] = v]: the entry becomes the most recent one and the entries
    beyond the capacity, the least recently used ones, are dropped. *)
Definition setitem (k : string) (v : Elements) (memo : LRUCache) : LRUCache :=
  {| capacity := capacity memo;
     entries := firstn (capacity memo)
                  ((k, v) :: List.filter (fun e => negb (key_is k e)) (entries memo)) |}.

(** *** String helpers *)

Definition is_delimiter (c : ascii) : bool :=
  Ascii.eqb c "[" || Ascii.eqb c "]" || Ascii.eqb c ".".

(** [re.split(r"(\[|\]|\.)", s)]: the text between delimiters
    (possibly empty) alternating with the delimiters themselves; [cur] is
    the text read since the last delimiter. *)
Fixpoint re_split (s : string) (cur : string) : list string :=
  match s with
  | EmptyString => [cur]
  | String c rest =>
    if is_delimiter c
    then cur :: String c EmptyString :: re_split rest EmptyString
    else re_split rest (cur ++ String c EmptyString)
  end.

(** [s.lstrip(c)] and [s.rstrip(c)] for a one-character [c]. *)
Fixpoint lstrip (c : ascii) (s : string) : string :=
  match s with
  | String a rest => if Ascii.eqb a c then lstrip c rest else s
  | EmptyString => EmptyString
  end.

Fixpoint rstrip (c : ascii) (s : string) : string :=
  match s with
  | String a rest =>
    match rstrip c rest with
    | EmptyString => if Ascii.eqb a c then EmptyString else String a EmptyString
    | r => String a r
    end
  | EmptyString => EmptyString
  end.

(** [s[:-1]] and [s[1:-1]]. *)
Fixpoint drop_last (s : string) : string :=
  match s with
  | String a EmptyString => EmptyString
  | String a rest => String a (drop_last rest)
  | EmptyString => EmptyString
  end.

Definition slice_1_m1 (s : string) : string :=
  match s with
  | String _ rest => drop_last rest
  | EmptyString => EmptyString
  end.

Definition newline : ascii := ascii_of_nat 10.

(** [re.match(r".*\].*\[.*", s)]: some "]" is followed, later on, by a
    "[", with no line break before that "[" (the dot of a regular
    expression does not match a line break).  [seen] tells whether a "]"
    has been read. *)
Fixpoint match_internal_brackets (seen : bool) (s : string) : bool :=
  match s with
  | EmptyString => false
  | String c rest =>
    if Ascii.eqb c newline then false
    else if seen && Ascii.eqb c "[" then true
    else match_internal_brackets (seen || Ascii.eqb c "]") rest
  end.

(** *** The tokenizer loop *)

Record LoopState : Type := mkLoop {
  push : list string;
  symbol : string;
  bracket : bool;
  has_brackets : bool
}.

Definition loop_start : LoopState :=
  {| push := []; symbol := ""; bracket := false; has_brackets := false |}.

(** One iteration of [for token in re.split(...)]. *)
Definition loop_body (st : LoopState) (token : string) : LoopState :=
  if negb (truthy_str token) then st
  else if String.eqb token "[" then
    {| push := push st; symbol := symbol st; bracket := true; has_brackets := true |}
  else if String.eqb token "]" then
    {| push := push st; symbol := symbol st; bracket := false;
       has_brackets := has_brackets st |}
  else if negb (bracket st) && String.eqb token "." then
    {| push := app (push st)
                 [if has_brackets st then "[" ++ symbol st ++ "]" else symbol st];
       symbol := ""; bracket := bracket st; has_brackets := false |}
  else
    {| push := push st; symbol := symbol st ++ token; bracket := bracket st;
       has_brackets := has_brackets st |}.

(** The body of [_schema_elements] below the memo lookup, as a function
    of the text of [schema]. *)
Definition split_schema (schema : string) : Elements :=
  let st := fold_left loop_body (re_split schema "") loop_start in
  let push := if truthy_str (symbol st) then app (push st) [symbol st] else push st in
  if (1 <? List.length push)%nat then
    let dbname := String.concat "." (removelast push) in
    let owner := List.last push "" in
    let dbname :=
      if match_internal_brackets false (slice_1_m1 dbname)
      then quoted_name dbname (Some false)
      else Str (rstrip "]" (lstrip "[" dbname)) in
    (Some dbname, Some (Str owner))
  else
    match push with
    | p :: _ => (None, Some (Str p))
    | [] => (None, None)
    end.

(** [_schema_elements(schema)], threading [_memoized_schema]. *)
Definition _schema_elements (schema : PyStr) (_memoized_schema : LRUCache)
  : Elements * LRUCache :=
  match schema with
  | quoted_name _ (Some true) => ((None, Some schema), _memoized_schema)
  | _ =>
    match getitem (text schema) _memoized_schema with
    | Some hit => hit
    | None =>
      let result := split_schema (text schema) in
      (result, setitem (text schema) result _memoized_schema)
    end
  end.

(** ["." in schema]. *)
Fixpoint contains_dot (s : string) : bool :=
  match s with
  | EmptyString => false
  | String c rest => Ascii.eqb c "." || contains_dot rest
  end.

(** [_owner_plus_db(dialect, schema)]. *)
Definition _owner_plus_db (dialect : MSDialect) (schema : option PyStr)
    (_memoized_schema : LRUCache) : Elements * LRUCache :=
  match schema with
  | None => ((None, Some (default_schema_name dialect)), _memoized_schema)
  | Some schema =>
    if negb (truthy_str (text schema))
    then ((None, Some (default_schema_name dialect)), _memoized_schema)
    else if contains_dot (text schema)
    then _schema_elements schema _memoized_schema
    else ((None, Some schema), _memoized_schema)
  end.

(** [MSDialect._get_default_schema_name]; [scalar] is what
    [connection.scalar("SELECT schema_name()")] returns. *)
Definition _get_default_schema_name (self : MSDialect) (scalar : option string) : PyStr :=
  if tuple_lt (server_version_info self) MS_2005_VERSION
  then Str (schema_name self)
  else
    match scalar with
    | Some default_schema_name => quoted_name default_schema_name (Some true)
    | None => Str (schema_name self)
    end.

End Schema.

(** ** Statement rendering: the pagination hooks of [MSSQLCompiler] *)

Module Compiler.
Import Py.

Inductive Operator : Type := op_gt | op_le | op_add.

(** The expressions the pagination code builds or inspects. *)
#[warnings="-register-all"] Inductive ClauseElement : Type :=
| _OffsetLimitParam (value : Z)
| TextClause (sql : string)
| ColumnClause (name : string)
| Null
| Label (name : string) (element : ClauseElement)
| ROW_NUMBER_over (order_by : list ClauseElement)
| BinaryExpression (left : ClauseElement) (operator : Operator) (right : ClauseElement).

(** What a SELECT selects from: a table, or the anonymous alias of a
    SELECT. *)
Inductive FromOf (S : Type) : Type :=
| TableClause (name : string)
| Alias (element : S).
Arguments TableClause {S} name.
Arguments Alias {S} element.

(** A SELECT with the attributes the dialect reads. *)
#[warnings="-register-all"] Inductive Select : Type := mkSelect {
  columns : list ClauseElement;
  from_obj : FromOf Select;
  _where_criteria : list ClauseElement;
  _order_by_clauses : list ClauseElement;
  _limit_clause : option ClauseElement;
  _offset_clause : option ClauseElement;
  _mssql_visit : bool
}.

Abbreviation FromClause := (FromOf Select).

(** Modelled from the spec: the properties of a SELECT defined in
    [sql/selectable.py], which is not among the sources.  A LIMIT or
    OFFSET is simple when it is a plain integer bound as
    [_OffsetLimitParam]; [_limit] and [_offset] give its integer value,
    [None] when the clause is absent, and are a compile error for any
    other expression. *)
Definition _simple_int_limit (select : Select) : bool :=
  match _limit_clause select with Some (_OffsetLimitParam _) => true | _ => false end.

Definition _simple_int_offset (select : Select) : bool :=
  match _offset_clause select with Some (_OffsetLimitParam _) => true | _ => false end.

Definition _offset_or_limit_clause_asint (clause : option ClauseElement)
    (attrname : string) : Result (option Z) :=
  match clause with
  | None => Return None
  | Some (_OffsetLimitParam value) => Return (Some value)
  | Some _ =>
    Raise (CompileError
             ("This SELECT structure does not use a simple integer value for "
                ++ attrname))
  end.

Definition _limit (select : Select) : Result (option Z) :=
  _offset_or_limit_clause_asint (_limit_clause select) "limit".

Definition _offset (select : Select) : Result (option Z) :=
  _offset_or_limit_clause_asint (_offset_clause select) "offset".

(** Truth value of an [int] or [None]. *)
Definition truthy_int (n : option Z) : bool :=
  match n with Some v => negb (v =? 0) | None => false end.

(** [n == 0] for an [int] or [None]. *)
Definition eq_zero (n : option Z) : bool :=
  match n with Some v => v =? 0 | None => false end.

Definition is_none {A} (x : option A) : bool :=
  match x with None => true | Some _ => false end.

Definition empty {A} (l : list A) : bool :=
  match l with [] => true | _ => false end.

(** Modelled from the spec: the generative methods of a SELECT
    ([_generate], [add_columns], [order_by(None)], [alias], [where]) and
    [sql.select], from [sql/selectable.py].  Each returns a new statement
    and leaves its argument as it was; values are immutable here, so
    [_generate], the copy, is the identity. *)
Definition _generate (select : Select) : Select := select.

Definition set_mssql_visit (select : Select) : Select :=
  {| columns := columns select; from_obj := from_obj select;
     _where_criteria := _where_criteria select;
     _order_by_clauses := _order_by_clauses select;
     _limit_clause := _limit_clause select;
     _offset_clause := _offset_clause select;
     _mssql_visit := true |}.

Definition add_columns (select : Select) (column : ClauseElement) : Select :=
  {| columns := app (columns select) [column]; from_obj := from_obj select;
     _where_criteria := _where_criteria select;
     _order_by_clauses := _order_by_clauses select;
     _limit_clause := _limit_clause select;
     _offset_clause := _offset_clause select;
     _mssql_visit := _mssql_visit select |}.

Definition order_by_None (select : Select) : Select :=
  {| columns := columns select; from_obj := from_obj select;
     _where_criteria := _where_criteria select;
     _order_by_clauses := [];
     _limit_clause := _limit_clause select;
     _offset_clause := _offset_clause select;
     _mssql_visit := _mssql_visit select |}.

Definition where_ (select : Select) (criterion : ClauseElement) : Select :=
  {| columns := columns select; from_obj := from_obj select;
     _where_criteria := app (_where_criteria select) [criterion];
     _order_by_clauses := _order_by_clauses select;
     _limit_clause := _limit_clause select;
     _offset_clause := _offset_clause select;
     _mssql_visit := _mssql_visit select |}.

Definition sql_select (columns : list ClauseElement) (from_obj : FromClause) : Select :=
  {| columns := columns; from_obj := from_obj;
     _where_criteria := []; _order_by_clauses := [];
     _limit_clause := None; _offset_clause := None;
     _mssql_visit := false |}.

(** The right operand of a comparison: [None] is taken as SQL NULL. *)
Definition coerce (x : option ClauseElement) : ClauseElement :=
  match x with Some e => e | None => Null end.

Definition newline : string := String (ascii_of_nat 10) EmptyString.

Definition order_by_required : string :=
  "MSSQL requires an order_by when using an OFFSET or a non-simple LIMIT clause".

Section Hooks.

(** The parts of the base compiler and of the expression language that
    the hooks call and that are not among the sources:
    [self.process(element, literal_execute=...)], the rendering of a
    FROM object, [super().get_select_precolumns], the [.c] collection
    of a FROM object with the [key] of a column, and
    [sql_util.unwrap_label_reference]. *)
Variable process : bool -> ClauseElement -> string.
Variable process_from : FromClause -> string.
Variable super_get_select_precolumns : Select -> string.
Variable c : FromClause -> list ClauseElement.
Variable key : ClauseElement -> option string.
Variable unwrap_label_reference : ClauseElement -> ClauseElement.

Definition process_opt (literal_execute : bool) (element : option ClauseElement)
  : Result string :=
  match element with
  | Some e => Return (process literal_execute e)
  | None => Raise AttributeError
  end.

(** The condition under which [get_select_precolumns] renders TOP. *)
Definition uses_top (select : Select) : Result bool :=
  and_then (Return (_simple_int_limit select))
    (or_else (Return (is_none (_offset_clause select)))
       (and_then (Return (_simple_int_offset select))
          (let* o := _offset select in Return (eq_zero o)))).

Definition get_select_precolumns (select : Select) : Result string :=
  let s := super_get_select_precolumns select in
  let* top := uses_top select in
  if top then
    let* limit := process_opt true (_limit_clause select) in
    Return (s ++ "TOP " ++ limit ++ " ")
  else Return s.

(** The condition under which [limit_clause] returns the empty string. *)
Definition skips_offset_fetch (dialect : MSDialect) (select : Select) : Result bool :=
  or_else (Return (negb (_supports_offset_fetch dialect)))
    (and_then (Return (_simple_int_limit select || is_none (_limit_clause select)))
       (and_then (Return (is_none (_offset_clause select) || _simple_int_offset select))
          (let* o := _offset select in Return (negb (truthy_int o))))).

Definition limit_clause (dialect : MSDialect) (select : Select) : Result string :=
  let* skip := skips_offset_fetch dialect select in
  if skip then Return ""
  else if empty (_order_by_clauses select) then Raise (CompileError order_by_required)
  else
    let offset_str :=
      match _offset_clause select with
      | Some o => process false o
      | None => "0"
      end in
    let text := newline ++ " OFFSET " ++ offset_str ++ " ROWS" in
    match _limit_clause select with
    | Some l => Return (text ++ newline ++ " FETCH NEXT " ++ process false l ++ " ROWS ONLY ")
    | None => Return text
    end.

(** The condition under which [translate_select_structure] rewrites. *)
Definition uses_row_number (dialect : MSDialect) (select : Select) : Result bool :=
  and_then (Return (negb (_supports_offset_fetch dialect)))
    (and_then
       (or_else
          (Return (negb (_simple_int_limit select)
                   && negb (is_none (_limit_clause select))))
          (or_else
             (Return (negb (is_none (_offset_clause select))
                      && negb (_simple_int_offset select)))
             (let* o := _offset select in Return (truthy_int o))))
       (Return (negb (_mssql_visit select)))).

Definition translate_select_structure (dialect : MSDialect) (select_stmt : Select)
  : Result Select :=
  let select := select_stmt in
  let* rewrite := uses_row_number dialect select in
  if rewrite then
    if empty (_order_by_clauses select) then Raise (CompileError order_by_required)
    else
      let _order_by_clauses := map unwrap_label_reference (_order_by_clauses select) in
      let limit_clause := _limit_clause select in
      let offset_clause := _offset_clause select in
      let select := _generate select in
      let select := set_mssql_visit select in
      let select :=
        Alias (order_by_None
                 (add_columns select
                    (Label "mssql_rn" (ROW_NUMBER_over _order_by_clauses)))) in
      let mssql_rn := ColumnClause "mssql_rn" in
      let limitselect :=
        sql_select
          (List.filter (fun col => negb (bool_decide (key col = Some "mssql_rn"))) (c select))
          select in
      match offset_clause with
      | Some offset =>
        let limitselect :=
          where_ limitselect (BinaryExpression mssql_rn op_gt offset) in
        match limit_clause with
        | Some limit =>
          Return (where_ limitselect
                    (BinaryExpression mssql_rn op_le
                       (BinaryExpression limit op_add offset)))
        | None => Return limitselect
        end
      | None =>
        Return (where_ limitselect
                  (BinaryExpression mssql_rn op_le (coerce limit_clause)))
      end
  else Return select.

Definition order_by_clause (dialect : MSDialect) (is_subquery : bool) (select : Select)
  : Result string :=
  let* skip :=
    and_then (Return is_subquery)
      (and_then (let* l := _limit select in Return (negb (truthy_int l)))
         (or_else (let* o := _offset select in Return (negb (truthy_int o)))
            (Return (negb (_supports_offset_fetch dialect))))) in
  if skip then Return ""
  else
    let order_by :=
      String.concat ", " (map (process false) (_order_by_clauses select)) in
    if truthy_str order_by then Return (" ORDER BY " ++ order_by) else Return "".

(** Modelled from the spec: one render call of a SELECT by the base
    compiler ([SQLCompiler.visit_select], not among the sources).  The
    statement is first handed to [translate_select_structure]; the text
    is then assembled from the translated statement, with
    [get_select_precolumns] before the column list, then FROM, WHERE,
    [order_by_clause] when there is an ORDER BY, and [limit_clause].
    Nothing is returned when a hook raises. *)
Definition visit_select (dialect : MSDialect) (is_subquery : bool) (select_stmt : Select)
  : Result string :=
  let* select := translate_select_structure dialect select_stmt in
  let* precolumns := get_select_precolumns select in
  let text :=
    "SELECT " ++ precolumns
      ++ String.concat ", " (map (process false) (columns select))
      ++ " FROM " ++ process_from (from_obj select) in
  let text :=
    if empty (_where_criteria select) then text
    else text ++ " WHERE "
           ++ String.concat " AND " (map (process false) (_where_criteria select)) in
  let* order_by :=
    (if empty (_order_by_clauses select) then Return ""
     else order_by_clause dialect is_subquery select) in
  let* limit := limit_clause dialect select in
  Return (text ++ order_by ++ limit).

End Hooks.

(** The value of a rank filter on a row of rank [rn], for integer
    operands. *)
Fixpoint eval_int (rn : Z) (e : ClauseElement) : option Z :=
  match e with
  | _OffsetLimitParam v => Some v
  | ColumnClause name => if String.eqb name "mssql_rn" then Some rn else None
  | BinaryExpression a op_add b =>
    match eval_int rn a, eval_int rn b with
    | Some x, Some y => Some (x + y)
    | _, _ => None
    end
  | _ => None
  end.

Definition eval_bool (rn : Z) (e : ClauseElement) : option bool :=
  match e with
  | BinaryExpression a op_gt b =>
    match eval_int rn a, eval_int rn b with
    | Some x, Some y => Some (y <? x)
    | _, _ => None
    end
  | BinaryExpression a op_le b =>
    match eval_int rn a, eval_int rn b with
    | Some x, Some y => Some (x <=? y)
    | _, _ => None
    end
  | _ => None
  end.

(** A row passes the WHERE clause when every criterion holds of it. *)
Definition passes (rn : Z) (select : Select) : bool :=
  forallb (fun e => match eval_bool rn e with Some true => true | _ => false end)
    (_where_criteria select).

End Compiler.

(** ** The execution context: [MSExecutionContext] *)

Module Execution.
Import Py.

(** *** The DBAPI cursor *)

(** A value in a result row. *)
Inductive Value : Type :=
| VInt (n : Z)
| VDecimal (unscaled : Z) (scale : nat)
| VNull.

(** [int(v)]: a decimal is truncated towards zero, [None] is a
    [TypeError]. *)
Definition int (v : Value) : Result Z :=
  match v with
  | VInt n => Return n
  | VDecimal unscaled scale => Return (Z.quot unscaled (10 ^ Z.of_nat scale))
  | VNull => Raise TypeError
  end.

Definition Row : Type := list Value.

(** What the database answers to a statement: a row count and rows, or
    an error. *)
Inductive Reply : Type :=
| Ok (rowcount : Z) (rows : list Row)
| Error (msg : string).

(** The cursor: the statements handed to it so far, in order, and the
    row count and rows left by the last one. *)
Record Cursor : Type := mkCursor {
  executed : list string;
  rowcount : Z;
  rows : list Row
}.

(** A call that reads or drives the cursor and may raise. *)
Definition M (A : Type) : Type := Cursor -> Result A * Cursor.

Definition ret {A} (a : A) : M A := fun cur => (Return a, cur).

Definition raise {A} (e : Exception) : M A := fun cur => (Raise e, cur).

Definition bindM {A B} (m : M A) (k : A -> M B) : M B :=
  fun cur =>
    match m cur with
    | (Return a, cur') => k a cur'
    | (Raise e, cur') => (Raise e, cur')
    end.

(** [try: m except Exception as e: handler(e)]. *)
Definition try_except {A} (m : M A) (handler : Exception -> M A) : M A :=
  fun cur =>
    match m cur with
    | (Return a, cur') => (Return a, cur')
    | (Raise e, cur') => handler e cur'
    end.

Definition lift {A} (r : Result A) : M A := fun cur => (r, cur).

Notation "'let!' x ':=' c 'in' k" := (bindM c (fun x => k))
  (at level 10, x name, c at level 100, k at level 200).

(** [l[0]]. *)
Definition item0 {A} (l : list A) : Result A :=
  match l with
  | x :: _ => Return x
  | [] => Raise IndexError
  end.

(** *** The statement and its context *)

(** A column: its [key], and whether its [default] is a [Sequence]. *)
Record Column : Type := mkColumn {
  key : string;
  default_is_Sequence : bool
}.

#[global] Instance Column_eq_dec : EqDecision Column.
Proof. solve_decision. Defined.

Record Table : Type := mkTable {
  name : string;
  _autoincrement_column : option Column
}.

(** A key of [compile_state._dict_parameters]: a name or a column. *)
Inductive ParamKey : Type :=
| KeyName (s : string)
| KeyColumn (col : Column).

#[global] Instance ParamKey_eq_dec : EqDecision ParamKey.
Proof. solve_decision. Defined.

(** The compiled statement: [statement.table], [inline], whether there
    is a RETURNING, and the keys of [compile_state._dict_parameters]
    ([None] when there is no such dictionary). *)
Record Compiled : Type := mkCompiled {
  table : Table;
  inline : bool;
  returning : bool;
  _dict_parameters : option (list ParamKey)
}.

Inductive FetchStrategy : Type :=
| FullyBufferedCursorFetchStrategy (rows : list Row).

Record MSExecutionContext : Type := mkContext {
  dialect : MSDialect;
  compiled : Compiled;
  compiled_parameters : list (gmap string Value);
  isinsert : bool;
  isupdate : bool;
  isdelete : bool;
  executemany : bool;
  _enable_identity_insert : bool;
  _select_lastrowid : bool;
  _lastrowid : option Z;
  _rowcount : option Z;
  cursor_fetch_strategy : option FetchStrategy
}.

Definition set_flags (enable lastrowid : bool) (self : MSExecutionContext)
  : MSExecutionContext :=
  {| dialect := dialect self; compiled := compiled self;
     compiled_parameters := compiled_parameters self;
     isinsert := isinsert self; isupdate := isupdate self; isdelete := isdelete self;
     executemany := executemany self;
     _enable_identity_insert := enable;
     _select_lastrowid := lastrowid;
     _lastrowid := _lastrowid self; _rowcount := _rowcount self;
     cursor_fetch_strategy := cursor_fetch_strategy self |}.

Definition set_rowcount (n : Z) (self : MSExecutionContext) : MSExecutionContext :=
  {| dialect := dialect self; compiled := compiled self;
     compiled_parameters := compiled_parameters self;
     isinsert := isinsert self; isupdate := isupdate self; isdelete := isdelete self;
     executemany := executemany self;
     _enable_identity_insert := _enable_identity_insert self;
     _select_lastrowid := _select_lastrowid self;
     _lastrowid := _lastrowid self; _rowcount := Some n;
     cursor_fetch_strategy := cursor_fetch_strategy self |}.

Definition set_lastrowid (n : Z) (self : MSExecutionContext) : MSExecutionContext :=
  {| dialect := dialect self; compiled := compiled self;
     compiled_parameters := compiled_parameters self;
     isinsert := isinsert self; isupdate := isupdate self; isdelete := isdelete self;
     executemany := executemany self;
     _enable_identity_insert := _enable_identity_insert self;
     _select_lastrowid := _select_lastrowid self;
     _lastrowid := Some n; _rowcount := _rowcount self;
     cursor_fetch_strategy := cursor_fetch_strategy self |}.

Definition set_fetch_strategy (f : FetchStrategy) (self : MSExecutionContext)
  : MSExecutionContext :=
  {| dialect := dialect self; compiled := compiled self;
     compiled_parameters := compiled_parameters self;
     isinsert := isinsert self; isupdate := isupdate self; isdelete := isdelete self;
     executemany := executemany self;
     _enable_identity_insert := _enable_identity_insert self;
     _select_lastrowid := _select_lastrowid self;
     _lastrowid := _lastrowid self; _rowcount := _rowcount self;
     cursor_fetch_strategy := Some f |}.

(** A context as [MSExecutionContext] creates it: the class-level
    defaults for the private attributes. *)
Definition new_context (dialect : MSDialect) (compiled : Compiled)
    (compiled_parameters : list (gmap string Value))
    (isinsert isupdate isdelete executemany : bool) : MSExecutionContext :=
  {| dialect := dialect; compiled := compiled;
     compiled_parameters := compiled_parameters;
     isinsert := isinsert; isupdate := isupdate; isdelete := isdelete;
     executemany := executemany;
     _enable_identity_insert := false;
     _select_lastrowid := false;
     _lastrowid := None; _rowcount := None;
     cursor_fetch_strategy := None |}.

Definition scope_identity_query : string := "SELECT scope_identity() AS lastrowid".
Definition identity_query : string := "SELECT @@identity AS lastrowid".

Section Context.

(** The database behind the cursor: its answer to a statement, given
    the statements executed before it. *)
Variable dbapi : list string -> string -> Reply.

(** [identifier_preparer.format_table] and [dialect._encoder(s)[0]],
    which are not among the sources. *)
Variable format_table : Table -> string.
Variable _encoder : string -> string.

(** [cursor.execute(statement)]: the statement is recorded, and either
    its row count and rows are left on the cursor or the error of the
    database is raised. *)
Definition cursor_execute (statement : string) : M unit :=
  fun cur =>
    let log := app (executed cur) [statement] in
    match dbapi (executed cur) statement with
    | Ok n rs => (Return tt, {| executed := log; rowcount := n; rows := rs |})
    | Error msg =>
      (Raise (DBAPIError msg),
       {| executed := log; rowcount := rowcount cur; rows := rows cur |})
    end.

(** [cursor.rowcount] and [cursor.fetchall()]. *)
Definition cursor_rowcount : M Z := fun cur => (Return (rowcount cur), cur).

Definition fetchall : M (list Row) :=
  fun cur =>
    (Return (rows cur),
     {| executed := executed cur; rowcount := rowcount cur; rows := [] |}).

Definition _opt_encode (self : MSExecutionContext) (statement : string) : string :=
  if negb (supports_unicode_statements (dialect self))
  then _encoder statement
  else statement.

Definition identity_insert_on (self : MSExecutionContext) : string :=
  _opt_encode self
    ("SET IDENTITY_INSERT " ++ format_table (table (compiled self)) ++ " ON").

Definition identity_insert_off (self : MSExecutionContext) : string :=
  _opt_encode self
    ("SET IDENTITY_INSERT " ++ format_table (table (compiled self)) ++ " OFF").

Definition handle_dbapi_exception (self : MSExecutionContext) (e : Exception) : M unit :=
  if _enable_identity_insert self then
    try_except (cursor_execute (identity_insert_off self)) (fun _ => ret tt)
  else ret tt.

(** Modelled from the spec: [Connection._cursor_execute(cursor,
    statement, parameters, context)], from [engine/base.py], which is
    not among the sources: the side statement is issued on the cursor
    of the invocation; when the database rejects it, the context it was
    given is handed the error ([context.handle_dbapi_exception(e)])
    and the error is then raised to the caller. *)
Definition _cursor_execute (statement : string) (context : MSExecutionContext)
  : M unit :=
  try_except (cursor_execute statement)
    (fun e => let! _ := handle_dbapi_exception context e in raise e).

(** [insert_has_identity] of [pre_exec]. *)
Definition insert_has_identity (self : MSExecutionContext) : bool :=
  match _autoincrement_column (table (compiled self)) with
  | Some id_column => negb (default_is_Sequence id_column)
  | None => false
  end.

(** Whether the parameters of the INSERT give a value for the identity
    column: the right-hand side of the assignment to
    [_enable_identity_insert] in [pre_exec]. *)
Definition supplies_identity (self : MSExecutionContext) (id_column : Column)
  : Result bool :=
  let* parameters := item0 (compiled_parameters self) in
  Return
    (bool_decide (is_Some (parameters !! key id_column))
     || match _dict_parameters (compiled self) with
        | Some ((_ :: _) as d) =>
          bool_decide (KeyName (key id_column) ∈ d)
          || bool_decide (KeyColumn id_column ∈ d)
        | _ => false
        end).

Definition pre_exec (self : MSExecutionContext) : M MSExecutionContext :=
  if isinsert self then
    let tbl := table (compiled self) in
    let id_column := _autoincrement_column tbl in
    let insert_has_identity := insert_has_identity self in
    let! enable :=
      (if insert_has_identity then
         match id_column with
         | Some id_column => lift (supplies_identity self id_column)
         | None => raise AttributeError
         end
       else ret false) in
    let select_lastrowid :=
      negb (inline (compiled self))
      && insert_has_identity
      && negb (returning (compiled self))
      && negb enable
      && negb (executemany self) in
    let self := set_flags enable select_lastrowid self in
    if enable then
      let! _ := _cursor_execute (identity_insert_on self) self in
      ret self
    else ret self
  else ret self.

Definition post_exec (self : MSExecutionContext) : M MSExecutionContext :=
  let dml := isinsert self || isupdate self || isdelete self in
  let! self :=
    (if dml then
       let! n := cursor_rowcount in ret (set_rowcount n self)
     else ret self) in
  let! self :=
    (if _select_lastrowid self then
       let! _ :=
         _cursor_execute
           (if use_scope_identity (dialect self)
            then scope_identity_query else identity_query) self in
       let! all := fetchall in
       let! row := lift (item0 all) in
       let! v := lift (item0 row) in
       let! n := lift (int v) in
       ret (set_lastrowid n self)
     else if dml && returning (compiled self) then
       let! all := fetchall in
       ret (set_fetch_strategy (FullyBufferedCursorFetchStrategy all) self)
     else ret self) in
  if _enable_identity_insert self then
    let! _ := _cursor_execute (identity_insert_off self) self in
    ret self
  else ret self.

(** Modelled from the spec: one statement invocation, as the engine
    drives the context ([Connection._execute_context], from
    [engine/base.py], is not among the sources).  The pre-execution
    statements complete before the main statement starts; the main
    statement completes before the post-execution statements start;
    when the main statement fails, the context is given the error for
    its cleanup and the original error is raised again to the caller.
    A failure inside [pre_exec] or [post_exec] is raised as it is: an
    error of the database there has been handed to the context by
    [_cursor_execute] already, and any other error is not handed to
    it. *)
Definition execute_context (self : MSExecutionContext) (statement : string)
  : M MSExecutionContext :=
  let! self := pre_exec self in
  let! _ :=
    try_except (cursor_execute statement)
      (fun e => let! _ := handle_dbapi_exception self e in raise e) in
  post_exec self.

End Context.

End Execution.

(** ** Reading a schema string character by character *)

(** The notions in which the properties of [_schema_elements] are stated:
    the bracket flag along a string, the dots outside brackets, and the
    loop of the function read one character at a time. *)

Module SchemaSpec.
Import Py Schema.

(** The bracket flag after one more character. *)
Definition next_bracket (b : bool) (ch : ascii) : bool :=
  if Ascii.eqb ch "[" then true else if Ascii.eqb ch "]" then false else b.

(** The bracket flag after [s], read from the flag [b]. *)
Fixpoint bracket_after (b : bool) (s : string) : bool :=
  match s with
  | EmptyString => b
  | String ch rest => bracket_after (next_bracket b ch) rest
  end.

(** Whether [s], read from the flag [b], has a "." outside brackets. *)
Fixpoint has_free_dot (b : bool) (s : string) : bool :=
  match s with
  | EmptyString => false
  | String ch rest =>
    (Ascii.eqb ch "." && negb b) || has_free_dot (next_bracket b ch) rest
  end.

(** The split of [s] at its last "." outside brackets: the text before
    it and the text after it. *)
Fixpoint last_free_dot (b : bool) (s : string) : option (string * string) :=
  match s with
  | EmptyString => None
  | String ch rest =>
    match last_free_dot (next_bracket b ch) rest with
    | Some (pre, post) => Some (String ch pre, post)
    | None => if Ascii.eqb ch "." && negb b then Some ("", rest) else None
    end
  end.

(** [s] without its "[" and "]". *)
Fixpoint without_brackets (s : string) : string :=
  match s with
  | EmptyString => EmptyString
  | String ch rest =>
    if Ascii.eqb ch "[" || Ascii.eqb ch "]" then without_brackets rest
    else String ch (without_brackets rest)
  end.

Fixpoint has_open (s : string) : bool :=
  match s with
  | EmptyString => false
  | String ch rest => Ascii.eqb ch "[" || has_open rest
  end.

Fixpoint mentions (c : ascii) (s : string) : bool :=
  match s with
  | EmptyString => false
  | String ch rest => Ascii.eqb ch c || mentions c rest
  end.

Fixpoint no_delimiter (s : string) : bool :=
  match s with
  | EmptyString => true
  | String ch rest => negb (is_delimiter ch) && no_delimiter rest
  end.

(** The loop of [_schema_elements], one character at a time. *)
Fixpoint scan (s : string) (st : LoopState) : LoopState :=
  match s with
  | EmptyString => st
  | String ch rest => scan rest (loop_body st (String ch EmptyString))
  end.

Definition add_text (st : LoopState) (t : string) : LoopState :=
  {| push := push st; symbol := symbol st ++ t; bracket := bracket st;
     has_brackets := has_brackets st |}.

(** The database name kept by [_schema_elements], from the joined
    tokens. *)
Definition dbname_of (joined : string) : PyStr :=
  if match_internal_brackets false (slice_1_m1 joined)
  then quoted_name joined (Some false)
  else Str (rstrip "]" (lstrip "[" joined)).

(** What [_schema_elements] does once the loop is over. *)
Definition finish (st : LoopState) : Elements :=
  let push := if truthy_str (symbol st) then app (push st) [symbol st] else push st in
  if (1 <? List.length push)%nat then
    let dbname := String.concat "." (removelast push) in
    let owner := List.last push "" in
    (Some (dbname_of dbname), Some (Str owner))
  else
    match push with
    | p :: _ => (None, Some (Str p))
    | [] => (None, None)
    end.

(** The pieces of [s] between its dots outside brackets, read from the
    flag [b]; [cur] is the piece being read. *)
Fixpoint segments (b : bool) (cur s : string) : list string :=
  match s with
  | EmptyString => [cur]
  | String ch rest =>
    if Ascii.eqb ch "." && negb b
    then cur :: segments b "" rest
    else segments (next_bracket b ch) (cur ++ String ch "") rest
  end.

(** A piece as it enters the database name: without its bracket
    characters, and within one pair of brackets when it had a "[". *)
Definition piece (seg : string) : string :=
  if has_open seg then "[" ++ without_brackets seg ++ "]" else without_brackets seg.

(** The text of the database for the text [pre] before the last dot
    outside brackets: its pieces, joined by dots. *)
Definition database_text (pre : string) : string :=
  String.concat "." (map piece (segments false "" pre)).

(** What the loop has in hand for the piece [cur] it is reading. *)
Definition reading (st : LoopState) (cur : string) : Prop :=
  symbol st = without_brackets cur /\ has_brackets st = has_open cur.

(** The tokens pushed so far and the current symbol, joined by dots. *)
Definition joined (st : LoopState) : string :=
  String.concat "." (app (push st) [symbol st]).

(** The memo holds, for a key, what [split_schema] gives for it. *)
Definition cache_sound (memo : LRUCache) : Prop :=
  forall k v, In (k, v) (entries memo) -> v = split_schema k.

End SchemaSpec.

(** ** Shapes of LIMIT and OFFSET, and a small base compiler *)

Module CompilerSpec.
Import Py Compiler.

(** A clause that is present and is not a plain integer. *)
Definition non_simple (clause : option ClauseElement) : bool :=
  match clause with
  | None => false
  | Some (_OffsetLimitParam _) => false
  | Some _ => true
  end.

(** An OFFSET that is a plain integer other than 0. *)
Definition offset_nonzero (select : Select) : bool :=
  match _offset_clause select with
  | Some (_OffsetLimitParam v) => negb (v =? 0)
  | _ => false
  end.

(** The statements for which the dialect asks for an ORDER BY: a LIMIT or
    OFFSET that is not a plain integer, or a plain OFFSET other than 0. *)
Definition needs_order_by (select : Select) : bool :=
  non_simple (_limit_clause select)
  || non_simple (_offset_clause select)
  || offset_nonzero select.

(** The statements that ask for some rows only: those with a LIMIT, and
    those for which the dialect asks for an ORDER BY. *)
Definition paginated (select : Select) : bool :=
  negb (is_none (_limit_clause select)) || needs_order_by select.

(** A LIMIT that is a plain integer other than 0. *)
Definition limit_nonzero (select : Select) : bool :=
  match _limit_clause select with
  | Some (_OffsetLimitParam v) => negb (v =? 0)
  | _ => false
  end.

(** The statements whose LIMIT and OFFSET the ORDER BY of a subquery can
    read as integers: the LIMIT is a plain integer or absent and, unless
    it is a plain integer other than 0, so is the OFFSET. *)
Definition readable_in_subquery (select : Select) : bool :=
  negb (non_simple (_limit_clause select))
  && (limit_nonzero select || negb (non_simple (_offset_clause select))).

(** The statements the rewrite is for: those that ask for an ORDER BY,
    compiled without native OFFSET / FETCH, and not yet tagged. *)
Definition rewrite_due (dialect : MSDialect) (select : Select) : bool :=
  negb (_supports_offset_fetch dialect) && needs_order_by select
  && negb (_mssql_visit select).

(** The render calls that give a text: a statement to rewrite needs its
    ORDER BY; any other needs it when OFFSET / FETCH is to be rendered,
    and in a subquery its ORDER BY, if any, must be able to read LIMIT
    and OFFSET. *)
Definition renders (dialect : MSDialect) (is_subquery : bool) (select : Select) : bool :=
  if rewrite_due dialect select then negb (empty (_order_by_clauses select))
  else
    (empty (_order_by_clauses select) || negb is_subquery || readable_in_subquery select)
    && negb (_supports_offset_fetch dialect && needs_order_by select
             && empty (_order_by_clauses select)).

(** The three pagination strategies, and how each shows in what the
    hooks return in one render call of the statement [select]:
    [translate_select_structure] hands on another statement than it was
    given; [get_select_precolumns] returns more than the text [base] of
    the base compiler; [limit_clause] returns some text. *)
Inductive Strategy : Type := NativeOffsetFetch | TopOnly | RowNumberRewrite.

Definition applied (select translated : Select) (base precolumns limit : string)
    (strategy : Strategy) : Prop :=
  match strategy with
  | RowNumberRewrite => translated <> select
  | TopOnly => precolumns <> base
  | NativeOffsetFetch => limit <> ""
  end.

(** The first [ROW_NUMBER] filter: [mssql_rn > offset]. *)
Definition rank_above (offset : ClauseElement) : ClauseElement :=
  BinaryExpression (ColumnClause "mssql_rn") op_gt offset.

(** The second one: [mssql_rn <= bound]. *)
Definition rank_up_to (bound : ClauseElement) : ClauseElement :=
  BinaryExpression (ColumnClause "mssql_rn") op_le bound.

(** Modelled from the spec: an instance of the base compiler, which is not
    among the sources, that renders a statement the way the spec writes
    its scenarios: a column by its name, an integer bound as a parameter
    by [:param] or, under [literal_execute], by its digits. *)
Fixpoint basic_process (literal_execute : bool) (e : ClauseElement) : string :=
  match e with
  | _OffsetLimitParam v => if literal_execute then str_of_int v else ":param"
  | TextClause sql => sql
  | ColumnClause name => name
  | Null => "NULL"
  | Label name element => basic_process literal_execute element ++ " AS " ++ name
  | ROW_NUMBER_over order_by =>
    "ROW_NUMBER() OVER (ORDER BY "
      ++ String.concat ", " (map (basic_process literal_execute) order_by) ++ ")"
  | BinaryExpression a op b =>
    basic_process literal_execute a
      ++ match op with op_gt => " > " | op_le => " <= " | op_add => " + " end
      ++ basic_process literal_execute b
  end.

Definition basic_key (e : ClauseElement) : option string :=
  match e with
  | ColumnClause name => Some name
  | Label name _ => Some name
  | _ => None
  end.

(** The columns of an alias: one per keyed column of the aliased SELECT. *)
Definition basic_c (f : FromClause) : list ClauseElement :=
  match f with
  | Alias element =>
    flat_map (fun col => match basic_key col with
                         | Some k => [ColumnClause k]
                         | None => []
                         end)
      (columns element)
  | TableClause _ => []
  end.

(** A FROM object: the name of a table, or the aliased SELECT in
    parentheses, rendered without pagination. *)
Fixpoint basic_select (select : Select) : string :=
  match select with
  | mkSelect cols from criteria _ _ _ _ =>
    "SELECT " ++ String.concat ", " (map (basic_process false) cols)
      ++ " FROM "
      ++ match from with
         | TableClause name => name
         | Alias element => "(" ++ basic_select element ++ ") AS anon_1"
         end
      ++ match criteria with
         | [] => ""
         | _ => " WHERE " ++ String.concat " AND " (map (basic_process false) criteria)
         end
  end.

Definition basic_from (f : FromClause) : string :=
  match f with
  | TableClause name => name
  | Alias element => "(" ++ basic_select element ++ ") AS anon_1"
  end.

(** The hooks over this instance. *)
Definition basic_translate : MSDialect -> Select -> Result Select :=
  translate_select_structure basic_c basic_key (fun e => e).

Definition basic_visit_select : MSDialect -> bool -> Select -> Result string :=
  visit_select basic_process basic_from (fun _ => "") basic_c basic_key (fun e => e).

Definition basic_precolumns : Select -> Result string :=
  get_select_precolumns basic_process (fun _ => "").

(** The two capabilities: before and from SQL Server 2012. *)
Definition mssql_2008 : MSDialect :=
  {| server_version_info := [10; 50];
     deprecate_large_types := Some false;
     _supports_offset_fetch := false;
     implicit_returning := true;
     full_returning := true;
     supports_multivalues_insert := true;
     schema_name := "dbo";
     default_schema_name := Str "dbo";
     use_scope_identity := true;
     supports_unicode_statements := true |}.

Definition mssql_2012 : MSDialect :=
  {| server_version_info := [11; 0];
     deprecate_large_types := Some true;
     _supports_offset_fetch := true;
     implicit_returning := true;
     full_returning := true;
     supports_multivalues_insert := true;
     schema_name := "dbo";
     default_schema_name := Str "dbo";
     use_scope_identity := true;
     supports_unicode_statements := true |}.

(** [SELECT x FROM t] with the given ORDER BY, LIMIT and OFFSET. *)
Definition select_x_from_t (order_by : list ClauseElement)
    (limit offset : option ClauseElement) : Select :=
  {| columns := [ColumnClause "x"]; from_obj := TableClause "t";
     _where_criteria := []; _order_by_clauses := order_by;
     _limit_clause := limit; _offset_clause := offset;
     _mssql_visit := false |}.

End CompilerSpec.

(** ** A table with an identity column, and two databases *)

Module ExecutionSpec.
Import Py Execution.

(** The follow-up query of [post_exec]. *)
Definition lastrowid_query (self : MSExecutionContext) : string :=
  if use_scope_identity (dialect self) then scope_identity_query else identity_query.

(** The table [t (id INTEGER IDENTITY, x INTEGER)]. *)
Definition id_column : Column := {| key := "id"; default_is_Sequence := false |}.

Definition t : Table := {| name := "t"; _autoincrement_column := Some id_column |}.

Definition insert_into_t (inline : bool) : Compiled :=
  {| table := t; inline := inline; returning := false; _dict_parameters := None |}.

(** An INSERT of one row that gives [x] only, and one that gives [id] too. *)
Definition insert_x (inline : bool) : MSExecutionContext :=
  new_context default_dialect (insert_into_t inline)
    [{[ "x" := VInt 1 ]}] true false false false.

Definition insert_id_x : MSExecutionContext :=
  new_context default_dialect (insert_into_t false)
    [{[ "id" := VInt 7; "x" := VInt 1 ]}] true false false false.

Definition insert_x_text : string := "INSERT INTO t (x) VALUES (?)".
Definition insert_id_x_text : string := "INSERT INTO t (id, x) VALUES (?, ?)".

(** A database that accepts every statement and answers the identity
    query with one row of one column. *)
Definition obliging_db (history : list string) (statement : string) : Reply :=
  if String.eqb statement scope_identity_query then Ok 1 [[VDecimal 42 0]]
  else Ok 1 [].

(** A database that rejects the INSERT, and then the cleanup too. *)
Definition rejecting_db (history : list string) (statement : string) : Reply :=
  if String.eqb statement insert_id_x_text then Error "duplicate key"
  else if String.eqb statement "SET IDENTITY_INSERT t OFF" then Error "connection lost"
  else Ok 0 [].

(** A database that accepts the INSERT and rejects the statement that
    disables identity-insert mode. *)
Definition unplugged_db (history : list string) (statement : string) : Reply :=
  if String.eqb statement "SET IDENTITY_INSERT t OFF" then Error "connection lost"
  else Ok 1 [].

Definition new_cursor : Cursor := {| executed := []; rowcount := -1; rows := [] |}.

(** Whether the database rejects a statement, given the statements
    executed before it. *)
Definition rejected (dbapi : list string -> string -> Reply)
    (history : list string) (statement : string) : bool :=
  match dbapi history statement with
  | Ok _ _ => false
  | Error _ => true
  end.

(** The disabling statements at the end of [post_exec]: none when the
    mode is off; the statement [off] when the mode is on, and once more,
    from the handler of the context, when the database rejects it. *)
Definition cleanup (dbapi : list string -> string -> Reply) (off : string)
    (enabled : bool) (history : list string) : list string :=
  if enabled
  then off :: (if rejected dbapi history off then [off] else [])
  else [].

End ExecutionSpec.

(** ** What the context reports after the statement

    The [rowcount] property of [MSExecutionContext]. *)

Module ContextResults.
Import Py Execution.

(** The [rowcount] property: the count kept by [post_exec] when there
    is one, the count of the cursor as it stands otherwise. *)
Definition rowcount (self : MSExecutionContext) : M Z :=
  match _rowcount self with
  | Some n => ret n
  | None => cursor_rowcount
  end.

(** An UPDATE of three rows with a RETURNING, run with identity-insert
    mode on; and a database that answers it with three rows, and every
    other statement with a row count of [-1] and no rows. *)
Definition update_text : string := "UPDATE t SET x=? OUTPUT inserted.id".

Definition update_returning : MSExecutionContext :=
  set_flags true false
    (new_context default_dialect
       {| table := ExecutionSpec.t; inline := false; returning := true;
          _dict_parameters := None |}
       [{[ "x" := VInt 1 ]}] false true false false).

Definition three_rows : list Row := [[VInt 1]; [VInt 2]; [VInt 3]].

Definition after_update : Cursor :=
  {| executed := [update_text]; Execution.rowcount := 3; rows := three_rows |}.

Definition silent_db (history : list string) (statement : string) : Reply :=
  if String.eqb statement update_text then Ok 3 three_rows else Ok (-1) [].

(** A database that rejects the statement that enables
    identity-insert mode. *)
Definition locked_db (history : list string) (statement : string) : Reply :=
  if String.eqb statement "SET IDENTITY_INSERT t ON" then Error "permission denied"
  else Ok 0 [].

(** A database whose identity query finds no identity value. *)
Definition null_identity_db (history : list string) (statement : string) : Reply :=
  if String.eqb statement scope_identity_query then Ok 1 [[VNull]] else Ok 1 [].

End ContextResults.

(** ** Identifiers and literals

    [MSIdentifierPreparer] and [_UnicodeLiteral]. *)

Module Preparer.
Import Py Schema.

(** [s.replace(old, new)].  With an empty [old], [new] is put before
    every character and at the end.  Otherwise the occurrences of [old]
    are replaced from the left, without overlap: [skip] counts the
    characters of an occurrence still to be passed over. *)
Fixpoint intersperse (new s : string) : string :=
  match s with
  | EmptyString => EmptyString
  | String ch rest => String ch (new ++ intersperse new rest)
  end.

Fixpoint replace_from (skip : nat) (old new s : string) : string :=
  match s with
  | EmptyString => EmptyString
  | String ch rest =>
    match skip with
    | S k => replace_from k old new rest
    | O =>
      if String.prefix old s
      then new ++ replace_from (String.length old - 1) old new rest
      else String ch (replace_from 0 old new rest)
    end
  end.

Definition replace (old new s : string) : string :=
  match old with
  | EmptyString => new ++ intersperse new s
  | _ => replace_from 0 old new s
  end.

Definition _escape_identifier (value : string) : string := replace "]" "]]" value.

Definition _unescape_identifier (value : string) : string := replace "]]" "]" value.

(** [_UnicodeLiteral.literal_processor(dialect)(value)];
    [_double_percents] is the flag of the identifier preparer. *)
Definition literal_processor (_double_percents : bool) (value : string) : string :=
  let value := replace "'" "''" value in
  let value := if _double_percents then replace "%" "%%" value else value in
  "N'" ++ value ++ "'".

Definition force_deprecated : string :=
  "The IdentifierPreparer.quote_schema.force parameter is "
    ++ "deprecated and will be removed in a future release.  This "
    ++ "flag has no effect on the behavior of the "
    ++ "IdentifierPreparer.quote method; please refer to "
    ++ "quoted_name().".

(** Truth value of a name or [None]. *)
Definition truthy_name (x : option PyStr) : bool :=
  match x with
  | Some s => truthy_str (text s)
  | None => false
  end.

Section Quote.

(** [IdentifierPreparer.quote], from [sql/compiler.py], which is not
    among the sources, applied to what [quote_schema] hands it. *)
Variable quote : option PyStr -> string.

(** [quote_schema(schema, force)]: the text, the deprecation warnings
    emitted, and the memo of [_schema_elements]. *)
Definition quote_schema (schema : PyStr) (force : option bool)
    (_memoized_schema : LRUCache) : string * list string * LRUCache :=
  let warnings :=
    match force with
    | Some _ => [force_deprecated]
    | None => []
    end in
  let '((dbname, owner), memo) := _schema_elements schema _memoized_schema in
  let result :=
    if truthy_name dbname then quote dbname ++ "." ++ quote owner
    else if truthy_name owner then quote owner
    else "" in
  (result, warnings, memo).

End Quote.

(** A reader of an [N'...'] literal, as the server reads it: after the
    opening quote, two quotes in a row stand for one and a single quote
    ends the literal.  It returns the value and the text left after the
    literal. *)
Fixpoint read_quoted (s : string) : option (string * string) :=
  match s with
  | EmptyString => None
  | String ch rest =>
    if Ascii.eqb ch "'" then
      match rest with
      | String ch' rest' =>
        if Ascii.eqb ch' "'" then
          match read_quoted rest' with
          | Some (value, tail) => Some (String "'" value, tail)
          | None => None
          end
        else Some (EmptyString, rest)
      | EmptyString => Some (EmptyString, EmptyString)
      end
    else
      match read_quoted rest with
      | Some (value, tail) => Some (String ch value, tail)
      | None => None
      end
  end.

Definition read_literal (s : string) : option (string * string) :=
  match s with
  | String "N" (String "'" body) => read_quoted body
  | _ => None
  end.

(** A sample [quote]: the name in brackets, with the closing brackets
    doubled. *)
Definition bracket_quote (x : option PyStr) : string :=
  match x with
  | Some s => "[" ++ _escape_identifier (text s) ++ "]"
  | None => "None"
  end.

End Preparer.

(** ** Bind parameters in comparisons: [MSSQLCompiler.visit_binary] *)

Module Binary.
Import Py.

(** [operator.eq], or another operator, by its name. *)
Inductive Operator : Type :=
| operator_eq
| operator_other (name : string).

Definition is_eq (operator : Operator) : bool :=
  match operator with operator_eq => true | operator_other _ => false end.

Inductive Element : Type :=
| BindParameter (key : string)
| ColumnElement (name : string)
| BinaryExpression (left : Element) (operator : Operator) (right : Element).

Definition isinstance_BindParameter (e : Element) : bool :=
  match e with BindParameter _ => true | _ => false end.

Section Visit.

(** The keyword arguments, handed on as they are, and the two calls
    into the base compiler, which is not among the sources:
    [self.process] and [super().visit_binary]. *)
Variable Kwargs : Type.
Variable process : Element -> Kwargs -> string.
Variable super_visit_binary : Element -> Operator -> Element -> Kwargs -> string.

(** [visit_binary(binary, **kwargs)], on the three parts of [binary]. *)
Definition visit_binary (left : Element) (operator : Operator) (right : Element)
    (kwargs : Kwargs) : string :=
  if isinstance_BindParameter left && is_eq operator
     && negb (isinstance_BindParameter right)
  then process (BinaryExpression right operator left) kwargs
  else super_visit_binary left operator right kwargs.

End Visit.

(** The comparison with its bind parameter moved to the right, where
    [visit_binary] moves it. *)
Definition moved (left : Element) (operator : Operator) (right : Element)
  : Element * Element :=
  if isinstance_BindParameter left && is_eq operator
     && negb (isinstance_BindParameter right)
  then (right, left)
  else (left, right).

(** A sample compiler: a parameter as [:key], a column by its name, a
    comparison through [visit_binary]. *)
Definition operator_text (operator : Operator) : string :=
  match operator with
  | operator_eq => " = "
  | operator_other name => " " ++ name ++ " "
  end.

Fixpoint sample_process (e : Element) (kwargs : unit) : string :=
  match e with
  | BindParameter key => ":" ++ key
  | ColumnElement name => name
  | BinaryExpression a operator b =>
    if isinstance_BindParameter a && is_eq operator
       && negb (isinstance_BindParameter b)
    then sample_process b kwargs ++ operator_text operator ++ sample_process a kwargs
    else sample_process a kwargs ++ operator_text operator ++ sample_process b kwargs
  end.

Definition sample_visit_binary (left : Element) (operator : Operator) (right : Element)
    (kwargs : unit) : string :=
  sample_process left kwargs ++ operator_text operator ++ sample_process right kwargs.

End Binary.

(** ** Connections: isolation levels and the switch of database

    [MSDialect.set_isolation_level], [MSDialect.get_isolation_level],
    [_switch_db] and the decorator [_db_plus_owner]. *)

Module Connection.
Import Py Schema Preparer.

(** The exceptions of these functions: those of [Py], where
    [DBAPIError] stands for [dbapi.Error], and two more. *)
Inductive Error : Type :=
| Base (e : Exception)
| ArgumentError (msg : string)
| NotImplementedError (msg : string).

Inductive Outcome (A : Type) : Type :=
| Returns (a : A)
| Raises (e : Error).
Arguments Returns {A} a.
Arguments Raises {A} e.

(** What is done to the connection, in order. *)
Inductive Event : Type :=
| cursor_open
| execute (statement : string)
| fetchone
| cursor_close
| commit
| exec_driver_sql (statement : string)
| warn (msg : string).

(** What [cursor.fetchone()] gives: an error of the driver, no row, or
    a row, a NULL being [None]. *)
Inductive Fetched : Type :=
| FetchError (msg : string)
| NoRow
| Row (values : list (option string)).

(** A call that drives the connection and may raise. *)
Definition C (A : Type) : Type := list Event -> Outcome A * list Event.

Definition ret {A} (a : A) : C A := fun trace => (Returns a, trace).

Definition raise {A} (e : Error) : C A := fun trace => (Raises e, trace).

Definition bindC {A B} (m : C A) (k : A -> C B) : C B :=
  fun trace =>
    match m trace with
    | (Returns a, trace') => k a trace'
    | (Raises e, trace') => (Raises e, trace')
    end.

Notation "'let!' x ':=' c 'in' k" := (bindC c (fun x => k))
  (at level 10, x name, c at level 100, k at level 200).

Definition emit (e : Event) : C unit := fun trace => (Returns tt, app trace [e]).

(** [try: body finally: cleanup]: the cleanup runs whatever the body
    did, and an error of the cleanup replaces the outcome of the body. *)
Definition try_finally {A} (body : C A) (cleanup : C unit) : C A :=
  fun trace =>
    match body trace with
    | (out, trace') =>
      match cleanup trace' with
      | (Returns _, trace'') => (out, trace'')
      | (Raises e, trace'') => (Raises e, trace'')
      end
    end.

(** [level in self._isolation_lookup]. *)
Definition _isolation_lookup : list string :=
  ["SERIALIZABLE"; "READ UNCOMMITTED"; "READ COMMITTED"; "REPEATABLE READ"; "SNAPSHOT"].

Definition in_lookup (level : string) : bool :=
  existsb (String.eqb level) _isolation_lookup.

Definition newline : string := String (ascii_of_nat 10) EmptyString.

Definition views : list string :=
  ["sys.dm_exec_sessions"; "sys.dm_pdw_nodes_exec_sessions"].

(** [str(views)], the tuple of the two names. *)
Definition str_views : string :=
  "('sys.dm_exec_sessions', 'sys.dm_pdw_nodes_exec_sessions')".

Definition isolation_query (view : string) : string :=
  newline
    ++ "                  SELECT CASE transaction_isolation_level" ++ newline
    ++ "                    WHEN 0 THEN NULL" ++ newline
    ++ "                    WHEN 1 THEN 'READ UNCOMMITTED'" ++ newline
    ++ "                    WHEN 2 THEN 'READ COMMITTED'" ++ newline
    ++ "                    WHEN 3 THEN 'REPEATABLE READ'" ++ newline
    ++ "                    WHEN 4 THEN 'SERIALIZABLE'" ++ newline
    ++ "                    WHEN 5 THEN 'SNAPSHOT' END AS TRANSACTION_ISOLATION_LEVEL"
    ++ newline
    ++ "                    FROM " ++ view ++ newline
    ++ "                    where session_id = @@SPID" ++ newline
    ++ "                  ".

(** [str(last_error)]. *)
Definition str_error (last_error : option string) : string :=
  match last_error with
  | Some msg => msg
  | None => "None"
  end.

Section Server.

(** The server behind the connection, given what was done so far: the
    error of [cursor.execute(statement)], if any; what
    [cursor.fetchone()] gives; and what
    [connection.exec_driver_sql(statement).scalar()] gives. *)
Variable execute_error : list Event -> string -> option string.
Variable fetched : list Event -> Fetched.
Variable driver_scalar : list Event -> string -> Outcome (option string).

(** The order in which Python iterates the set [_isolation_lookup],
    which the language does not fix; [str.upper]; and
    [identifier_preparer.quote], which is not among the sources. *)
Variable iteration : list string.
Variable upper : string -> string.
Variable quote : option PyStr -> string.

Definition cursor_execute (statement : string) : C unit :=
  fun trace =>
    match execute_error trace statement with
    | None => (Returns tt, app trace [execute statement])
    | Some msg => (Raises (Base (DBAPIError msg)), app trace [execute statement])
    end.

(** [cursor.fetchone()[0]]. *)
Definition fetchone_0 : C (option string) :=
  fun trace =>
    let trace' := app trace [fetchone] in
    match fetched trace with
    | FetchError msg => (Raises (Base (DBAPIError msg)), trace')
    | NoRow => (Raises (Base TypeError), trace')
    | Row [] => (Raises (Base IndexError), trace')
    | Row (value :: _) => (Returns value, trace')
    end.

Definition set_isolation_level (level : string) : C unit :=
  let level := replace "_" " " level in
  if negb (in_lookup level) then
    raise (ArgumentError
             ("Invalid value '" ++ level ++ "' for isolation_level. "
                ++ "Valid isolation levels for mssql are "
                ++ String.concat ", " iteration))
  else
    let! _ := emit cursor_open in
    let! _ := cursor_execute ("SET TRANSACTION ISOLATION LEVEL " ++ level) in
    let! _ := emit cursor_close in
    if String.eqb level "SNAPSHOT" then emit commit else ret tt.

(** The loop of [get_isolation_level] over the views left to try. *)
Fixpoint try_views (views : list string) (last_error : option string) : C string :=
  match views with
  | view :: rest =>
    let! _ := emit cursor_open in
    fun trace =>
      match (let! _ := cursor_execute (isolation_query view) in fetchone_0) trace with
      | (Raises (Base (DBAPIError err)), trace') =>
        (let! _ := emit cursor_close in try_views rest (Some err)) trace'
      | (Raises e, trace') =>
        (let! _ := emit cursor_close in raise e) trace'
      | (Returns (Some val), trace') =>
        (let! _ := emit cursor_close in ret (upper val)) trace'
      | (Returns None, trace') =>
        (let! _ := emit cursor_close in raise (Base AttributeError)) trace'
      end
  | [] =>
    let! _ :=
      emit (warn ("Could not fetch transaction isolation level, "
                    ++ "tried views: " ++ str_views ++ "; final error was: "
                    ++ str_error last_error)) in
    raise (NotImplementedError
             ("Can't fetch isolation level on this particular "
                ++ "SQL Server version. tried views: " ++ str_views
                ++ "; final error was: " ++ str_error last_error))
  end.

Definition get_isolation_level (self : MSDialect) : C string :=
  if tuple_lt (server_version_info self) MS_2005_VERSION
  then raise (NotImplementedError
                "Can't fetch isolation level prior to SQL Server 2005")
  else try_views views None.

(** [connection.exec_driver_sql(statement).scalar()]. *)
Definition scalar (statement : string) : C (option string) :=
  fun trace =>
    (driver_scalar trace statement, app trace [exec_driver_sql statement]).

(** [current_db != dbname], by the text. *)
Definition differs (current_db : option string) (dbname : option PyStr) : bool :=
  negb (bool_decide (current_db = option_map text dbname)).

(** [_switch_db]; [fn] stands for the call of [fn] on its
    arguments. *)
Definition _switch_db {A} (dbname : option PyStr) (fn : C A) : C A :=
  let! current_db :=
    (if truthy_name dbname then
       let! current_db := scalar "select db_name()" in
       let! _ :=
         (if differs current_db dbname
          then let! _ := scalar ("use " ++ quote dbname) in ret tt
          else ret tt) in
       ret current_db
     else ret None) in
  try_finally fn
    (if truthy_name dbname && differs current_db dbname
     then let! _ := scalar ("use " ++ quote (option_map Str current_db)) in ret tt
     else ret tt).

(** The function that [_db_plus_owner(fn)] returns, threading the memo
    of [_schema_elements]; [fn] is given the table name, the database,
    the owner and the schema. *)
Definition _db_plus_owner {A}
    (fn : string -> option PyStr -> option PyStr -> option PyStr -> C A)
    (dialect : MSDialect) (tablename : string) (schema : option PyStr)
    (_memoized_schema : LRUCache) : C A * LRUCache :=
  let '((dbname, owner), memo) := _owner_plus_db dialect schema _memoized_schema in
  (_switch_db dbname (fn tablename dbname owner schema), memo).

End Server.

(** Whether every cursor of a run is opened, used and closed in turn:
    [open] tells whether a cursor is open. *)
Fixpoint well_bracketed (open : bool) (trace : list Event) : bool :=
  match trace with
  | [] => negb open
  | cursor_open :: rest => negb open && well_bracketed true rest
  | cursor_close :: rest => open && well_bracketed false rest
  | execute _ :: rest => open && well_bracketed open rest
  | fetchone :: rest => open && well_bracketed open rest
  | _ :: rest => well_bracketed open rest
  end.

(** The statements executed on cursors, in order. *)
Definition executed_statements (trace : list Event) : list string :=
  flat_map (fun e => match e with execute s => [s] | _ => [] end) trace.

(** A server whose current database is [master]. *)
Definition master_scalar (trace : list Event) (statement : string)
  : Outcome (option string) :=
  if String.eqb statement "select db_name()" then Returns (Some "master")
  else Returns None.

Definition failing_fn : C unit :=
  fun trace => (Raises (Base (DBAPIError "no such table")),
                app trace [exec_driver_sql "select 1 from t"]).

End Connection.

(** ** Reflection: what is made of the rows read

    [MSDialect.get_indexes] and [MSDialect.get_pk_constraint], from the
    result sets of their queries on. *)

Module Reflection.
Import Py.

(** A row of the first query of [get_indexes], and one of the second. *)
Record IndexRow : Type := mkIndexRow {
  index_id : Z;
  is_unique : Z;
  name : string
}.

Record IndexColumnRow : Type := mkIndexColumnRow {
  column_index_id : Z;
  object_id : Z;
  column_name : string
}.

(** An entry of the list returned: [{"name": ..., "unique": ...,
    "column_names": [...]}]. *)
Record ReflectedIndex : Type := mkIndex {
  index_name : string;
  unique : bool;
  column_names : list string
}.

(** The dictionary [indexes]: its items in the order of insertion. *)
Definition Indexes : Type := list (Z * ReflectedIndex).

(** [indexes[k] = v]: a key already there keeps its place. *)
Fixpoint setitem (k : Z) (v : ReflectedIndex) (indexes : Indexes) : Indexes :=
  match indexes with
  | [] => [(k, v)]
  | (k', v') :: rest =>
    if k =? k' then (k, v) :: rest else (k', v') :: setitem k v rest
  end.

(** [if k in indexes: indexes[k]["column_names"].append(name)]. *)
Fixpoint append_column (k : Z) (name : string) (indexes : Indexes) : Indexes :=
  match indexes with
  | [] => []
  | (k', v) :: rest =>
    if k =? k'
    then (k', {| index_name := index_name v; unique := unique v;
                 column_names := app (column_names v) [name] |}) :: rest
    else (k', v) :: append_column k name rest
  end.

(** [get_indexes], given the rows of its two queries. *)
Definition get_indexes (self : MSDialect) (index_rows : list IndexRow)
    (column_rows : list IndexColumnRow) : list ReflectedIndex :=
  if tuple_lt (server_version_info self) MS_2005_VERSION then []
  else
    let indexes :=
      fold_left
        (fun indexes row =>
           setitem (index_id row)
             {| index_name := name row; unique := is_unique row =? 1;
                column_names := [] |}
             indexes)
        index_rows [] in
    let indexes :=
      fold_left
        (fun indexes row =>
           append_column (column_index_id row) (column_name row) indexes)
        column_rows indexes in
    map snd indexes.

(** A row of the query of [get_pk_constraint]. *)
Record ConstraintRow : Type := mkConstraintRow {
  COLUMN_NAME : string;
  CONSTRAINT_TYPE : string;
  CONSTRAINT_NAME : option string
}.

(** [sub in s], for strings. *)
Fixpoint contains (sub s : string) : bool :=
  String.prefix sub s
  || match s with
     | EmptyString => false
     | String _ rest => contains sub rest
     end.

Record PkConstraint : Type := mkPk {
  constrained_columns : list string;
  pk_name : option string
}.

(** [get_pk_constraint], given the rows of its query. *)
Definition get_pk_constraint (rows : list ConstraintRow) : PkConstraint :=
  let '(pkeys, constraint_name) :=
    fold_left
      (fun '(pkeys, constraint_name) row =>
         if contains "PRIMARY" (CONSTRAINT_TYPE row)
         then (app pkeys [COLUMN_NAME row],
               match constraint_name with
               | None => CONSTRAINT_NAME row
               | Some _ => constraint_name
               end)
         else (pkeys, constraint_name))
      rows ([], None) in
  {| constrained_columns := pkeys; pk_name := constraint_name |}.

(** The index an id stands for, from the rows of the first query: the
    last row with that id. *)
Definition described_by (index_rows : list IndexRow) (k : Z) : option IndexRow :=
  List.find (fun row => index_id row =? k) (rev index_rows).

(** The names of the column rows of an index, in the order of the
    rows. *)
Definition columns_of (column_rows : list IndexColumnRow) (k : Z) : list string :=
  map column_name (List.filter (fun row => column_index_id row =? k) column_rows).

(** The distinct ids of the rows, in the order of their first
    appearance. *)
Definition first_appearances (index_rows : list IndexRow) : list Z :=
  fold_left
    (fun ids row =>
       if bool_decide (index_id row ∈ ids) then ids else app ids [index_id row])
    index_rows [].

(** The entry for an id: the name and the uniqueness of the last row
    with that id, and the columns of the id. *)
Definition entry_of (index_rows : list IndexRow) (column_rows : list IndexColumnRow)
    (k : Z) : ReflectedIndex :=
  let row :=
    default {| index_id := k; is_unique := 0; name := "" |}
      (described_by index_rows k) in
  {| index_name := name row; unique := is_unique row =? 1;
     column_names := columns_of column_rows k |}.

(** An item of the dictionary with more columns. *)
Definition with_columns (names : list string) (item : Z * ReflectedIndex)
  : Z * ReflectedIndex :=
  (fst item,
   {| index_name := index_name (snd item); unique := unique (snd item);
      column_names := app (column_names (snd item)) names |}).

(** The first non-null name among the rows. *)
Definition first_name (rows : list ConstraintRow) : option string :=
  head (omap CONSTRAINT_NAME rows).

(** A table with two indexes, the first on two columns, and a primary
    key that the first query leaves out. *)
Definition sample_index_rows : list IndexRow :=
  [ {| index_id := 2; is_unique := 1; name := "ix_email" |};
    {| index_id := 3; is_unique := 0; name := "ix_name" |} ].

Definition sample_column_rows : list IndexColumnRow :=
  [ {| column_index_id := 1; object_id := 7; column_name := "id" |};
    {| column_index_id := 2; object_id := 7; column_name := "email" |};
    {| column_index_id := 3; object_id := 7; column_name := "last" |};
    {| column_index_id := 2; object_id := 7; column_name := "tenant" |} ].

End Reflection.

(** ** Row versions read as integers: [TIMESTAMP.result_processor] *)

Module Timestamp.

(** What the processor returns: [None], the bytes, or an integer. *)
Inductive Processed : Type :=
| PNone
| PBytes (value : list Byte.byte)
| PInt (n : Z).

Inductive Outcome : Type :=
| Returns (value : Processed)
| ValueError.

(** [codecs.encode(value, "hex")]: two hexadecimal digits for each
    byte, the high one first, in lower case. *)
Definition hex_digit (n : N) : ascii :=
  match n with
  | 0 => "0" | 1 => "1" | 2 => "2" | 3 => "3" | 4 => "4" | 5 => "5" | 6 => "6"
  | 7 => "7" | 8 => "8" | 9 => "9" | 10 => "a" | 11 => "b" | 12 => "c"
  | 13 => "d" | 14 => "e" | _ => "f"
  end%N%char.

Fixpoint hex_encode (value : list Byte.byte) : string :=
  match value with
  | [] => EmptyString
  | b :: rest =>
    String (hex_digit (Byte.to_N b / 16))
      (String (hex_digit (Byte.to_N b mod 16)) (hex_encode rest))
  end.

(** [int(s, 16)] on a text of hexadecimal digits, which is all that
    [hex_encode] gives; the empty text is a [ValueError].  The signs,
    prefixes, blanks and underscores that [int] reads as well do not
    occur and are taken as errors here. *)
Definition digit_value (c : ascii) : option Z :=
  let code := Z.of_nat (nat_of_ascii c) in
  if (48 <=? code) && (code <=? 57) then Some (code - 48)
  else if (97 <=? code) && (code <=? 102) then Some (code - 87)
  else if (65 <=? code) && (code <=? 70) then Some (code - 55)
  else None.

Fixpoint digits_16 (acc : Z) (s : string) : option Z :=
  match s with
  | EmptyString => Some acc
  | String c rest =>
    match digit_value c with
    | Some d => digits_16 (acc * 16 + d) rest
    | None => None
    end
  end.

Definition int_16 (s : string) : option Z :=
  match s with
  | EmptyString => None
  | _ => digits_16 0 s
  end.

Section Processor.

(** The value as the driver gives it, and the processor of the base
    type, [sqltypes._Binary], which is not among the sources. *)
Variable Raw : Type.
Variable super_ : Raw -> option (list Byte.byte).

(** [TIMESTAMP(convert_int).result_processor(dialect, coltype)(value)]. *)
Definition result_processor (convert_int : bool) (value : Raw) : Outcome :=
  if convert_int then
    match super_ value with
    | Some value =>
      match int_16 (hex_encode value) with
      | Some n => Returns (PInt n)
      | None => ValueError
      end
    | None => Returns PNone
    end
  else
    match super_ value with
    | Some value => Returns (PBytes value)
    | None => Returns PNone
    end.

End Processor.

(** The bytes read as one number, the first byte the most significant. *)
Definition big_endian (value : list Byte.byte) : Z :=
  fold_left (fun acc b => acc * 256 + Z.of_N (Byte.to_N b)) value 0.

(** The order of byte strings. *)
Fixpoint bytes_lt (a b : list Byte.byte) : bool :=
  match a, b with
  | _, [] => false
  | [], _ :: _ => true
  | x :: a', y :: b' =>
    if (Byte.to_N x <? Byte.to_N y)%N then true
    else if (Byte.to_N y <? Byte.to_N x)%N then false
    else bytes_lt a' b'
  end.

End Timestamp.

(** ** Dates and times: [_MSDate] and [TIME] *)

Module DateTime.

Record date : Type := mkDate { year : Z; month : Z; day : Z }.

Record time : Type := mkTime { hour : Z; minute : Z; second : Z; microsecond : Z }.

(** A text as the processors are given it: a Python [str], the sequence
    of its code points.  [of_string] is the text of an ASCII literal. *)
Definition Text : Type := list N.

Definition of_string (s : string) : Text := map N_of_ascii (list_ascii_of_string s).

(** The values the processors are given: a [datetime.date], a
    [datetime.datetime] or a [datetime.time], the last two with the text
    of their UTC offset (empty for a naive value), a string, or
    anything else, under a name. *)
Inductive Value : Type :=
| Date (d : date)
| DateTime (d : date) (t : time) (offset : Text)
| Time (t : time) (offset : Text)
| Str (s : Text)
| Other (what : string).

Inductive Outcome : Type :=
| Returns (value : Value)
| ValueError
| OverflowError.

(** The checks of the constructors [datetime.date] and
    [datetime.time], as CPython makes them: an argument that does not
    fit a C [int] is an [OverflowError], and one out of its range a
    [ValueError]. *)
Definition INT_MAX : Z := 2147483647.

Definition fits_int (n : Z) : bool := (- INT_MAX - 1 <=? n) && (n <=? INT_MAX).

Definition is_leap (y : Z) : bool :=
  (y mod 4 =? 0) && (negb (y mod 100 =? 0) || (y mod 400 =? 0)).

Definition days_in_month (y m : Z) : Z :=
  if m =? 2 then (if is_leap y then 29 else 28)
  else if (m =? 4) || (m =? 6) || (m =? 9) || (m =? 11) then 30
  else 31.

Definition valid_date (d : date) : bool :=
  (1 <=? year d) && (year d <=? 9999) && (1 <=? month d) && (month d <=? 12)
  && (1 <=? day d) && (day d <=? days_in_month (year d) (month d)).

Definition valid_time (t : time) : bool :=
  (0 <=? hour t) && (hour t <? 24) && (0 <=? minute t) && (minute t <? 60)
  && (0 <=? second t) && (second t <? 60)
  && (0 <=? microsecond t) && (microsecond t <? 1000000).

Definition datetime_date (y m d : Z) : Outcome :=
  let value := {| year := y; month := m; day := d |} in
  if negb (fits_int y && fits_int m && fits_int d) then OverflowError
  else if valid_date value then Returns (Date value) else ValueError.

Definition datetime_time (h m s us : Z) : Outcome :=
  let value := {| hour := h; minute := m; second := s; microsecond := us |} in
  if negb (fits_int h && fits_int m && fits_int s && fits_int us) then OverflowError
  else if valid_time value then Returns (Time value (@nil N)) else ValueError.

Definition colon : N := 58.
Definition hyphen : N := 45.
Definition full_stop : N := 46.
Definition plus_sign : N := 43.

(** The digit of a number below ten, and a number in a given width,
    with leading zeros: ["%02d" % n] and the like. *)
Definition digit (n : Z) : N := 48 + Z.to_N n.

Fixpoint pad_onto (width : nat) (n : Z) (tail : Text) : Text :=
  match width with
  | O => tail
  | S w => pad_onto w (n / 10) (digit (n mod 10) :: tail)
  end.

(** [str(value)] for a [datetime.time] and for a [datetime.date]. *)
Definition str_time (t : time) (offset : Text) : Text :=
  pad_onto 2 (hour t)
    (colon :: pad_onto 2 (minute t)
       (colon :: pad_onto 2 (second t)
          (if microsecond t =? 0 then offset
           else full_stop :: pad_onto 6 (microsecond t) offset))).

Definition str_date (d : date) : Text :=
  pad_onto 4 (year d)
    (hyphen :: pad_onto 2 (month d) (hyphen :: pad_onto 2 (day d) [])).

Definition zero_date : date := {| year := 1900; month := 1; day := 1 |}.

(** [_MSDate.bind_processor(dialect)(value)], which is also that of
    [_DateTimeBase]. *)
Definition date_bind_processor (value : Value) : Value :=
  match value with
  | Date d =>
    DateTime d {| hour := 0; minute := 0; second := 0; microsecond := 0 |} []
  | _ => value
  end.

(** [TIME.bind_processor(dialect)(value)]. *)
Definition time_bind_processor (value : Value) : Value :=
  match value with
  | DateTime _ t _ => DateTime zero_date t []
  | Time t offset => Str (str_time t offset)
  | _ => value
  end.

(** The offsets a [datetime.time] prints: none, or one with its
    sign. *)
Definition is_offset (s : Text) : bool :=
  match s with
  | [] => true
  | c :: _ => (c =? plus_sign)%N || (c =? hyphen)%N
  end.

(** The Arabic-Indic digits, U+0660 to U+0669: ten of the decimal
    digits beyond ASCII. *)
Definition arabic_indic (c : N) : option Z :=
  if ((1632 <=? c) && (c <=? 1641))%N then Some (Z.of_N c - 1632) else None.

Section Interpreter.

(** What depends on the interpreter.  The decimal digits beyond ASCII,
    each with its value: the characters of the Unicode category Nd,
    which [\d] matches in a [str] and [int] converts, by the tables of
    the interpreter (there are none for an expression that matches
    ASCII only).  And the longest text of digits that [int] converts,
    [sys.get_int_max_str_digits()], for an interpreter that has such a
    limit; a limit is never below 640. *)
Variable unicode_decimal : N -> option Z.
Variable int_max_str_digits : option nat.

(** *** Digits *)

(** The value of a decimal digit; those of ASCII are "0" to "9". *)
Definition decimal (c : N) : option Z :=
  if (c <? 128)%N
  then (if ((48 <=? c) && (c <=? 57))%N then Some (Z.of_N c - 48) else None)
  else unicode_decimal c.

Definition is_digit (c : N) : bool :=
  match decimal c with
  | Some _ => true
  | None => false
  end.

(** The longest run of digits at the start of a text, and the rest. *)
Fixpoint span_digits (s : Text) : Text * Text :=
  match s with
  | c :: rest =>
    if is_digit c
    then let (digits, tail) := span_digits rest in (c :: digits, tail)
    else ([], s)
  | [] => ([], [])
  end.

(** At most [n] digits at the start of a text. *)
Fixpoint take_digits (n : nat) (s : Text) : Text :=
  match n, s with
  | S n', c :: rest => if is_digit c then c :: take_digits n' rest else []
  | _, _ => []
  end.

(** The number a text of digits spells, in base ten. *)
Fixpoint digits_10 (acc : Z) (s : Text) : Z :=
  match s with
  | c :: rest =>
    digits_10 (acc * 10 + match decimal c with Some v => v | None => 0 end) rest
  | [] => acc
  end.

(** [int(x)] for a text of digits: [None] stands for the [ValueError]
    of a text longer than the limit. *)
Definition int (digits : Text) : option Z :=
  match int_max_str_digits with
  | Some limit =>
    if (Nat.max limit 640 <? List.length digits)%nat then None
    else Some (digits_10 0 digits)
  | None => Some (digits_10 0 digits)
  end.

(** [int(x or 0)] for a group of a match: a text of digits, the empty
    text, or [None]. *)
Definition int_or_0 (x : option Text) : option Z :=
  match x with
  | Some [] => Some 0
  | Some digits => int digits
  | None => Some 0
  end.

(** *** The two regular expressions, matched at the start of a text *)

(** [(\d+)] at the start of a text: the group, and the rest. *)
Definition some_digits (s : Text) : option (Text * Text) :=
  match span_digits s with
  | ([], _) => None
  | found => Some found
  end.

(** One given character at the start of a text: the rest. *)
Definition expect (c : N) (s : Text) : option Text :=
  match s with
  | x :: rest => if (x =? c)%N then Some rest else None
  | [] => None
  end.

(** [re.match(r"(\d+)-(\d+)-(\d+)", s)]: the three groups. *)
Definition match_date (s : Text) : option (Text * Text * Text) :=
  match some_digits s with
  | None => None
  | Some (g1, rest) =>
    match expect hyphen rest with
    | None => None
    | Some rest =>
      match some_digits rest with
      | None => None
      | Some (g2, rest) =>
        match expect hyphen rest with
        | None => None
        | Some rest =>
          match some_digits rest with
          | None => None
          | Some (g3, _) => Some (g1, g2, g3)
          end
        end
      end
    end
  end.

(** [re.match(r"(\d+):(\d+):(\d+)(?:\.(\d{0,6}))?", s)]: the four
    groups, the last one [None] when the seconds are not followed by a
    ".". *)
Definition match_time (s : Text)
  : option (Text * Text * Text * option Text) :=
  match some_digits s with
  | None => None
  | Some (g1, rest) =>
    match expect colon rest with
    | None => None
    | Some rest =>
      match some_digits rest with
      | None => None
      | Some (g2, rest) =>
        match expect colon rest with
        | None => None
        | Some rest =>
          match some_digits rest with
          | None => None
          | Some (g3, rest) =>
            match expect full_stop rest with
            | Some rest => Some (g1, g2, g3, Some (take_digits 6 rest))
            | None => Some (g1, g2, g3, None)
            end
          end
        end
      end
    end
  end.

(** *** The result processors *)

(** [_MSDate.result_processor(dialect, coltype)(value)]. *)
Definition date_result_processor (value : Value) : Outcome :=
  match value with
  | DateTime d _ _ => Returns (Date d)
  | Str s =>
    match match_date s with
    | None => ValueError
    | Some (g1, g2, g3) =>
      match int_or_0 (Some g1), int_or_0 (Some g2), int_or_0 (Some g3) with
      | Some y, Some m, Some d => datetime_date y m d
      | _, _, _ => ValueError
      end
    end
  | _ => Returns value
  end.

(** [TIME.result_processor(dialect, coltype)(value)]. *)
Definition time_result_processor (value : Value) : Outcome :=
  match value with
  | DateTime _ t _ => Returns (Time t [])
  | Str s =>
    match match_time s with
    | None => ValueError
    | Some (g1, g2, g3, g4) =>
      match int_or_0 (Some g1), int_or_0 (Some g2), int_or_0 (Some g3), int_or_0 g4 with
      | Some h, Some m, Some sec, Some us => datetime_time h m sec us
      | _, _, _, _ => ValueError
      end
    end
  | _ => Returns value
  end.

(** Whether a text starts with a digit. *)
Definition starts_with_digit (s : Text) : bool :=
  match s with
  | c :: _ => is_digit c
  | [] => false
  end.

Fixpoint all_digits (s : Text) : bool :=
  match s with
  | c :: rest => is_digit c && all_digits rest
  | [] => true
  end.

End Interpreter.

End DateTime.

(** ** Aliases of schema-qualified tables:
    [MSSQLCompiler._schema_aliased_table] *)

Module Aliasing.

(** A table, with its [schema] ([None] when it has none), and the
    anonymous alias that [table.alias()] creates: a new object at each
    call, told apart here by a serial number. *)
Record Table : Type := mkTable {
  schema : option string;
  name : string
}.

#[global] Instance Table_eq_dec : EqDecision Table.
Proof. solve_decision. Defined.

#[global] Instance Table_countable : Countable Table.
Proof.
  apply (inj_countable' (fun t => (schema t, name t))
           (fun p => {| schema := fst p; name := snd p |})).
  intros []. reflexivity.
Defined.

Record Alias : Type := mkAlias {
  element : Table;
  serial : nat
}.

(** The compiler: its dictionary [tablealiases], and the number of
    aliases created so far. *)
Record Compiler : Type := mkCompiler {
  tablealiases : gmap Table Alias;
  created : nat
}.

(** A compiler as [__init__] leaves it. *)
Definition new_compiler : Compiler := {| tablealiases := ∅; created := 0 |}.

Definition _schema_aliased_table (table : Table) (self : Compiler)
  : option Alias * Compiler :=
  match schema table with
  | Some _ =>
    match tablealiases self !! table with
    | Some alias => (Some alias, self)
    | None =>
      let alias := {| element := table; serial := created self |} in
      (Some alias,
       {| tablealiases := <[table := alias]> (tablealiases self);
          created := S (created self) |})
    end
  | None => (None, self)
  end.

(** Every alias kept is an alias of the table it is kept for. *)
Definition well_formed (self : Compiler) : Prop :=
  forall table alias,
    tablealiases self !! table = Some alias -> element alias = table.

(** The compiler after the tables of a statement have been looked up,
    in order. *)
Definition after (tables : list Table) (self : Compiler) : Compiler :=
  fold_left (fun self table => snd (_schema_aliased_table table self)) tables self.

End Aliasing.

(** * Properties *)

(** ** Strings *)

Module StrFacts.

Lemma append_cons (a : ascii) (s t : string) : String a s ++ t = String a (s ++ t).
Proof. reflexivity. Qed.

Lemma append_nil_l (s : string) : "" ++ s = s.
Proof. reflexivity. Qed.

Lemma append_nil_r (s : string) : s ++ "" = s.
Proof. induction s as [|a s IH]; [reflexivity|]. rewrite append_cons, IH. reflexivity. Qed.

Lemma append_assoc (s t u : string) : (s ++ t) ++ u = s ++ (t ++ u).
Proof.
  induction s as [|a s IH]; [reflexivity|].
  rewrite !append_cons, IH. reflexivity.
Qed.

Lemma prefix_append (a b : string) : String.prefix a (a ++ b) = true.
Proof.
  induction a as [|ch a IH].
  - destruct b; reflexivity.
  - rewrite append_cons. simpl. destruct (Ascii.ascii_dec ch ch); [exact IH | congruence].
Qed.

End StrFacts.

(** ** Large types and the version probe *)

Module TypeFacts.
Import Py TypeCompiler Dialect StrFacts.

Lemma tuple_ge_major (major : Z) (rest : list Z) (v : Z) :
  tuple_ge (major :: rest) [v] = (v <=? major).
Proof.
  unfold tuple_ge; simpl.
  destruct (Z.ltb_spec major v), (Z.leb_spec v major); try lia; try reflexivity.
  destruct (Z.ltb_spec v major); destruct rest; reflexivity.
Qed.

Lemma or_max_truthy (l : option Length) : truthy_len (or_max l) = true.
Proof. unfold or_max. destruct (truthy_len l) eqn:E; [exact E | reflexivity]. Qed.

(** What [_extend] appends after the type name when a truthy length is
    passed in. *)
Lemma _extend_sized (spec : string) (t : TypeEngine) (l : Length) :
  truthy_len (Some l) = true ->
  exists tail, _extend spec t (Some l) = spec ++ "(" ++ tail.
Proof.
  intros Hl. unfold _extend. rewrite Hl. cbv zeta. rewrite Hl.
  destruct (collation t) as [c|]; [destruct (truthy_str c)|].
  - exists (str_of_len l ++ ")" ++ " " ++ "COLLATE " ++ c).
    rewrite !append_assoc. reflexivity.
  - exists (str_of_len l ++ ")"). reflexivity.
  - exists (str_of_len l ++ ")"). reflexivity.
Qed.

Lemma max_variant_prefix (spec : string) (t : TypeEngine) :
  String.prefix (spec ++ "(") (_extend spec t (or_max (type_length t))) = true.
Proof.
  pose proof (or_max_truthy (type_length t)) as Ht.
  destruct (or_max (type_length t)) as [l|] eqn:E; [|discriminate].
  destruct (_extend_sized spec t l Ht) as [tail ->].
  rewrite <- append_assoc. apply prefix_append.
Qed.

Lemma legacy_prefix (spec : string) (t : TypeEngine) :
  String.prefix spec (_extend spec t None) = true.
Proof.
  unfold _extend. simpl truthy_len. cbv iota.
  destruct (type_length t) as [l|];
    [destruct (truthy_len (Some l))|];
    (destruct (collation t) as [c|]; [destruct (truthy_str c)|]);
    rewrite ?append_assoc; try apply prefix_append;
    rewrite <- (append_nil_r spec) at 2; apply prefix_append.
Qed.

(** C9. For every dialect, whatever its server version (the dialect
    as created, whose version is the empty tuple, included): with the flag
    [deprecate_large_types] true, a unicode text type renders in NVARCHAR
    syntax and a large binary type in VARBINARY syntax, the length being
    [max] unless the type gives one: [NVARCHAR(max)] and [VARBINARY(max)];
    with the flag false or unset they render as NTEXT and IMAGE.  At
    version setup, for a server version with a major number, a flag that
    is still unset becomes whether that number is at least 11 (SQL Server
    2012); a flag that was set is kept. *)
Theorem large_types_follow_flag (d : MSDialect) (t : TypeEngine) :
  (deprecate_large_types d = Some true ->
     String.prefix "NVARCHAR(" (visit_unicode_text d t) = true
     /\ String.prefix "VARBINARY(" (visit_large_binary d t) = true
     /\ (length t = None -> collation t = None ->
         visit_unicode_text d t = "NVARCHAR(max)"
         /\ visit_large_binary d t = "VARBINARY(max)"))
  /\ (deprecate_large_types d <> Some true ->
      String.prefix "NTEXT" (visit_unicode_text d t) = true
      /\ visit_large_binary d t = "IMAGE"
      /\ (length t = None -> collation t = None ->
          visit_unicode_text d t = "NTEXT"))
  /\ forall major rest,
       server_version_info d = major :: rest ->
       exists d' warnings,
         _setup_version_attributes d = Return (d', warnings)
         /\ deprecate_large_types d' =
            match deprecate_large_types d with
            | None => Some (11 <=? major)
            | Some b => Some b
            end.
Proof.
  split; [|split].
  - intros Hf. unfold visit_unicode_text, visit_large_binary. rewrite Hf. simpl.
    split; [apply (max_variant_prefix "NVARCHAR")|].
    split; [apply (max_variant_prefix "VARBINARY")|].
    intros Hl Hc. unfold visit_NVARCHAR, visit_VARBINARY, _extend, type_length.
    rewrite Hl, Hc. split; reflexivity.
  - intros Hf. unfold visit_unicode_text, visit_large_binary.
    assert (truthy_flag (deprecate_large_types d) = false) as ->.
    { destruct (deprecate_large_types d) as [[|]|]; try reflexivity; congruence. }
    split; [apply (legacy_prefix "NTEXT")|].
    split; [reflexivity|].
    intros Hl Hc. unfold visit_NTEXT, _extend, type_length.
    rewrite Hl, Hc. reflexivity.
  - intros major rest Hv. unfold _setup_version_attributes. rewrite Hv.
    eexists _, _. split; [reflexivity|]. simpl.
    destruct (deprecate_large_types d); [reflexivity|].
    unfold MS_2012_VERSION. rewrite tuple_ge_major. reflexivity.
Qed.

(** The dialect as created (no version yet, the flag unset) renders the
    legacy forms; once set up for SQL Server 2012 it renders the [max]
    forms. *)
Lemma large_types_follow_flag_witness :
  let d := mkDialect [11; 0; 2100] None false true true false "dbo" (Str "dbo") true true in
  let t := {| length := None; collation := None |} in
  server_version_info default_dialect = []
  /\ deprecate_large_types default_dialect = None
  /\ visit_unicode_text default_dialect t = "NTEXT"
  /\ visit_large_binary default_dialect t = "IMAGE"
  /\ server_version_info d = 11 :: [0; 2100]
  /\ visit_unicode_text d t = "NTEXT"
  /\ visit_large_binary d t = "IMAGE"
  /\ exists d' warnings,
       _setup_version_attributes d = Return (d', warnings)
       /\ deprecate_large_types d' = Some true
       /\ visit_unicode_text d' t = "NVARCHAR(max)"
       /\ visit_large_binary d' t = "VARBINARY(max)".
Proof.
  intros d t.
  destruct (large_types_follow_flag default_dialect t) as (_ & Hcreated & _).
  destruct (Hcreated ltac:(discriminate)) as (_ & Himage0 & Hntext0).
  destruct (large_types_follow_flag d t) as (_ & Hlegacy & Hsetup).
  destruct (Hsetup 11 [0; 2100] eq_refl) as (d' & warnings & Hrun & Hflag).
  destruct (Hlegacy ltac:(discriminate)) as (_ & Himage & Hntext).
  split; [reflexivity|]. split; [reflexivity|].
  split; [exact (Hntext0 eq_refl eq_refl)|]. split; [exact Himage0|].
  split; [reflexivity|]. split; [exact (Hntext eq_refl eq_refl)|].
  split; [exact Himage|].
  exists d', warnings. split; [exact Hrun|]. split; [exact Hflag|].
  destruct (large_types_follow_flag d' t) as (Hmax & _).
  destruct (Hmax Hflag) as (_ & _ & Hboth).
  exact (Hboth eq_refl eq_refl).
Defined.

End TypeFacts.

(** ** Schema qualifiers *)

Module SchemaFacts.
Import Py Schema SchemaSpec StrFacts.

Lemma eqb_single (a b : ascii) :
  String.eqb (String a EmptyString) (String b EmptyString) = Ascii.eqb a b.
Proof. simpl. destruct (Ascii.eqb a b); reflexivity. Qed.

Lemma add_text_nil (st : LoopState) : add_text st "" = st.
Proof. destruct st. unfold add_text. simpl. rewrite append_nil_r. reflexivity. Qed.

Lemma add_text_add (st : LoopState) (t u : string) :
  add_text (add_text st t) u = add_text st (t ++ u).
Proof. unfold add_text. simpl. rewrite append_assoc. reflexivity. Qed.

(** A token without delimiters is appended to the symbol. *)
Lemma loop_body_text (st : LoopState) (t : string) :
  no_delimiter t = true -> loop_body st t = add_text st t.
Proof.
  destruct t as [|ch t]; intros Hn.
  - symmetry. apply add_text_nil.
  - simpl in Hn. apply andb_prop in Hn as [Hc _].
    unfold is_delimiter in Hc. rewrite !negb_orb in Hc.
    apply andb_prop in Hc as [Hc Hdot]. apply andb_prop in Hc as [Hopen Hclose].
    apply negb_true_iff in Hopen, Hclose, Hdot.
    unfold loop_body. simpl. rewrite Hopen, Hclose, Hdot. simpl.
    rewrite andb_false_r. reflexivity.
Qed.

Lemma no_delimiter_snoc (t : string) (ch : ascii) :
  no_delimiter t = true -> is_delimiter ch = false ->
  no_delimiter (t ++ String ch "") = true.
Proof.
  intros Ht Hc. induction t as [|a t IH].
  - simpl. rewrite Hc. reflexivity.
  - rewrite append_cons. simpl in *. apply andb_prop in Ht as [Ha Ht].
    rewrite Ha, (IH Ht). reflexivity.
Qed.

(** The loop over the tokens of [re.split] reads the string character
    by character. *)
Lemma loop_is_scan (s cur : string) (st : LoopState) :
  no_delimiter cur = true ->
  fold_left loop_body (re_split s cur) st = scan s (add_text st cur).
Proof.
  revert cur st. induction s as [|ch s IH]; intros cur st Hcur.
  - simpl. apply loop_body_text, Hcur.
  - simpl. destruct (is_delimiter ch) eqn:Hd.
    + simpl. rewrite (IH "" _ eq_refl), add_text_nil, (loop_body_text st cur Hcur).
      reflexivity.
    + rewrite (IH _ st (no_delimiter_snoc cur ch Hcur Hd)).
      rewrite (loop_body_text (add_text st cur) (String ch "")).
      * rewrite add_text_add. reflexivity.
      * simpl. rewrite Hd. reflexivity.
Qed.

Lemma split_schema_scan (s : string) : split_schema s = finish (scan s loop_start).
Proof.
  unfold split_schema. rewrite (loop_is_scan s "" loop_start eq_refl), add_text_nil.
  reflexivity.
Qed.

(** *** One character of the loop *)

Lemma loop_body_open (st : LoopState) :
  loop_body st "[" =
  {| push := push st; symbol := symbol st; bracket := true; has_brackets := true |}.
Proof. reflexivity. Qed.

Lemma loop_body_close (st : LoopState) :
  loop_body st "]" =
  {| push := push st; symbol := symbol st; bracket := false;
     has_brackets := has_brackets st |}.
Proof. reflexivity. Qed.

Lemma loop_body_free_dot (st : LoopState) :
  bracket st = false ->
  loop_body st "." =
  {| push := app (push st)
               [if has_brackets st then "[" ++ symbol st ++ "]" else symbol st];
     symbol := ""; bracket := false; has_brackets := false |}.
Proof. intros Hb. unfold loop_body. simpl. rewrite Hb. reflexivity. Qed.

Lemma loop_body_bracketed_dot (st : LoopState) :
  bracket st = true -> loop_body st "." = add_text st ".".
Proof. intros Hb. unfold loop_body. simpl. rewrite Hb. simpl. rewrite <- Hb. reflexivity. Qed.

Lemma loop_body_other (st : LoopState) (ch : ascii) :
  is_delimiter ch = false -> loop_body st (String ch "") = add_text st (String ch "").
Proof. intros Hd. apply loop_body_text. simpl. rewrite Hd. reflexivity. Qed.

(** The four kinds of character. *)
Lemma ascii_cases (ch : ascii) :
  ch = "["%char \/ ch = "]"%char \/ ch = "."%char \/ is_delimiter ch = false.
Proof.
  unfold is_delimiter.
  destruct (Ascii.eqb_spec ch "["); [auto|].
  destruct (Ascii.eqb_spec ch "]"); [auto|].
  destruct (Ascii.eqb_spec ch "."); auto.
Qed.

Lemma not_delimiter (ch : ascii) :
  is_delimiter ch = false ->
  Ascii.eqb ch "[" = false /\ Ascii.eqb ch "]" = false /\ Ascii.eqb ch "." = false.
Proof.
  unfold is_delimiter. intros H.
  apply orb_false_elim in H as [H Hdot]. apply orb_false_elim in H as [Ho Hc]. auto.
Qed.

Lemma scan_app (a b : string) (st : LoopState) :
  scan (a ++ b) st = scan b (scan a st).
Proof.
  revert st. induction a as [|ch a IH]; intros st; [reflexivity|].
  rewrite append_cons. simpl. apply IH.
Qed.

Lemma bracket_scan (s : string) (st : LoopState) :
  bracket (scan s st) = bracket_after (bracket st) s.
Proof.
  revert st. induction s as [|ch s IH]; intros st; [reflexivity|].
  simpl. rewrite IH. f_equal.
  destruct (ascii_cases ch) as [->|[->|[->|Hd]]].
  - reflexivity.
  - reflexivity.
  - destruct (bracket st) eqn:Hb.
    + rewrite (loop_body_bracketed_dot st Hb). simpl. exact Hb.
    + rewrite (loop_body_free_dot st Hb). reflexivity.
  - rewrite (loop_body_other st ch Hd). unfold next_bracket.
    destruct (not_delimiter ch Hd) as (-> & -> & _). reflexivity.
Qed.

(** Without a dot outside brackets nothing is pushed: the characters
    other than brackets go to the symbol. *)
Lemma scan_no_free_dot (s : string) (st : LoopState) :
  has_free_dot (bracket st) s = false ->
  scan s st =
  {| push := push st; symbol := symbol st ++ without_brackets s;
     bracket := bracket_after (bracket st) s;
     has_brackets := has_brackets st || has_open s |}.
Proof.
  revert st. induction s as [|ch s IH]; intros st Hf.
  - simpl. rewrite append_nil_r, orb_false_r. destruct st; reflexivity.
  - simpl in Hf. apply orb_false_elim in Hf as [Hdot Hf]. simpl scan.
    destruct (ascii_cases ch) as [->|[->|[->|Hd]]].
    + rewrite loop_body_open, IH by exact Hf. simpl. rewrite orb_true_r. reflexivity.
    + rewrite loop_body_close, IH by exact Hf. reflexivity.
    + simpl in Hdot. apply negb_false_iff in Hdot.
      rewrite (loop_body_bracketed_dot st Hdot).
      rewrite IH by (simpl; exact Hf). simpl. rewrite append_assoc. reflexivity.
    + rewrite (loop_body_other st ch Hd).
      assert (next_bracket (bracket st) ch = bracket st) as Hn.
      { unfold next_bracket. destruct (not_delimiter ch Hd) as (-> & -> & _). reflexivity. }
      rewrite Hn in Hf. rewrite IH by (simpl; exact Hf). simpl.
      destruct (not_delimiter ch Hd) as (-> & -> & _). simpl.
      rewrite append_assoc, Hn. reflexivity.
Qed.

(** *** The split at the last dot outside brackets *)

Lemma last_free_dot_none (b : bool) (s : string) :
  last_free_dot b s = None -> has_free_dot b s = false.
Proof.
  revert b. induction s as [|ch s IH]; intros b H; [reflexivity|].
  simpl in *. destruct (last_free_dot (next_bracket b ch) s) as [[pre post]|] eqn:E;
    [discriminate|].
  rewrite (IH _ E). destruct (Ascii.eqb ch "." && negb b); [discriminate|reflexivity].
Qed.

Lemma last_free_dot_split (b : bool) (s pre post : string) :
  last_free_dot b s = Some (pre, post) ->
  s = pre ++ "." ++ post
  /\ bracket_after b pre = false
  /\ has_free_dot false post = false.
Proof.
  revert b pre post. induction s as [|ch s IH]; intros b pre post H; [discriminate|].
  simpl in H. destruct (last_free_dot (next_bracket b ch) s) as [[pre' post']|] eqn:E.
  - injection H as <- <-. destruct (IH _ _ _ E) as (-> & Hb & Hf).
    rewrite append_cons. simpl. auto.
  - destruct (Ascii.eqb_spec ch "."); [|discriminate].
    destruct b; [discriminate|]. simpl in H. injection H as <- <-. subst ch.
    simpl in E. split; [reflexivity|]. split; [reflexivity|].
    apply last_free_dot_none, E.
Qed.

(** *** Brackets in a string *)

Lemma mentions_app (c : ascii) (a b : string) :
  mentions c (a ++ b) = mentions c a || mentions c b.
Proof.
  induction a as [|ch a IH]; [reflexivity|].
  rewrite append_cons. simpl. rewrite IH, orb_assoc. reflexivity.
Qed.

Lemma without_brackets_clean (s : string) :
  mentions "[" (without_brackets s) = false /\ mentions "]" (without_brackets s) = false.
Proof.
  induction s as [|ch s [IHo IHc]]; [split; reflexivity|].
  simpl. destruct (Ascii.eqb ch "[") eqn:Eo; [split; assumption|].
  destruct (Ascii.eqb ch "]") eqn:Ec; [split; assumption|].
  simpl. rewrite Eo, Ec, IHo, IHc. split; reflexivity.
Qed.

Lemma no_internal_brackets (s : string) :
  mentions "]" s = false -> match_internal_brackets false s = false.
Proof.
  induction s as [|ch s IH]; intros H; [reflexivity|].
  simpl in *. apply orb_false_elim in H as [Hc Hs].
  destruct (Ascii.eqb ch newline); [reflexivity|].
  rewrite Hc. simpl. apply IH, Hs.
Qed.

Lemma lstrip_id (c : ascii) (s : string) : mentions c s = false -> lstrip c s = s.
Proof.
  destruct s as [|ch s]; intros H; [reflexivity|].
  simpl in *. apply orb_false_elim in H as [-> _]. reflexivity.
Qed.

Lemma rstrip_id (c : ascii) (s : string) : mentions c s = false -> rstrip c s = s.
Proof.
  induction s as [|ch s IH]; intros H; [reflexivity|].
  simpl in *. apply orb_false_elim in H as [Hc Hs].
  rewrite (IH Hs), Hc. destruct s; reflexivity.
Qed.

Lemma rstrip_snoc (c : ascii) (s : string) :
  mentions c s = false -> rstrip c (s ++ String c "") = s.
Proof.
  induction s as [|ch s IH]; intros H.
  - simpl. rewrite Ascii.eqb_refl. reflexivity.
  - simpl in H. apply orb_false_elim in H as [Hc Hs].
    rewrite append_cons. simpl. rewrite (IH Hs), Hc. destruct s; reflexivity.
Qed.

Lemma drop_last_snoc (s : string) (c : ascii) : drop_last (s ++ String c "") = s.
Proof.
  induction s as [|ch s IH]; [reflexivity|].
  rewrite append_cons. simpl. rewrite IH.
  destruct s; reflexivity.
Qed.

Lemma mentions_drop_last (c : ascii) (s : string) :
  mentions c s = false -> mentions c (drop_last s) = false.
Proof.
  induction s as [|ch s IH]; intros H; [reflexivity|].
  simpl in H. apply orb_false_elim in H as [Hc Hs].
  destruct s as [|ch' s]; [reflexivity|].
  change (drop_last (String ch (String ch' s)))
    with (String ch (drop_last (String ch' s))).
  change (Ascii.eqb ch c || mentions c (drop_last (String ch' s)) = false).
  rewrite Hc, (IH Hs). reflexivity.
Qed.

Lemma mentions_slice (c : ascii) (s : string) :
  mentions c s = false -> mentions c (slice_1_m1 s) = false.
Proof.
  destruct s as [|ch s]; intros H; [reflexivity|].
  simpl in H. apply orb_false_elim in H as [_ Hs].
  apply mentions_drop_last, Hs.
Qed.

(** A name without brackets is kept as it is. *)
Lemma dbname_plain (w : string) :
  mentions "[" w = false -> mentions "]" w = false -> dbname_of w = Str w.
Proof.
  intros Ho Hc. unfold dbname_of.
  rewrite (no_internal_brackets _ (mentions_slice _ _ Hc)).
  rewrite (lstrip_id _ _ Ho), (rstrip_id _ _ Hc). reflexivity.
Qed.

(** A single bracketed name loses its brackets. *)
Lemma dbname_bracketed (w : string) :
  mentions "[" w = false -> mentions "]" w = false ->
  dbname_of ("[" ++ w ++ "]") = Str w.
Proof.
  intros Ho Hc. unfold dbname_of.
  assert (slice_1_m1 ("[" ++ w ++ "]") = w) as ->.
  { rewrite append_cons, append_nil_l. simpl. apply drop_last_snoc. }
  rewrite (no_internal_brackets _ Hc).
  rewrite append_cons, append_nil_l. simpl lstrip.
  rewrite lstrip_id by (rewrite mentions_app, Ho; reflexivity).
  rewrite (rstrip_snoc "]" w Hc). reflexivity.
Qed.

(** *** After the loop *)

(** With a symbol left and something pushed, the symbol is the owner and
    the pushed tokens, joined, give the database. *)
Lemma finish_two (st : LoopState) (tokens : list string) (token : string) :
  push st = app tokens [token] -> symbol st <> "" ->
  finish st =
  (Some (dbname_of (String.concat "." (app tokens [token]))), Some (Str (symbol st))).
Proof.
  intros Hp Hs. unfold finish. rewrite Hp.
  destruct (symbol st) as [|ch sym] eqn:E; [congruence|].
  simpl truthy_str. cbv iota.
  assert ((1 <? List.length (app (app tokens [token]) [String ch sym]))%nat = true) as ->.
  { apply Nat.ltb_lt. rewrite !List.length_app. simpl. lia. }
  rewrite List.removelast_last, List.last_last. reflexivity.
Qed.

Lemma concat_snoc_text (l : list string) (x t : string) :
  String.concat "." (app l [x ++ t]) = String.concat "." (app l [x]) ++ t.
Proof.
  induction l as [|y l IH]; [reflexivity|].
  destruct l as [|z l].
  - simpl. rewrite !append_assoc. reflexivity.
  - change (String.concat "." (app (y :: z :: l) [x ++ t]))
      with (y ++ "." ++ String.concat "." (app (z :: l) [x ++ t])).
    change (String.concat "." (app (y :: z :: l) [x]))
      with (y ++ "." ++ String.concat "." (app (z :: l) [x])).
    rewrite IH, !append_assoc. reflexivity.
Qed.

Lemma concat_snoc_token (l : list string) (x : string) :
  String.concat "." (app (app l [x]) [""]) = String.concat "." (app l [x]) ++ ".".
Proof.
  induction l as [|y l IH].
  - simpl. rewrite append_nil_r. reflexivity.
  - destruct l as [|z l].
    + simpl. rewrite append_nil_r, !append_assoc. reflexivity.
    + change (String.concat "." (app (app (y :: z :: l) [x]) [""]))
        with (y ++ "." ++ String.concat "." (app (app (z :: l) [x]) [""])).
      change (String.concat "." (app (y :: z :: l) [x]))
        with (y ++ "." ++ String.concat "." (app (z :: l) [x])).
      rewrite IH, !append_assoc. reflexivity.
Qed.

(** Without any "[", every dot is outside brackets and the loop only
    drops the "]": joined again, the tokens spell the string. *)
Lemma scan_no_open (s : string) (st : LoopState) :
  has_open s = false -> bracket st = false -> has_brackets st = false ->
  bracket (scan s st) = false
  /\ has_brackets (scan s st) = false
  /\ joined (scan s st) = joined st ++ without_brackets s.
Proof.
  revert st. induction s as [|ch s IH]; intros st Ho Hb Hh.
  - simpl. rewrite append_nil_r. auto.
  - simpl in Ho. apply orb_false_elim in Ho as [Hch Ho]. simpl scan.
    destruct (ascii_cases ch) as [->|[->|[->|Hd]]].
    + discriminate.
    + rewrite loop_body_close.
      destruct (IH {| push := push st; symbol := symbol st; bracket := false;
                      has_brackets := has_brackets st |} Ho eq_refl Hh)
        as (H1 & H2 & H3).
      rewrite H1, H2, H3. auto.
    + rewrite (loop_body_free_dot st Hb), Hh.
      destruct (IH {| push := app (push st) [symbol st]; symbol := "";
                      bracket := false; has_brackets := false |} Ho eq_refl eq_refl)
        as (H1 & H2 & H3).
      rewrite H1, H2, H3. split; [reflexivity|]. split; [reflexivity|].
      unfold joined. simpl push. simpl symbol.
      rewrite concat_snoc_token. simpl without_brackets.
      rewrite append_assoc. reflexivity.
    + rewrite (loop_body_other st ch Hd).
      destruct (IH (add_text st (String ch "")) Ho Hb Hh) as (H1 & H2 & H3).
      rewrite H1, H2, H3. split; [reflexivity|]. split; [reflexivity|].
      unfold joined. simpl push. simpl symbol.
      rewrite concat_snoc_text. simpl without_brackets.
      destruct (not_delimiter ch Hd) as (-> & -> & _). simpl.
      rewrite append_assoc. reflexivity.
Qed.

(** *** The split performed by [split_schema] *)

Lemma without_brackets_app (a b : string) :
  without_brackets (a ++ b) = without_brackets a ++ without_brackets b.
Proof.
  induction a as [|ch a IH]; [reflexivity|].
  rewrite append_cons. simpl.
  destruct (Ascii.eqb ch "[" || Ascii.eqb ch "]"); [exact IH|].
  rewrite append_cons, IH. reflexivity.
Qed.

Lemma has_open_app (a b : string) : has_open (a ++ b) = has_open a || has_open b.
Proof.
  induction a as [|ch a IH]; [reflexivity|].
  rewrite append_cons. simpl. rewrite IH, orb_assoc. reflexivity.
Qed.

(** The loop pushes the pieces between the dots outside brackets: what
    it has pushed after [s], with the token it would push at a dot then,
    is what it had pushed before, with the pieces of [s]. *)
Lemma scan_segments (s cur : string) (st : LoopState) :
  reading st cur ->
  app (push (scan s st))
      [if has_brackets (scan s st)
       then "[" ++ symbol (scan s st) ++ "]" else symbol (scan s st)]
  = app (push st) (map piece (segments (bracket st) cur s)).
Proof.
  revert cur st. induction s as [|ch s IH]; intros cur st [Hsym Hhas].
  - simpl. unfold piece. rewrite Hsym, Hhas. reflexivity.
  - simpl scan. simpl segments.
    destruct (ascii_cases ch) as [->|[->|[->|Hd]]].
    + rewrite loop_body_open. simpl.
      rewrite (IH (cur ++ "[")); [reflexivity|].
      split; simpl.
      * rewrite without_brackets_app, Hsym. simpl. rewrite append_nil_r. reflexivity.
      * rewrite has_open_app. simpl. rewrite orb_true_r. reflexivity.
    + rewrite loop_body_close. simpl.
      rewrite (IH (cur ++ "]")); [reflexivity|].
      split; simpl.
      * rewrite without_brackets_app, Hsym. simpl. rewrite append_nil_r. reflexivity.
      * rewrite has_open_app, Hhas. simpl. rewrite orb_false_r. reflexivity.
    + destruct (bracket st) eqn:Hb.
      * rewrite (loop_body_bracketed_dot st Hb). simpl.
        rewrite (IH (cur ++ ".")); [simpl; rewrite Hb; reflexivity|].
        split; simpl.
        -- rewrite without_brackets_app, Hsym. reflexivity.
        -- rewrite has_open_app, Hhas. simpl. rewrite orb_false_r. reflexivity.
      * rewrite (loop_body_free_dot st Hb). simpl.
        rewrite (IH ""); [|split; reflexivity].
        simpl. rewrite <- List.app_assoc. unfold piece at 2.
        rewrite Hsym, Hhas. reflexivity.
    + rewrite (loop_body_other st ch Hd).
      destruct (not_delimiter ch Hd) as (Ho & Hc & Hdot).
      rewrite Hdot. simpl.
      assert (next_bracket (bracket st) ch = bracket st) as ->.
      { unfold next_bracket. rewrite Ho, Hc. reflexivity. }
      rewrite (IH (cur ++ String ch "")); [reflexivity|].
      split; simpl.
      * rewrite without_brackets_app, Hsym. simpl. rewrite Ho, Hc. reflexivity.
      * rewrite has_open_app, Hhas. simpl. rewrite Ho, orb_false_r. reflexivity.
Qed.

(** The tokens pushed once the text before the last dot outside
    brackets, and that dot, have been read. *)
Lemma pushed_before_last_dot (pre : string) :
  app (push (scan pre loop_start))
      [if has_brackets (scan pre loop_start)
       then "[" ++ symbol (scan pre loop_start) ++ "]"
       else symbol (scan pre loop_start)]
  = map piece (segments false "" pre).
Proof. apply (scan_segments pre "" loop_start). split; reflexivity. Qed.

(** The database of a text with at most one piece, or without a "[". *)
Lemma database_of_simple_text (pre : string) :
  has_free_dot false pre = false \/ has_open pre = false ->
  dbname_of (database_text pre) = Str (without_brackets pre).
Proof.
  unfold database_text. rewrite <- pushed_before_last_dot.
  destruct (without_brackets_clean pre) as [Ho Hc].
  intros [Hnodot | Hnoopen].
  - rewrite (scan_no_free_dot pre loop_start Hnodot). simpl.
    destruct (has_open pre).
    + apply dbname_bracketed; assumption.
    + apply dbname_plain; assumption.
  - destruct (scan_no_open pre loop_start Hnoopen eq_refl eq_refl) as (_ & Hh & Hj).
    rewrite Hh. fold (joined (scan pre loop_start)). rewrite Hj.
    apply dbname_plain; assumption.
Qed.

Lemma split_at_last_free_dot (schema pre post : string) :
  last_free_dot false schema = Some (pre, post) ->
  without_brackets post <> "" ->
  split_schema schema
  = (Some (dbname_of (database_text pre)), Some (Str (without_brackets post))).
Proof.
  intros Hsplit Hpost.
  destruct (last_free_dot_split _ _ _ _ Hsplit) as (-> & Hpre & Hfree).
  rewrite split_schema_scan, scan_app.
  change (scan ("." ++ post) (scan pre loop_start))
    with (scan post (loop_body (scan pre loop_start) ".")).
  pose proof (bracket_scan pre loop_start) as Hb. simpl in Hb. rewrite Hpre in Hb.
  rewrite (loop_body_free_dot _ Hb).
  rewrite scan_no_free_dot by exact Hfree. simpl push. simpl symbol.
  set (tok := if has_brackets (scan pre loop_start)
              then "[" ++ symbol (scan pre loop_start) ++ "]"
              else symbol (scan pre loop_start)).
  rewrite (finish_two _ (push (scan pre loop_start)) tok) by (try reflexivity; exact Hpost).
  subst tok. rewrite pushed_before_last_dot. reflexivity.
Qed.

(** *** The memo *)

Lemma empty_cache_sound (n : nat) : cache_sound (empty_cache n).
Proof. intros k v []. Qed.

Lemma getitem_sound (k : string) (memo memo' : LRUCache) (v : Elements) :
  cache_sound memo -> getitem k memo = Some (v, memo') ->
  v = split_schema k /\ cache_sound memo'.
Proof.
  intros Hs. unfold getitem.
  destruct (find (key_is k) (entries memo)) as [[k' v']|] eqn:E; [|discriminate].
  intros H. injection H as <- <-.
  apply List.find_some in E as [Hin Hk]. unfold key_is in Hk. simpl in Hk.
  apply String.eqb_eq in Hk. subst k'.
  split; [apply Hs, Hin|].
  intros k2 v2 [H|H]; simpl in H.
  - injection H as <- <-. apply Hs, Hin.
  - apply List.filter_In in H as [H _]. apply Hs, H.
Qed.

Lemma In_firstn {A} (n : nat) (l : list A) (x : A) : In x (firstn n l) -> In x l.
Proof.
  revert l. induction n as [|n IH]; intros [|y l] H; simpl in *; try contradiction.
  destruct H as [H|H]; [left; exact H | right; apply IH, H].
Qed.

Lemma setitem_sound (k : string) (memo : LRUCache) :
  cache_sound memo -> cache_sound (setitem k (split_schema k) memo).
Proof.
  intros Hs k2 v2 H. unfold setitem in H. simpl in H.
  apply In_firstn in H. destruct H as [H|H].
  - injection H as <- <-. reflexivity.
  - apply List.filter_In in H as [H _]. apply Hs, H.
Qed.

(** A name that is not marked as quoted is resolved as [split_schema]
    resolves its text, whatever the memo holds, and the memo stays
    sound. *)
Lemma schema_elements_split (schema : PyStr) (memo : LRUCache) :
  cache_sound memo ->
  (forall s, schema <> quoted_name s (Some true)) ->
  fst (_schema_elements schema memo) = split_schema (text schema)
  /\ cache_sound (snd (_schema_elements schema memo)).
Proof.
  intros Hs Hq. unfold _schema_elements.
  assert (forall A (x y : A),
             match schema with
             | quoted_name _ (Some true) => x
             | _ => y
             end = y) as Hm.
  { intros A x y. destruct schema as [s|s [[|]|]]; try reflexivity.
    exfalso. apply (Hq s). reflexivity. }
  rewrite Hm.
  destruct (getitem (text schema) memo) as [[v memo']|] eqn:E.
  - apply (getitem_sound _ _ _ _ Hs E).
  - simpl. split; [reflexivity|]. apply setitem_sound, Hs.
Qed.

(** Every call leaves the memo sound, so the memo is sound after any
    run of calls that starts with an empty memo. *)
Lemma schema_elements_keeps_sound (schema : PyStr) (memo : LRUCache) :
  cache_sound memo -> cache_sound (snd (_schema_elements schema memo)).
Proof.
  intros Hs. destruct schema as [s|s [[|]|]];
    try (apply schema_elements_split; [exact Hs | discriminate]).
  exact Hs.
Qed.

Lemma memo_stays_sound (calls : list PyStr) (memo : LRUCache) :
  cache_sound memo ->
  cache_sound (fold_left (fun memo schema => snd (_schema_elements schema memo)) calls memo).
Proof.
  revert memo. induction calls as [|schema calls IH]; intros memo Hs; [exact Hs|].
  simpl. apply IH, schema_elements_keeps_sound, Hs.
Qed.

(** *** The claims *)

(** C2 (amended). A schema string with a "." outside brackets and a
    name left after the last such "." (once its brackets are dropped)
    resolves to that name, without its brackets, as owner, and to a
    database made from the text before that ".": the pieces of that text
    between its dots outside brackets, each without its bracket
    characters and within one pair of brackets when it had a "[", are
    joined by dots; the joined text is kept, as a name that is not to be
    quoted, when it has a "]" followed by a "[" between its first and last
    characters, and loses its leading "[" and trailing "]" otherwise.  So
    the database is the text before the dot without its brackets when
    that text has no further "." outside brackets or no "[", and
    "[foo].[bar].[bat]" resolves to the database "[foo].[bar]" and the
    owner "bat".  In particular "[MyDataBase.Period].[MyOwner.Dot]"
    resolves to the database "MyDataBase.Period" and the owner
    "MyOwner.Dot".  This holds whatever sound memo the call finds. *)
Theorem schema_split_at_last_free_dot (schema pre post : string) (memo : LRUCache) :
  cache_sound memo ->
  last_free_dot false schema = Some (pre, post) ->
  without_brackets post <> "" ->
  fst (_schema_elements (Str schema) memo)
  = (Some (dbname_of (database_text pre)), Some (Str (without_brackets post)))
  /\ (has_free_dot false pre = false \/ has_open pre = false ->
      dbname_of (database_text pre) = Str (without_brackets pre))
  /\ fst (_schema_elements (Str "[foo].[bar].[bat]") memo)
     = (Some (quoted_name "[foo].[bar]" (Some false)), Some (Str "bat"))
  /\ fst (_schema_elements (Str "[MyDataBase.Period].[MyOwner.Dot]") memo)
     = (Some (Str "MyDataBase.Period"), Some (Str "MyOwner.Dot")).
Proof.
  intros Hs Hsplit Hpost. split; [|split; [|split]].
  - destruct (schema_elements_split (Str schema) memo Hs) as [-> _]; [discriminate|].
    apply split_at_last_free_dot; assumption.
  - apply database_of_simple_text.
  - destruct (schema_elements_split (Str "[foo].[bar].[bat]") memo Hs)
      as [-> _]; [discriminate|].
    reflexivity.
  - destruct (schema_elements_split (Str "[MyDataBase.Period].[MyOwner.Dot]") memo Hs)
      as [-> _]; [discriminate|].
    reflexivity.
Qed.

Lemma schema_split_at_last_free_dot_witness :
  cache_sound (empty_cache 100)
  /\ last_free_dot false "[a.b].c.[d].[e.f]" = Some ("[a.b].c.[d]", "[e.f]")
  /\ without_brackets "[e.f]" <> ""
  /\ dbname_of (database_text "[a.b].c.[d]") = quoted_name "[a.b].c.[d]" (Some false)
  /\ fst (_schema_elements (Str "[a.b].c.[d].[e.f]") (empty_cache 100))
     = (Some (quoted_name "[a.b].c.[d]" (Some false)), Some (Str "e.f"))
  /\ fst (_schema_elements (Str "[MyDataBase.Period].[MyOwner.Dot]") (empty_cache 100))
     = (Some (Str "MyDataBase.Period"), Some (Str "MyOwner.Dot")).
Proof.
  assert (without_brackets "[e.f]" <> "") as Hpost by (vm_compute; discriminate).
  destruct (schema_split_at_last_free_dot "[a.b].c.[d].[e.f]" "[a.b].c.[d]" "[e.f]"
              (empty_cache 100) (empty_cache_sound 100) eq_refl Hpost)
    as (Hsplit & _ & _ & Hexample).
  split; [apply empty_cache_sound|].
  split; [reflexivity|].
  split; [exact Hpost|].
  split; [reflexivity|].
  split; [exact Hsplit|exact Hexample].
Defined.

(** C2, as first stated, fails on a trailing dot: the last "." outside
    brackets of "a.b." is its last character, with "a.b" before it and
    nothing after it, yet the string resolves to the database "a" and
    the owner "b". *)
Lemma trailing_dot_counterexample :
  last_free_dot false "a.b." = Some ("a.b", "")
  /\ fst (_schema_elements (Str "a.b.") (empty_cache 100))
     = (Some (Str "a"), Some (Str "b"))
  /\ fst (_schema_elements (Str "a.b.") (empty_cache 100))
     <> (Some (Str "a.b"), Some (Str "")).
Proof. split; [reflexivity|]. split; [reflexivity|]. vm_compute. discriminate. Qed.

(** C10. A schema given as a [quoted_name] whose [quote] flag is set is
    returned as the owner, with no database, whatever its text and
    whatever the memo holds, and the memo is left as it was.  From SQL
    Server 2005 on, the default schema read from the server is wrapped
    as such a name, so that feeding it back as a schema never splits
    it. *)
Theorem quoted_schema_is_not_split (d : MSDialect) (s name : string) (memo : LRUCache) :
  tuple_lt (server_version_info d) MS_2005_VERSION = false ->
  _schema_elements (quoted_name s (Some true)) memo
  = ((None, Some (quoted_name s (Some true))), memo)
  /\ _get_default_schema_name d (Some name) = quoted_name name (Some true)
  /\ _schema_elements (_get_default_schema_name d (Some name)) memo
     = ((None, Some (quoted_name name (Some true))), memo)
  /\ (name <> "" ->
      _owner_plus_db d (Some (_get_default_schema_name d (Some name))) memo
      = ((None, Some (quoted_name name (Some true))), memo)).
Proof.
  intros Hv. unfold _get_default_schema_name. rewrite Hv.
  split; [reflexivity|]. split; [reflexivity|]. split; [reflexivity|].
  intros Hn. unfold _owner_plus_db. simpl text.
  destruct name as [|ch name]; [congruence|]. simpl.
  destruct (Ascii.eqb ch "." || contains_dot name); reflexivity.
Qed.

Lemma quoted_schema_is_not_split_witness :
  let d := {| server_version_info := [15; 0; 2000];
              deprecate_large_types := None;
              _supports_offset_fetch := true;
              implicit_returning := true;
              full_returning := true;
              supports_multivalues_insert := true;
              schema_name := "dbo";
              default_schema_name := quoted_name "my.schema" (Some true);
              use_scope_identity := true;
              supports_unicode_statements := true |} in
  let memo := setitem "my.schema" (split_schema "my.schema") (empty_cache 100) in
  tuple_lt (server_version_info d) MS_2005_VERSION = false
  /\ fst (_schema_elements (Str "my.schema") memo)
     = (Some (Str "my"), Some (Str "schema"))
  /\ _schema_elements (_get_default_schema_name d (Some "my.schema")) memo
     = ((None, Some (quoted_name "my.schema" (Some true))), memo).
Proof.
  intros d memo.
  split; [reflexivity|]. split; [reflexivity|].
  exact (proj1 (proj2 (proj2
           (quoted_schema_is_not_split d "my.schema" "my.schema" memo eq_refl)))).
Defined.

End SchemaFacts.

(** ** Pagination *)

Module CompilerFacts.
Import Py Compiler CompilerSpec StrFacts.

Section Hooks.

Variable process : bool -> ClauseElement -> string.
Variable process_from : FromClause -> string.
Variable super_get_select_precolumns : Select -> string.
Variable c : FromClause -> list ClauseElement.
Variable key : ClauseElement -> option string.
Variable unwrap_label_reference : ClauseElement -> ClauseElement.

Local Abbreviation translate := (translate_select_structure c key unwrap_label_reference).
Local Abbreviation precolumns := (get_select_precolumns process super_get_select_precolumns).
Local Abbreviation render :=
  (visit_select process process_from super_get_select_precolumns c key
     unwrap_label_reference).

(** *** The three conditions never raise *)

Ltac by_shape stmt :=
  destruct stmt as [cols from criteria order_by [[]|] [[]|] tag];
  try reflexivity;
  simpl;
  repeat match goal with |- context [?v =? 0] => destruct (v =? 0) end;
  try reflexivity.

Lemma uses_row_number_eq (d : MSDialect) (s : Select) :
  uses_row_number d s
  = Return (negb (_supports_offset_fetch d) && needs_order_by s && negb (_mssql_visit s)).
Proof.
  unfold uses_row_number, needs_order_by, offset_nonzero, _simple_int_limit,
    _simple_int_offset, _offset.
  destruct (_supports_offset_fetch d); by_shape s.
Qed.

Lemma skips_offset_fetch_eq (d : MSDialect) (s : Select) :
  skips_offset_fetch d s
  = Return (negb (_supports_offset_fetch d) || negb (needs_order_by s)).
Proof.
  unfold skips_offset_fetch, needs_order_by, offset_nonzero, _simple_int_limit,
    _simple_int_offset, _offset.
  destruct (_supports_offset_fetch d); by_shape s.
Qed.

Lemma uses_top_eq (s : Select) :
  uses_top s = Return (_simple_int_limit s && negb (needs_order_by s)).
Proof.
  unfold uses_top, needs_order_by, offset_nonzero, _simple_int_limit,
    _simple_int_offset, _offset.
  by_shape s.
Qed.

(** *** The rewrite *)

(** What [translate_select_structure] returns when it rewrites: the
    statement tagged, with the rank column and without its ORDER BY, under
    an alias, and around it a SELECT of the columns of the alias other than
    the rank, filtered on the rank. *)
Lemma translate_rewrites (d : MSDialect) (s : Select) :
  uses_row_number d s = Return true ->
  _order_by_clauses s <> [] ->
  let inner :=
    order_by_None
      (add_columns (set_mssql_visit s)
         (Label "mssql_rn"
            (ROW_NUMBER_over (map unwrap_label_reference (_order_by_clauses s))))) in
  let limitselect :=
    sql_select
      (List.filter (fun col => negb (bool_decide (key col = Some "mssql_rn")))
         (c (Alias inner)))
      (Alias inner) in
  translate d s =
  Return
    match _offset_clause s with
    | Some offset =>
      match _limit_clause s with
      | Some limit =>
        where_ (where_ limitselect (rank_above offset))
          (rank_up_to (BinaryExpression limit op_add offset))
      | None => where_ limitselect (rank_above offset)
      end
    | None => where_ limitselect (rank_up_to (coerce (_limit_clause s)))
    end.
Proof.
  intros Hr Ho. unfold translate_select_structure. rewrite Hr. simpl.
  destruct (_order_by_clauses s) as [|o os] eqn:E; [congruence|]. simpl.
  destruct (_offset_clause s), (_limit_clause s); reflexivity.
Qed.

Lemma translate_keeps (d : MSDialect) (s : Select) :
  uses_row_number d s = Return false -> translate d s = Return s.
Proof. intros Hr. unfold translate_select_structure. rewrite Hr. reflexivity. Qed.

(** C1. Without native OFFSET / FETCH, a statement whose LIMIT or OFFSET
    forces the rewrite (one that is not a plain integer, or a plain OFFSET
    other than 0) and which has its ORDER BY is rewritten; with native
    OFFSET / FETCH it is not.  The outer query has no ORDER BY, nor has the
    ranked subquery; its WHERE clause is [mssql_rn > offset] when there is
    an OFFSET, followed by [mssql_rn <= limit + offset] when there is a
    LIMIT as well, and nothing else: without a LIMIT there is no upper
    bound.  For integer LIMIT [l] and OFFSET [o] the rows kept are those of
    rank [o < rn <= l + o]. *)
Theorem rank_filter_exact (d : MSDialect) (s : Select) :
  _supports_offset_fetch d = false ->
  needs_order_by s = true ->
  _mssql_visit s = false ->
  _order_by_clauses s <> [] ->
  exists outer inner,
    translate d s = Return outer
    /\ from_obj outer = Alias inner
    /\ _order_by_clauses outer = []
    /\ _order_by_clauses inner = []
    /\ _where_criteria outer =
       match _offset_clause s with
       | Some offset =>
         rank_above offset
         :: match _limit_clause s with
            | Some limit => [rank_up_to (BinaryExpression limit op_add offset)]
            | None => []
            end
       | None => [rank_up_to (coerce (_limit_clause s))]
       end
    /\ (forall l o rn,
           _limit_clause s = Some (_OffsetLimitParam l) ->
           _offset_clause s = Some (_OffsetLimitParam o) ->
           passes rn outer = true <-> o < rn <= l + o)
    /\ (forall o rn,
           _limit_clause s = None ->
           _offset_clause s = Some (_OffsetLimitParam o) ->
           passes rn outer = true <-> o < rn)
    /\ (forall d', _supports_offset_fetch d' = true -> translate d' s = Return s).
Proof.
  intros Hsup Hneeds Htag Ho.
  assert (uses_row_number d s = Return true) as Hr.
  { rewrite uses_row_number_eq, Hsup, Hneeds, Htag. reflexivity. }
  rewrite (translate_rewrites d s Hr Ho).
  eexists _, _. split; [reflexivity|].
  assert (forall d', _supports_offset_fetch d' = true -> translate d' s = Return s)
    as Hnative.
  { intros d' Hd'. apply translate_keeps. rewrite uses_row_number_eq, Hd'. reflexivity. }
  destruct (_offset_clause s) as [offset|], (_limit_clause s) as [limit|];
    (split; [reflexivity|]); (split; [reflexivity|]); (split; [reflexivity|]);
    (split; [reflexivity|]); (split; [|split; [|exact Hnative]]);
    intros; try discriminate.
  - repeat match goal with H : Some _ = Some _ |- _ => injection H as -> end.
    unfold passes. simpl. rewrite andb_true_r.
    destruct (Z.ltb_spec o rn), (Z.leb_spec rn (l + o)); simpl; split;
      try lia; try discriminate; reflexivity.
  - repeat match goal with H : Some _ = Some _ |- _ => injection H as -> end.
    unfold passes. simpl.
    destruct (Z.ltb_spec o rn); simpl; split; try lia; try discriminate; reflexivity.
Qed.

(** C6. A statement that carries the rewrite tag is returned as it is.  So
    is, on a second translation, whatever a first translation returned; and
    when the first translation rewrote, the subquery it built carries the
    tag and is returned as it is too: nothing is wrapped twice. *)
Theorem translate_is_idempotent (d : MSDialect) (s : Select) :
  (_mssql_visit s = true -> translate d s = Return s)
  /\ (forall s',
         translate d s = Return s' ->
         translate d s' = Return s'
         /\ (uses_row_number d s = Return true ->
             exists inner,
               from_obj s' = Alias inner
               /\ _mssql_visit inner = true
               /\ translate d inner = Return inner)).
Proof.
  split.
  - intros Ht. apply translate_keeps. rewrite uses_row_number_eq, Ht, andb_false_r.
    reflexivity.
  - intros s' Hs'.
    destruct (negb (_supports_offset_fetch d) && needs_order_by s && negb (_mssql_visit s))
      eqn:Hr.
    + pose proof (uses_row_number_eq d s) as Hu. rewrite Hr in Hu.
      destruct (_order_by_clauses s) as [|o os] eqn:Ho.
      { unfold translate_select_structure in Hs'. rewrite Hu, Ho in Hs'. discriminate. }
      assert (_order_by_clauses s <> []) as Hne by (rewrite Ho; discriminate).
      rewrite (translate_rewrites d s Hu Hne) in Hs'. injection Hs' as <-.
      split.
      * apply translate_keeps. rewrite uses_row_number_eq.
        destruct (_offset_clause s), (_limit_clause s);
          unfold needs_order_by, offset_nonzero; simpl;
          rewrite andb_false_r; reflexivity.
      * intros _. eexists.
        split; [destruct (_offset_clause s), (_limit_clause s); reflexivity|].
        split; [reflexivity|].
        apply translate_keeps. rewrite uses_row_number_eq. simpl.
        rewrite andb_false_r. reflexivity.
    + pose proof (uses_row_number_eq d s) as Hu. rewrite Hr in Hu.
      rewrite (translate_keeps d s Hu) in Hs'. injection Hs' as <-.
      split; [apply translate_keeps, Hu|].
      intros H. rewrite Hu in H. discriminate.
Qed.

(** *** TOP *)

Lemma trivial_offset_needs_no_order (s : Select) (n : Z) :
  _limit_clause s = Some (_OffsetLimitParam n) ->
  _offset_clause s = None \/ _offset_clause s = Some (_OffsetLimitParam 0) ->
  _simple_int_limit s = true /\ needs_order_by s = false.
Proof.
  intros Hl Ho. unfold _simple_int_limit, needs_order_by, offset_nonzero.
  rewrite Hl. destruct Ho as [-> | ->]; split; reflexivity.
Qed.

(** C5. A SELECT whose LIMIT is a plain integer and which has no OFFSET,
    or the plain OFFSET 0, is not rewritten and gets no OFFSET / FETCH
    clause, under either capability; its text is [SELECT], whatever the
    base compiler puts before the columns, then [TOP] with the LIMIT
    rendered under [literal_execute], that is inline and not as a bound
    parameter, then the columns.  [SELECT x FROM t LIMIT 5] renders as
    [SELECT TOP 5 x FROM t]. *)
Theorem top_for_simple_limit (d : MSDialect) (is_subquery : bool) (s : Select) (n : Z) :
  _limit_clause s = Some (_OffsetLimitParam n) ->
  _offset_clause s = None \/ _offset_clause s = Some (_OffsetLimitParam 0) ->
  let top := "TOP " ++ process true (_OffsetLimitParam n) ++ " " in
  let text :=
    "SELECT " ++ (super_get_select_precolumns s ++ top)
      ++ String.concat ", " (map (process false) (columns s))
      ++ " FROM " ++ process_from (from_obj s) in
  precolumns s = Return (super_get_select_precolumns s ++ top)
  /\ translate d s = Return s
  /\ limit_clause process d s = Return ""
  /\ (exists order_by,
         (if empty (_order_by_clauses s) then Return ""
          else order_by_clause process d is_subquery s) = Return order_by
         /\ render d is_subquery s =
            Return
              ((if empty (_where_criteria s) then text
                else text ++ " WHERE "
                       ++ String.concat " AND " (map (process false) (_where_criteria s)))
                 ++ order_by))
  /\ basic_visit_select mssql_2008 false
       (select_x_from_t [] (Some (_OffsetLimitParam 5)) None)
     = Return "SELECT TOP 5 x FROM t"
  /\ basic_visit_select mssql_2012 false
       (select_x_from_t [] (Some (_OffsetLimitParam 5)) None)
     = Return "SELECT TOP 5 x FROM t".
Proof.
  intros Hl Ho top text.
  destruct (trivial_offset_needs_no_order s n Hl Ho) as [Hsimple Hneeds].
  assert (precolumns s = Return (super_get_select_precolumns s ++ top)) as Hpre.
  { unfold get_select_precolumns. rewrite uses_top_eq, Hsimple, Hneeds, Hl. reflexivity. }
  assert (translate d s = Return s) as Htr.
  { apply translate_keeps. rewrite uses_row_number_eq, Hneeds, andb_false_r. reflexivity. }
  assert (limit_clause process d s = Return "") as Hlim.
  { unfold limit_clause. rewrite skips_offset_fetch_eq, Hneeds, orb_true_r. reflexivity. }
  split; [exact Hpre|]. split; [exact Htr|]. split; [exact Hlim|].
  split; [|split; reflexivity].
  assert (exists order_by,
             (if empty (_order_by_clauses s) then Return ""
              else order_by_clause process d is_subquery s) = Return order_by)
    as [order_by Hob].
  { destruct (empty (_order_by_clauses s)); [eexists; reflexivity|].
    unfold order_by_clause, _limit, _offset. rewrite Hl.
    destruct Ho as [-> | ->]; simpl;
      destruct is_subquery, (n =? 0), (_supports_offset_fetch d); simpl;
        match goal with
        | |- context [truthy_str ?x] => destruct (truthy_str x)
        | _ => idtac
        end; eexists; reflexivity. }
  exists order_by. split; [exact Hob|].
  unfold visit_select. rewrite Htr. simpl. rewrite Hpre. simpl.
  rewrite Hob. simpl. rewrite Hlim. simpl. rewrite append_nil_r. reflexivity.
Qed.

(** *** ORDER BY *)

(** C4 (amended). A SELECT whose LIMIT or OFFSET is not a plain integer,
    or whose OFFSET is a plain integer other than 0, and which has no
    ORDER BY, does not compile: with native OFFSET / FETCH [limit_clause]
    raises the compile error, without it [translate_select_structure]
    does, unless the statement carries the rewrite tag; the render call
    returns no text. *)
Theorem order_by_is_required (d : MSDialect) (is_subquery : bool) (s : Select) :
  needs_order_by s = true ->
  _order_by_clauses s = [] ->
  _supports_offset_fetch d = true \/ _mssql_visit s = false ->
  render d is_subquery s = Raise (CompileError order_by_required)
  /\ (_supports_offset_fetch d = true ->
      limit_clause process d s = Raise (CompileError order_by_required))
  /\ (_supports_offset_fetch d = false ->
      translate d s = Raise (CompileError order_by_required)).
Proof.
  intros Hneeds Hob Hcap.
  assert (_supports_offset_fetch d = true ->
          limit_clause process d s = Raise (CompileError order_by_required)) as Hnative.
  { intros Hsup. unfold limit_clause.
    rewrite skips_offset_fetch_eq, Hsup, Hneeds, Hob. reflexivity. }
  assert (_supports_offset_fetch d = false ->
          translate d s = Raise (CompileError order_by_required)) as Hrewrite.
  { intros Hsup. destruct Hcap as [Hcap|Htag]; [congruence|].
    unfold translate_select_structure.
    rewrite uses_row_number_eq, Hsup, Hneeds, Htag, Hob. reflexivity. }
  split; [|split; assumption].
  unfold visit_select. destruct (_supports_offset_fetch d) eqn:Hsup.
  - rewrite translate_keeps
      by (rewrite uses_row_number_eq, Hsup; reflexivity).
    simpl. unfold get_select_precolumns.
    rewrite uses_top_eq, Hneeds, andb_false_r. simpl.
    rewrite Hob. simpl. rewrite (Hnative eq_refl). reflexivity.
  - rewrite (Hrewrite eq_refl). reflexivity.
Qed.

(** *** What the two text hooks render *)

(** [get_select_precolumns] adds TOP to what the base compiler puts before
    the columns exactly when [uses_top] holds. *)
Lemma top_rendered (s : Select) :
  (uses_top s = Return true ->
   exists limit,
     _limit_clause s = Some limit
     /\ precolumns s
        = Return (super_get_select_precolumns s ++ "TOP " ++ process true limit ++ " "))
  /\ (uses_top s = Return false ->
      precolumns s = Return (super_get_select_precolumns s)).
Proof.
  unfold get_select_precolumns. split; intros Ht; rewrite Ht; [|reflexivity].
  destruct (_limit_clause s) as [limit|] eqn:E.
  - exists limit. split; reflexivity.
  - exfalso. rewrite uses_top_eq in Ht. unfold _simple_int_limit in Ht.
    rewrite E in Ht. discriminate.
Qed.

(** [limit_clause] renders OFFSET ... ROWS, and FETCH NEXT after it when
    there is a LIMIT, exactly when [skips_offset_fetch] does not hold and
    the ORDER BY is there. *)
Lemma offset_fetch_rendered (d : MSDialect) (s : Select) :
  (skips_offset_fetch d s = Return true -> limit_clause process d s = Return "")
  /\ (skips_offset_fetch d s = Return false ->
      _order_by_clauses s <> [] ->
      exists offset_str fetch,
        limit_clause process d s
        = Return (newline ++ " OFFSET " ++ offset_str ++ " ROWS" ++ fetch)
        /\ (_limit_clause s = None -> fetch = "")).
Proof.
  unfold limit_clause. split; intros ->; [reflexivity|].
  intros Ho. destruct (_order_by_clauses s); [congruence|]. simpl.
  set (offset_str := match _offset_clause s with
                     | Some o => process false o
                     | None => "0"
                     end).
  destruct (_limit_clause s) as [limit|].
  - exists offset_str, (newline ++ " FETCH NEXT " ++ process false limit ++ " ROWS ONLY ").
    split; [|discriminate].
    rewrite !append_assoc. reflexivity.
  - exists offset_str, "". split; [|reflexivity]. rewrite append_nil_r. reflexivity.
Qed.

(** *** One strategy at most *)

Lemma translate_rewrites_to (d : MSDialect) (s : Select) :
  uses_row_number d s = Return true ->
  _order_by_clauses s <> [] ->
  exists outer inner,
    translate d s = Return outer
    /\ from_obj outer = Alias inner
    /\ _limit_clause outer = None
    /\ _offset_clause outer = None
    /\ _mssql_visit inner = true
    /\ _limit_clause inner = _limit_clause s
    /\ _offset_clause inner = _offset_clause s.
Proof.
  intros Hu Hne. rewrite (translate_rewrites d s Hu Hne).
  eexists _, (order_by_None (add_columns (set_mssql_visit s) _)).
  split; [reflexivity|].
  split; [destruct (_offset_clause s), (_limit_clause s); reflexivity|].
  split; [destruct (_offset_clause s), (_limit_clause s); reflexivity|].
  split; [destruct (_offset_clause s), (_limit_clause s); reflexivity|].
  repeat split; reflexivity.
Qed.

(** A statement without LIMIT and OFFSET gets neither TOP nor OFFSET /
    FETCH. *)
Lemma unpaginated_hooks (d : MSDialect) (s : Select) :
  needs_order_by s = false ->
  _simple_int_limit s = false ->
  uses_top s = Return false
  /\ skips_offset_fetch d s = Return true
  /\ limit_clause process d s = Return "".
Proof.
  intros Hneeds Hsimple. unfold limit_clause.
  rewrite uses_top_eq, skips_offset_fetch_eq, Hneeds, Hsimple, orb_true_r. auto.
Qed.

Lemma no_clauses_unpaginated (s : Select) :
  _limit_clause s = None -> _offset_clause s = None ->
  needs_order_by s = false /\ _simple_int_limit s = false.
Proof.
  intros Hl Ho. unfold needs_order_by, offset_nonzero, _simple_int_limit.
  rewrite Hl, Ho. auto.
Qed.

Lemma append_fixed (a b : string) : a ++ b = a -> b = "".
Proof.
  induction a as [|ch a IH]; [auto|].
  rewrite append_cons. intros H. injection H as H. apply IH, H.
Qed.

(** What [get_select_precolumns] returns, from the shape of the
    statement: it never raises, and adds to the text of the base
    compiler exactly for a plain integer LIMIT on a statement that does
    not ask for an ORDER BY. *)
Lemma precolumns_shape (s : Select) :
  exists pre,
    precolumns s = Return pre
    /\ (pre <> super_get_select_precolumns s
        <-> _simple_int_limit s && negb (needs_order_by s) = true).
Proof.
  destruct (top_rendered s) as [Htop Hnone]. rewrite uses_top_eq in Htop, Hnone.
  destruct (_simple_int_limit s && negb (needs_order_by s)).
  - destruct (Htop eq_refl) as (limit & _ & ->). eexists. split; [reflexivity|].
    split; [reflexivity|]. intros _ H. apply append_fixed in H. discriminate H.
  - rewrite (Hnone eq_refl). eexists. split; [reflexivity|].
    split; [congruence|discriminate].
Qed.

(** What [limit_clause] returns when it returns: some text exactly with
    native OFFSET / FETCH on a statement that asks for an ORDER BY. *)
Lemma limit_clause_shape (d : MSDialect) (s : Select) (lim : string) :
  limit_clause process d s = Return lim ->
  (lim <> "" <-> _supports_offset_fetch d && needs_order_by s = true).
Proof.
  unfold limit_clause. rewrite skips_offset_fetch_eq.
  destruct (_supports_offset_fetch d), (needs_order_by s); simpl;
    try (intros [= <-]; split; [congruence|discriminate]).
  destruct (_order_by_clauses s); simpl; [discriminate|].
  destruct (_limit_clause s); intros [= <-]; (split; [reflexivity|]);
    intros _; discriminate.
Qed.

(** When [limit_clause] returns. *)
Lemma limit_clause_returns (d : MSDialect) (s : Select) :
  (exists lim, limit_clause process d s = Return lim)
  <-> _supports_offset_fetch d && needs_order_by s && empty (_order_by_clauses s) = false.
Proof.
  unfold limit_clause. rewrite skips_offset_fetch_eq.
  destruct (_supports_offset_fetch d), (needs_order_by s); simpl;
    try (split; [reflexivity | intros _; eexists; reflexivity]).
  destruct (_order_by_clauses s); simpl.
  - split; [intros [lim H]; discriminate H | discriminate].
  - split; [reflexivity|]. intros _. destruct (_limit_clause s); eexists; reflexivity.
Qed.

(** When [order_by_clause] returns: always at the top level, and in a
    subquery when it can read LIMIT and OFFSET as integers. *)
Lemma order_by_clause_returns (d : MSDialect) (is_subquery : bool) (s : Select) :
  (exists text, order_by_clause process d is_subquery s = Return text)
  <-> negb is_subquery || readable_in_subquery s = true.
Proof.
  unfold order_by_clause, readable_in_subquery, limit_nonzero, _limit, _offset.
  destruct is_subquery; simpl.
  2:{ split; [reflexivity|]. intros _.
      destruct (truthy_str _); eexists; reflexivity. }
  destruct s as [cols from criteria order_by [[]|] [[]|] tag]; simpl;
    repeat match goal with |- context [?v =? 0] => destruct (v =? 0) end; simpl;
    destruct (_supports_offset_fetch d); simpl;
    try (split; [reflexivity|]; intros _;
         try match goal with
             | |- context [truthy_str ?x] => destruct (truthy_str x)
             end; eexists; reflexivity);
    split; try discriminate; intros [text H]; discriminate H.
Qed.

(** The render call of a statement that is not rewritten. *)
Lemma render_kept (d : MSDialect) (is_subquery : bool) (s : Select) :
  rewrite_due d s = false ->
  translate d s = Return s
  /\ ((exists text, render d is_subquery s = Return text)
      <-> renders d is_subquery s = true).
Proof.
  intros Hr.
  assert (translate d s = Return s) as Htr.
  { apply translate_keeps. rewrite uses_row_number_eq. unfold rewrite_due in Hr.
    rewrite Hr. reflexivity. }
  split; [exact Htr|].
  unfold renders. rewrite Hr. unfold visit_select. rewrite Htr. simpl.
  destruct (precolumns_shape s) as (pre & -> & _). simpl.
  pose proof (limit_clause_returns d s) as Hlim.
  pose proof (order_by_clause_returns d is_subquery s) as Hob.
  destruct (empty (_order_by_clauses s)) eqn:He; simpl.
  - rewrite andb_true_r in Hlim.
    destruct (limit_clause process d s) as [lim|e]; simpl.
    + split; [intros _|intros _; eexists; reflexivity].
      rewrite (proj1 Hlim) by (eexists; reflexivity). reflexivity.
    + split; [intros [text H]; discriminate H|].
      intros H. apply negb_true_iff in H. rewrite andb_true_r in H.
      destruct (proj2 Hlim H) as [lim H']. discriminate H'.
  - rewrite andb_false_r in Hlim |- *. simpl. rewrite andb_true_r.
    destruct (proj2 Hlim eq_refl) as [lim ->].
    destruct (order_by_clause process d is_subquery s) as [ob|e]; simpl.
    + split; [intros _|intros _; eexists; reflexivity].
      apply Hob. eexists. reflexivity.
    + split; [intros [text H]; discriminate H|].
      intros H. destruct (proj2 Hob H) as [text H']. discriminate H'.
Qed.

(** The render call of a statement that is rewritten. *)
Lemma render_rewritten (d : MSDialect) (is_subquery : bool) (s : Select) :
  rewrite_due d s = true ->
  ((exists text, render d is_subquery s = Return text)
   <-> renders d is_subquery s = true)
  /\ (_order_by_clauses s <> [] ->
      exists outer inner,
        translate d s = Return outer
        /\ outer <> s
        /\ from_obj outer = Alias inner
        /\ precolumns outer = Return (super_get_select_precolumns outer)
        /\ limit_clause process d outer = Return ""
        /\ translate d inner = Return inner
        /\ precolumns inner = Return (super_get_select_precolumns inner)
        /\ limit_clause process d inner = Return ""
        /\ exists text, render d true inner = Return text).
Proof.
  intros Hr.
  assert (uses_row_number d s = Return true) as Hu.
  { rewrite uses_row_number_eq. unfold rewrite_due in Hr. rewrite Hr. reflexivity. }
  unfold rewrite_due in Hr.
  apply andb_prop in Hr as [Hr Htag]. apply andb_prop in Hr as [Hsup Hneeds].
  apply negb_true_iff in Hsup.
  assert (_order_by_clauses s <> [] ->
          exists outer inner,
            translate d s = Return outer
            /\ outer <> s
            /\ from_obj outer = Alias inner
            /\ _order_by_clauses outer = []
            /\ precolumns outer = Return (super_get_select_precolumns outer)
            /\ limit_clause process d outer = Return ""
            /\ translate d inner = Return inner
            /\ precolumns inner = Return (super_get_select_precolumns inner)
            /\ limit_clause process d inner = Return ""
            /\ _order_by_clauses inner = []) as Hshape.
  { intros Hne.
    destruct (translate_rewrites_to d s Hu Hne)
      as (outer & inner & Htr & Hfrom & Hl & Ho & Hvisit & Hlimit' & Hoffset').
    exists outer, inner.
    destruct (no_clauses_unpaginated outer Hl Ho) as [Hneeds0 Hsimple0].
    destruct (unpaginated_hooks d outer Hneeds0 Hsimple0) as (Htop & _ & Hlim).
    assert (needs_order_by inner = true) as Hneeds'.
    { unfold needs_order_by, offset_nonzero in *. rewrite Hlimit', Hoffset'. exact Hneeds. }
    split; [exact Htr|].
    split.
    { intros ->. rewrite Hneeds0 in Hneeds. discriminate. }
    split; [exact Hfrom|].
    split.
    { rewrite (translate_rewrites d s Hu Hne) in Htr. injection Htr as <-.
      destruct (_offset_clause s), (_limit_clause s); reflexivity. }
    split; [apply (proj2 (top_rendered outer)), Htop|].
    split; [exact Hlim|].
    split.
    { apply translate_keeps. rewrite uses_row_number_eq, Hvisit, andb_false_r.
      reflexivity. }
    split.
    { apply (proj2 (top_rendered inner)). rewrite uses_top_eq, Hneeds', andb_false_r.
      reflexivity. }
    split.
    { unfold limit_clause. rewrite skips_offset_fetch_eq, Hsup. reflexivity. }
    rewrite (translate_rewrites d s Hu Hne) in Htr. injection Htr as <-.
    destruct (_offset_clause s), (_limit_clause s); simpl in Hfrom;
      injection Hfrom as <-; reflexivity. }
  split.
  - unfold renders, rewrite_due. rewrite Hsup, Hneeds, Htag. simpl.
    destruct (_order_by_clauses s) as [|o os] eqn:Ho; simpl.
    + split; [|discriminate]. intros [text H]. unfold visit_select in H.
      unfold translate_select_structure in H. rewrite Hu in H. simpl in H.
      rewrite Ho in H. discriminate H.
    + split; [reflexivity|]. intros _.
      destruct Hshape as (outer & inner & Htr & _ & _ & Hob & Hpre & Hlim & _);
        [discriminate|].
      unfold visit_select. rewrite Htr. simpl. rewrite Hpre. simpl.
      rewrite Hob. simpl. rewrite Hlim. simpl. eexists. reflexivity.
  - intros Hne.
    destruct (Hshape Hne)
      as (outer & inner & Htr & Hdiff & Hfrom & _ & Hpre & Hlim & Htr' & Hpre' & Hlim' & Hob').
    exists outer, inner. repeat (split; [assumption|]).
    unfold visit_select. rewrite Htr'. simpl. rewrite Hpre'. simpl.
    rewrite Hob'. simpl. rewrite Hlim'. simpl. eexists. reflexivity.
Qed.

(** When a render call gives a text. *)
Lemma render_returns_iff (d : MSDialect) (is_subquery : bool) (s : Select) :
  (exists text, render d is_subquery s = Return text)
  <-> renders d is_subquery s = true.
Proof.
  destruct (rewrite_due d s) eqn:Hr.
  - apply (render_rewritten d is_subquery s Hr).
  - apply (render_kept d is_subquery s Hr).
Qed.

(** What the three hooks return in a render call that gives a text. *)
Lemma render_hooks (d : MSDialect) (is_subquery : bool) (s : Select) (text : string) :
  render d is_subquery s = Return text ->
  exists translated pre lim,
    translate d s = Return translated
    /\ precolumns translated = Return pre
    /\ limit_clause process d translated = Return lim
    /\ (translated <> s <-> rewrite_due d s = true)
    /\ (pre <> super_get_select_precolumns translated
        <-> _simple_int_limit s && negb (needs_order_by s) = true)
    /\ (lim <> "" <-> _supports_offset_fetch d && needs_order_by s = true)
    /\ (rewrite_due d s = true ->
        exists inner text',
          from_obj translated = Alias inner
          /\ render d true inner = Return text'
          /\ translate d inner = Return inner
          /\ precolumns inner = Return (super_get_select_precolumns inner)
          /\ limit_clause process d inner = Return "").
Proof.
  intros Htext.
  destruct (rewrite_due d s) eqn:Hr.
  - destruct (render_rewritten d is_subquery s Hr) as [Hiff Hshape].
    assert (_order_by_clauses s <> []) as Hne.
    { assert (renders d is_subquery s = true) as H by (apply Hiff; eauto).
      unfold renders in H. rewrite Hr in H. intros E. rewrite E in H. discriminate H. }
    destruct (Hshape Hne)
      as (outer & inner & Htr & Hdiff & Hfrom & Hpre & Hlim & Htr' & Hpre' & Hlim'
          & text' & Hin).
    exists outer, (super_get_select_precolumns outer), "".
    split; [exact Htr|]. split; [exact Hpre|]. split; [exact Hlim|].
    unfold rewrite_due in Hr.
    apply andb_prop in Hr as [Hr' Htag]. apply andb_prop in Hr' as [Hsup Hneeds].
    apply negb_true_iff in Hsup. rewrite Hsup, Hneeds. simpl.
    split; [tauto|].
    split; [rewrite andb_false_r; split; [congruence|discriminate]|].
    split; [split; [congruence|discriminate]|].
    intros _. exists inner, text'. repeat (split; [assumption|]). exact Hlim'.
  - destruct (render_kept d is_subquery s Hr) as [Htr Hiff].
    destruct (precolumns_shape s) as (pre & Hpre & Htop).
    assert (exists lim, limit_clause process d s = Return lim) as [lim Hlim].
    { unfold visit_select in Htext. rewrite Htr in Htext. simpl in Htext.
      rewrite Hpre in Htext. simpl in Htext.
      destruct (if empty (_order_by_clauses s) then Return ""
                else order_by_clause process d is_subquery s); [|discriminate].
      simpl in Htext. destruct (limit_clause process d s); [eauto|discriminate]. }
    exists s, pre, lim.
    split; [exact Htr|]. split; [exact Hpre|]. split; [exact Hlim|].
    split; [split; [congruence|discriminate]|].
    split; [exact Htop|].
    split; [exact (limit_clause_shape d s lim Hlim)|].
    discriminate.
Qed.

(** C8 (amended). A render call gives a text exactly for the statements
    that have the ORDER BY the dialect asks for and, in a subquery, an
    ORDER BY that can read LIMIT and OFFSET; otherwise it raises.  A call
    that gives a text applies at most one of the three strategies, as
    they show in what [translate_select_structure],
    [get_select_precolumns] and [limit_clause] return in that call: the
    rewrite exactly for an untagged statement that asks for an ORDER BY,
    compiled without native OFFSET / FETCH; TOP exactly for a plain integer
    LIMIT on a statement that does not ask for an ORDER BY; OFFSET / FETCH
    exactly with native support on a statement that asks for an ORDER BY.
    So exactly one is applied when the statement has a LIMIT, or an
    OFFSET other than the plain integer 0, and either is not tagged as
    rewritten or is compiled with native OFFSET / FETCH; none when it has
    no LIMIT and no OFFSET other than the plain integer 0.  When the call
    rewrote the statement, the ranked subquery is rendered with none. *)
Theorem one_strategy_per_render (d : MSDialect) (is_subquery : bool) (s : Select) :
  ((exists text, render d is_subquery s = Return text)
   <-> renders d is_subquery s = true)
  /\ forall text,
       render d is_subquery s = Return text ->
       exists translated pre lim,
         translate d s = Return translated
         /\ precolumns translated = Return pre
         /\ limit_clause process d translated = Return lim
         /\ let shows :=
              applied s translated (super_get_select_precolumns translated) pre lim in
            (forall a b, shows a -> shows b -> a = b)
            /\ (shows RowNumberRewrite <-> rewrite_due d s = true)
            /\ (shows TopOnly
                <-> _simple_int_limit s && negb (needs_order_by s) = true)
            /\ (shows NativeOffsetFetch
                <-> _supports_offset_fetch d && needs_order_by s = true)
            /\ (paginated s = true ->
                _mssql_visit s = false \/ _supports_offset_fetch d = true ->
                exists a, shows a)
            /\ (paginated s = false -> forall a, ~ shows a)
            /\ (shows RowNumberRewrite ->
                exists inner text',
                  from_obj translated = Alias inner
                  /\ render d true inner = Return text'
                  /\ translate d inner = Return inner
                  /\ precolumns inner = Return (super_get_select_precolumns inner)
                  /\ limit_clause process d inner = Return "").
Proof.
  split; [apply render_returns_iff|].
  intros text Htext.
  destruct (render_hooks d is_subquery s text Htext)
    as (translated & pre & lim & Htr & Hpre & Hlim & Hrw & Htop & Hnative & Hinner).
  exists translated, pre, lim.
  split; [exact Htr|]. split; [exact Hpre|]. split; [exact Hlim|].
  cbv zeta.
  assert (_simple_int_limit s = true -> is_none (_limit_clause s) = false) as Hsimple.
  { unfold _simple_int_limit. destruct (_limit_clause s) as [[]|]; simpl; auto; discriminate. }
  assert (needs_order_by s = false -> is_none (_limit_clause s) = false ->
          _simple_int_limit s = true) as Hlimit.
  { unfold needs_order_by, _simple_int_limit.
    destruct (_limit_clause s) as [[]|]; simpl; auto; discriminate. }
  assert (forall a,
             applied s translated (super_get_select_precolumns translated) pre lim a <->
             match a with
             | RowNumberRewrite => rewrite_due d s = true
             | TopOnly => _simple_int_limit s && negb (needs_order_by s) = true
             | NativeOffsetFetch => _supports_offset_fetch d && needs_order_by s = true
             end) as Hof.
  { intros []; simpl; assumption. }
  split.
  { intros a b Ha Hb. apply Hof in Ha, Hb. unfold rewrite_due in Ha, Hb.
    destruct a, b; try reflexivity;
      destruct (needs_order_by s), (_supports_offset_fetch d);
      rewrite ?andb_false_r, ?andb_true_r in *; simpl in *; congruence. }
  split; [exact Hrw|]. split; [exact Htop|]. split; [exact Hnative|].
  split.
  { intros Hp Hcap. unfold paginated in Hp.
    destruct (needs_order_by s) eqn:Hneeds.
    - destruct (_supports_offset_fetch d) eqn:Hsup.
      + exists NativeOffsetFetch. apply Hof. reflexivity.
      + destruct Hcap as [Hcap|Hcap]; [|discriminate].
        exists RowNumberRewrite. apply Hof. unfold rewrite_due.
        rewrite ?Hsup, ?Hneeds, Hcap. reflexivity.
    - rewrite orb_false_r in Hp. apply negb_true_iff in Hp.
      exists TopOnly. apply Hof. rewrite (Hlimit eq_refl Hp). reflexivity. }
  split.
  { intros Hp a Ha. apply Hof in Ha.
    unfold paginated in Hp. apply orb_false_elim in Hp as [Hnone Hneeds].
    apply negb_false_iff in Hnone. unfold rewrite_due in Ha. rewrite Hneeds in Ha.
    destruct a.
    - rewrite andb_false_r in Ha. discriminate.
    - rewrite andb_true_r in Ha. rewrite (Hsimple Ha) in Hnone. discriminate.
    - rewrite andb_false_r in Ha. discriminate. }
  intros H. apply Hinner, Hrw, H.
Qed.

End Hooks.

(** *** The scenarios *)

Lemma rank_filter_exact_witness :
  let s := select_x_from_t [ColumnClause "x"]
             (Some (_OffsetLimitParam 5)) (Some (_OffsetLimitParam 10)) in
  _supports_offset_fetch mssql_2008 = false
  /\ needs_order_by s = true
  /\ _mssql_visit s = false
  /\ _order_by_clauses s <> []
  /\ exists outer,
       basic_translate mssql_2008 s = Return outer
       /\ _order_by_clauses outer = []
       /\ _where_criteria outer =
          [rank_above (_OffsetLimitParam 10);
           rank_up_to (BinaryExpression (_OffsetLimitParam 5) op_add (_OffsetLimitParam 10))]
       /\ (forall rn, passes rn outer = true <-> 10 < rn <= 5 + 10).
Proof.
  intros s.
  assert (_order_by_clauses s <> []) as Hne by discriminate.
  split; [reflexivity|]. split; [reflexivity|]. split; [reflexivity|].
  split; [exact Hne|].
  destruct (rank_filter_exact basic_c basic_key (fun e => e) mssql_2008 s
              eq_refl eq_refl eq_refl Hne)
    as (outer & inner & Htr & _ & Hob & _ & Hwhere & Hboth & _).
  exists outer. split; [exact Htr|]. split; [exact Hob|]. split; [exact Hwhere|].
  intros rn. exact (Hboth 5 10 rn eq_refl eq_refl).
Defined.

Lemma top_for_simple_limit_witness :
  let s := select_x_from_t [] (Some (_OffsetLimitParam 5)) None in
  _limit_clause s = Some (_OffsetLimitParam 5)
  /\ (_offset_clause s = None \/ _offset_clause s = Some (_OffsetLimitParam 0))
  /\ get_select_precolumns basic_process (fun _ => "") s = Return "TOP 5 "
  /\ limit_clause basic_process mssql_2012 s = Return "".
Proof.
  intros s.
  pose proof (top_for_simple_limit basic_process basic_from (fun _ => "") basic_c
                basic_key (fun e => e) mssql_2012 false s 5 eq_refl (or_introl eq_refl))
    as (Hpre & _ & Hlim & _).
  split; [reflexivity|]. split; [left; reflexivity|].
  split; [exact Hpre | exact Hlim].
Defined.

Lemma order_by_is_required_witness :
  let s := select_x_from_t [] (Some (_OffsetLimitParam 5)) (Some (_OffsetLimitParam 10)) in
  needs_order_by s = true
  /\ _order_by_clauses s = []
  /\ (_supports_offset_fetch mssql_2012 = true \/ _mssql_visit s = false)
  /\ basic_visit_select mssql_2012 false s = Raise (CompileError order_by_required)
  /\ basic_visit_select mssql_2008 false s = Raise (CompileError order_by_required).
Proof.
  intros s.
  split; [reflexivity|]. split; [reflexivity|]. split; [left; reflexivity|].
  split.
  - exact (proj1 (order_by_is_required basic_process basic_from (fun _ => "") basic_c
                    basic_key (fun e => e) mssql_2012 false s
                    eq_refl eq_refl (or_introl eq_refl))).
  - exact (proj1 (order_by_is_required basic_process basic_from (fun _ => "") basic_c
                    basic_key (fun e => e) mssql_2008 false s
                    eq_refl eq_refl (or_intror eq_refl))).
Defined.

(** C4, as first stated, fails for the plain OFFSET 0: the statement has
    an OFFSET and no ORDER BY, and compiles under both capabilities. *)
Lemma offset_zero_counterexample :
  let s := select_x_from_t [] (Some (_OffsetLimitParam 5)) (Some (_OffsetLimitParam 0)) in
  _offset_clause s <> None
  /\ _order_by_clauses s = []
  /\ basic_visit_select mssql_2012 false s = Return "SELECT TOP 5 x FROM t"
  /\ basic_visit_select mssql_2008 false s = Return "SELECT TOP 5 x FROM t".
Proof. intros s. split; [discriminate|]. repeat split; reflexivity. Qed.

Lemma translate_is_idempotent_witness :
  let s := select_x_from_t [ColumnClause "x"]
             (Some (_OffsetLimitParam 5)) (Some (_OffsetLimitParam 10)) in
  exists outer inner,
    basic_translate mssql_2008 s = Return outer
    /\ outer <> s
    /\ basic_translate mssql_2008 outer = Return outer
    /\ from_obj outer = Alias inner
    /\ _mssql_visit inner = true
    /\ basic_translate mssql_2008 inner = Return inner.
Proof.
  intros s.
  destruct (translate_is_idempotent basic_c basic_key (fun e => e) mssql_2008 s)
    as [_ Hsecond].
  destruct (Hsecond _ eq_refl) as [Hagain Hinner].
  destruct (Hinner eq_refl) as (inner & Hfrom & Htag & Hkept).
  eexists _, inner. split; [reflexivity|]. split; [discriminate|].
  split; [exact Hagain|]. split; [exact Hfrom|]. split; [exact Htag | exact Hkept].
Defined.

Lemma one_strategy_per_render_witness :
  let s := select_x_from_t [ColumnClause "x"]
             (Some (_OffsetLimitParam 5)) (Some (_OffsetLimitParam 10)) in
  paginated s = true
  /\ renders mssql_2008 false s = true
  /\ renders mssql_2012 false s = true
  /\ (exists text outer,
         basic_visit_select mssql_2008 false s = Return text
         /\ basic_translate mssql_2008 s = Return outer
         /\ outer <> s
         /\ basic_precolumns outer = Return ""
         /\ limit_clause basic_process mssql_2008 outer = Return "")
  /\ (exists text lim,
         basic_visit_select mssql_2012 false s = Return text
         /\ basic_translate mssql_2012 s = Return s
         /\ basic_precolumns s = Return ""
         /\ limit_clause basic_process mssql_2012 s = Return lim
         /\ lim <> "").
Proof.
  intros s.
  split; [reflexivity|]. split; [reflexivity|]. split; [reflexivity|].
  split.
  - destruct (one_strategy_per_render basic_process basic_from (fun _ => "") basic_c
                basic_key (fun e => e) mssql_2008 false s) as [Hiff Hall].
    destruct (proj2 Hiff eq_refl) as [text Htext].
    destruct (Hall text Htext)
      as (outer & pre & lim & Htr & Hpre & Hlim & Hone & Hrw & Htop & Hnative & _).
    exists text, outer. split; [exact Htext|]. split; [exact Htr|].
    assert (outer <> s) as Hdiff by (apply Hrw; reflexivity).
    split; [exact Hdiff|].
    assert (pre = "") as ->.
    { destruct (string_dec pre "") as [E|E]; [exact E|].
      discriminate (Hone TopOnly RowNumberRewrite E Hdiff). }
    assert (lim = "") as ->.
    { destruct (string_dec lim "") as [E|E]; [exact E|].
      discriminate (Hone NativeOffsetFetch RowNumberRewrite E Hdiff). }
    split; [exact Hpre | exact Hlim].
  - destruct (one_strategy_per_render basic_process basic_from (fun _ => "") basic_c
                basic_key (fun e => e) mssql_2012 false s) as [Hiff Hall].
    destruct (proj2 Hiff eq_refl) as [text Htext].
    destruct (Hall text Htext)
      as (kept & pre & lim & Htr & Hpre & Hlim & Hone & Hrw & Htop & Hnative & _).
    assert (kept = s) as ->.
    { assert (basic_translate mssql_2012 s = Return s) as E by reflexivity.
      unfold basic_translate in E. rewrite E in Htr. injection Htr as <-. reflexivity. }
    assert (lim <> "") as Hsome by (apply Hnative; reflexivity).
    assert (pre = "") as ->.
    { destruct (string_dec pre "") as [E|E]; [exact E|].
      discriminate (Hone TopOnly NativeOffsetFetch E Hsome). }
    exists text, lim. split; [exact Htext|]. split; [exact Htr|].
    split; [exact Hpre|]. split; [exact Hlim | exact Hsome].
Defined.

(** C8, as first stated, fails for a statement whose only pagination
    clause is a plain OFFSET 0: under both capabilities the render call
    gives the plain text, the statement is handed on as it is, nothing is
    added before the columns and no OFFSET / FETCH is rendered, so that
    none of the three strategies is applied. *)
Lemma no_strategy_counterexample :
  let s := select_x_from_t [] None (Some (_OffsetLimitParam 0)) in
  _offset_clause s <> None
  /\ basic_visit_select mssql_2008 false s = Return "SELECT x FROM t"
  /\ basic_visit_select mssql_2012 false s = Return "SELECT x FROM t"
  /\ basic_translate mssql_2008 s = Return s
  /\ basic_translate mssql_2012 s = Return s
  /\ basic_precolumns s = Return ""
  /\ limit_clause basic_process mssql_2008 s = Return ""
  /\ limit_clause basic_process mssql_2012 s = Return ""
  /\ forall strategy, ~ applied s s "" "" "" strategy.
Proof.
  intros s. split; [discriminate|]. repeat split; try reflexivity.
  intros [] H; apply H; reflexivity.
Qed.

End CompilerFacts.

(** ** The execution context *)

Module ExecutionFacts.
Import Py Execution ExecutionSpec.

Section Context.

Variable dbapi : list string -> string -> Reply.
Variable format_table : Table -> string.
Variable _encoder : string -> string.

Local Abbreviation execute := (cursor_execute dbapi).
Local Abbreviation side_execute := (_cursor_execute dbapi format_table _encoder).
Local Abbreviation pre := (pre_exec dbapi format_table _encoder).
Local Abbreviation post := (post_exec dbapi format_table _encoder).
Local Abbreviation on_error := (handle_dbapi_exception dbapi format_table _encoder).
Local Abbreviation invoke := (execute_context dbapi format_table _encoder).
Local Abbreviation ON := (identity_insert_on format_table _encoder).
Local Abbreviation OFF := (identity_insert_off format_table _encoder).

(** *** The cursor *)

Lemma execute_logs (statement : string) (cur : Cursor) :
  executed (snd (execute statement cur)) = app (executed cur) [statement].
Proof. unfold cursor_execute. destruct (dbapi (executed cur) statement); reflexivity. Qed.

Lemma execute_outcome (statement : string) (cur : Cursor) :
  fst (execute statement cur) =
  match dbapi (executed cur) statement with
  | Ok _ _ => Return tt
  | Error msg => Raise (DBAPIError msg)
  end.
Proof. unfold cursor_execute. destruct (dbapi (executed cur) statement); reflexivity. Qed.

(** *** [handle_dbapi_exception] and [_cursor_execute] *)

(** [handle_dbapi_exception] never raises: it tries the disabling
    statement when the mode is on and drops its failure. *)
Lemma handle_dbapi_exception_returns (self : MSExecutionContext) (e : Exception)
    (cur : Cursor) :
  fst (on_error self e cur) = Return tt
  /\ executed (snd (on_error self e cur))
     = app (executed cur) (if _enable_identity_insert self then [OFF self] else []).
Proof.
  unfold handle_dbapi_exception, try_except, ret.
  destruct (_enable_identity_insert self).
  - pose proof (execute_logs (OFF self) cur) as Hlog.
    destruct (execute (OFF self) cur) as [[[]|e'] cur']; split; try reflexivity; exact Hlog.
  - simpl. rewrite List.app_nil_r. split; reflexivity.
Qed.

(** A side statement: accepted, it leaves its row count and rows on the
    cursor; rejected, its error is raised once the context has had it. *)
Lemma _cursor_execute_runs (statement : string) (context : MSExecutionContext)
    (cur : Cursor) :
  side_execute statement context cur =
  match dbapi (executed cur) statement with
  | Ok n rs =>
    (Return tt, {| executed := app (executed cur) [statement]; rowcount := n; rows := rs |})
  | Error msg =>
    (Raise (DBAPIError msg),
     snd (on_error context (DBAPIError msg)
            {| executed := app (executed cur) [statement];
               rowcount := rowcount cur; rows := rows cur |}))
  end.
Proof.
  unfold _cursor_execute, try_except, cursor_execute.
  destruct (dbapi (executed cur) statement) as [n rs|msg]; [reflexivity|].
  unfold bindM, raise.
  match goal with
  | |- context [on_error ?c ?e ?cu] =>
    destruct (handle_dbapi_exception_returns c e cu) as [Hret _];
    destruct (on_error c e cu) as [r cur']
  end.
  simpl in Hret. subst r. reflexivity.
Qed.

(** The statements a side statement adds to the log: itself, and the
    disabling statement when it is rejected while the mode is on. *)
Lemma _cursor_execute_logs (statement : string) (context : MSExecutionContext)
    (cur : Cursor) :
  executed (snd (side_execute statement context cur))
  = app (executed cur)
      (statement ::
       if rejected dbapi (executed cur) statement && _enable_identity_insert context
       then [OFF context] else []).
Proof.
  rewrite _cursor_execute_runs. unfold rejected.
  destruct (dbapi (executed cur) statement) as [n rs|msg]; [reflexivity|].
  simpl.
  match goal with
  | |- context [on_error ?c ?e ?cu] =>
    destruct (handle_dbapi_exception_returns c e cu) as [_ Hlog]; rewrite Hlog
  end.
  simpl. rewrite <- List.app_assoc. simpl.
  destruct (_enable_identity_insert context); reflexivity.
Qed.

Lemma _cursor_execute_outcome (statement : string) (context : MSExecutionContext)
    (cur : Cursor) :
  fst (side_execute statement context cur) =
  match dbapi (executed cur) statement with
  | Ok _ _ => Return tt
  | Error msg => Raise (DBAPIError msg)
  end.
Proof.
  rewrite _cursor_execute_runs.
  destruct (dbapi (executed cur) statement); reflexivity.
Qed.

(** *** [pre_exec] *)

(** [pre_exec] leaves every statement but an INSERT alone. *)
Lemma pre_exec_other (self : MSExecutionContext) (cur : Cursor) :
  isinsert self = false -> pre self cur = (Return self, cur).
Proof. intros Hins. unfold pre_exec. rewrite Hins. reflexivity. Qed.

(** What [pre_exec] leaves on an INSERT when it returns. *)
Lemma pre_exec_insert (self self1 : MSExecutionContext) (cur cur1 : Cursor) :
  isinsert self = true ->
  pre self cur = (Return self1, cur1) ->
  exists enable,
    self1 = set_flags enable
              (negb (inline (compiled self)) && insert_has_identity self
               && negb (returning (compiled self)) && negb enable
               && negb (executemany self)) self
    /\ executed cur1 = app (executed cur) (if enable then [ON self] else []).
Proof.
  intros Hins. unfold pre_exec. rewrite Hins. unfold bindM.
  destruct (insert_has_identity self) eqn:Hid.
  - destruct (_autoincrement_column (table (compiled self))) as [col|];
      [|discriminate].
    unfold lift. destruct (supplies_identity self col) as [[|]|e]; [| |discriminate].
    + rewrite _cursor_execute_runs.
      match goal with
      | |- context [dbapi ?h ?st] => destruct (dbapi h st) as [n rs|msg]
      end; [|discriminate].
      intros H. injection H as <- <-. exists true. split; reflexivity.
    + intros H. injection H as <- <-. exists false. split; [reflexivity|].
      simpl. rewrite List.app_nil_r. reflexivity.
  - unfold ret. intros H. injection H as <- <-. exists false. split; [reflexivity|].
    simpl. rewrite List.app_nil_r. reflexivity.
Qed.

Lemma flags_keep_statements (enable lastrowid : bool) (self : MSExecutionContext) :
  ON (set_flags enable lastrowid self) = ON self
  /\ OFF (set_flags enable lastrowid self) = OFF self
  /\ lastrowid_query (set_flags enable lastrowid self) = lastrowid_query self.
Proof. repeat split; reflexivity. Qed.

(** *** [post_exec] *)

(** Without the follow-up query, [post_exec] issues the disabling
    statement when the mode is on, and nothing else of its own; when the
    database rejects that statement, the handler of the context issues
    it once more. *)
Lemma post_exec_without_query (self : MSExecutionContext) (cur : Cursor) :
  _select_lastrowid self = false ->
  executed (snd (post self cur))
  = app (executed cur) (cleanup dbapi (OFF self) (_enable_identity_insert self)
                          (executed cur)).
Proof.
  intros Hq. unfold post_exec, bindM, cursor_rowcount, fetchall, ret, cleanup.
  destruct (isinsert self || isupdate self || isdelete self); simpl; rewrite Hq;
    destruct (returning (compiled self)); simpl;
    destruct (_enable_identity_insert self) eqn:He; simpl;
    try (rewrite List.app_nil_r; reflexivity);
    match goal with
    | |- context [side_execute ?st ?cx ?cu] =>
      pose proof (_cursor_execute_logs st cx cu) as Hlog;
      destruct (side_execute st cx cu) as [[[]|e] cur']; simpl in Hlog |- *;
      rewrite Hlog, ?He, andb_true_r; reflexivity
    end.
Qed.

Lemma post_exec_without_query_outcome (self : MSExecutionContext) (cur : Cursor) :
  _select_lastrowid self = false ->
  _enable_identity_insert self = true ->
  match dbapi (executed cur) (OFF self) with
  | Ok _ _ => exists self2, fst (post self cur) = Return self2
  | Error msg => fst (post self cur) = Raise (DBAPIError msg)
  end.
Proof.
  intros Hq He. unfold post_exec, bindM, cursor_rowcount, fetchall, ret.
  destruct (isinsert self || isupdate self || isdelete self); simpl; rewrite Hq;
    destruct (returning (compiled self)); simpl; rewrite He;
    rewrite _cursor_execute_runs; simpl;
    repeat match goal with
           | |- context [dbapi (executed cur) ?st] => progress change st with (OFF self)
           end;
    destruct (dbapi (executed cur) (OFF self)); simpl; eauto.
Qed.

(** With the follow-up query and the mode off, [post_exec] issues that
    one query, and takes the first column of the first row of its result,
    as an integer, for the generated key. *)
Lemma post_exec_with_query (self : MSExecutionContext) (cur : Cursor) :
  _select_lastrowid self = true ->
  _enable_identity_insert self = false ->
  executed (snd (post self cur)) = app (executed cur) [lastrowid_query self]
  /\ (forall n v row rest k,
         dbapi (executed cur) (lastrowid_query self) = Ok n ((v :: row) :: rest) ->
         int v = Return k ->
         exists self2,
           fst (post self cur) = Return self2 /\ _lastrowid self2 = Some k).
Proof.
  intros Hq He.
  unfold post_exec, bindM, cursor_rowcount, fetchall, ret, lift.
  unfold lastrowid_query.
  split.
  - destruct (isinsert self || isupdate self || isdelete self); simpl; rewrite Hq;
      rewrite _cursor_execute_runs;
      match goal with
      | |- context [dbapi ?h ?q] => destruct (dbapi h q) as [n rs|msg]
      end; simpl;
      try (unfold handle_dbapi_exception; simpl; rewrite He; reflexivity);
      (destruct rs as [|[|v row] rs]; simpl; try reflexivity);
      (destruct (int v); simpl; [rewrite He|]; reflexivity).
  - intros n v row rest k Hreply Hint.
    destruct (isinsert self || isupdate self || isdelete self); simpl; rewrite Hq;
      rewrite _cursor_execute_runs;
      rewrite Hreply; simpl; rewrite Hint; simpl; rewrite He;
      eexists; split; reflexivity.
Qed.

(** *** The claims *)

(** C7 (amended). For a context whose follow-up flag is as the class
    declares it, once [pre_exec] has returned the follow-up fetch of the
    last generated id is due exactly when the statement is an INSERT that
    is not compiled inline, is not run for many parameter sets, targets a
    table whose auto-generated key column is not driven by a Sequence, has
    no RETURNING, and identity-insert mode was not enabled; for any other
    statement it is not due.  When it is due, [post_exec] issues that one
    query and nothing else, and the first column of the first row of its
    result, as an integer, is the generated key; when it is not due the
    query is not issued: [post_exec] issues the statement that disables
    identity-insert mode (and, when the database rejects it, the handler
    issues it once more) if the mode is on, and nothing otherwise. *)
Theorem lastrowid_fetch_when_due (self self1 : MSExecutionContext) (cur cur1 : Cursor) :
  _select_lastrowid self = false ->
  pre self cur = (Return self1, cur1) ->
  (_select_lastrowid self1 = true <->
   isinsert self = true
   /\ inline (compiled self) = false
   /\ executemany self = false
   /\ insert_has_identity self = true
   /\ returning (compiled self) = false
   /\ _enable_identity_insert self1 = false)
  /\ forall cur2,
       executed (snd (post self1 cur2))
       = app (executed cur2)
           (if _select_lastrowid self1 then [lastrowid_query self]
            else cleanup dbapi (OFF self) (_enable_identity_insert self1)
                   (executed cur2))
       /\ (_select_lastrowid self1 = true ->
           forall n v row rest k,
             dbapi (executed cur2) (lastrowid_query self) = Ok n ((v :: row) :: rest) ->
             int v = Return k ->
             exists self2,
               fst (post self1 cur2) = Return self2 /\ _lastrowid self2 = Some k).
Proof.
  intros Hfresh Hpre.
  destruct (isinsert self) eqn:Hins.
  - destruct (pre_exec_insert self self1 cur cur1 Hins Hpre) as (enable & -> & _).
    simpl.
    split.
    + destruct (inline (compiled self)), (insert_has_identity self),
        (returning (compiled self)), enable, (executemany self); simpl;
        intuition congruence.
    + intros cur2.
      set (due := negb (inline (compiled self)) && insert_has_identity self
                  && negb (returning (compiled self)) && negb enable
                  && negb (executemany self)).
      destruct due eqn:Hdue.
      * assert (enable = false) as ->.
        { subst due. destruct enable; [|reflexivity].
          rewrite andb_false_r in Hdue. discriminate. }
        destruct (post_exec_with_query (set_flags false true self) cur2 eq_refl eq_refl)
          as [Hlog Hkey].
        split; [exact Hlog|]. intros _. exact Hkey.
      * split; [|discriminate].
        apply (post_exec_without_query (set_flags enable false self) cur2 eq_refl).
  - rewrite (pre_exec_other self cur Hins) in Hpre. injection Hpre as <- <-.
    rewrite Hfresh. split.
    + split; [discriminate|]. intros [H _]. discriminate.
    + intros cur2. split; [|discriminate].
      apply (post_exec_without_query self cur2 Hfresh).
Qed.

(** The invocation once [pre_exec] has returned. *)
Lemma invoke_after_pre (self self1 : MSExecutionContext) (cur cur1 : Cursor)
    (statement : string) :
  pre self cur = (Return self1, cur1) ->
  invoke self statement cur =
  match execute statement cur1 with
  | (Return _, cur2) => post self1 cur2
  | (Raise e, cur2) => (Raise e, snd (on_error self1 e cur2))
  end.
Proof.
  intros Hpre. unfold execute_context, bindM at 1. rewrite Hpre.
  unfold bindM at 1. unfold try_except at 1.
  destruct (execute statement cur1) as [[[]|e] cur2]; [reflexivity|].
  unfold bindM, raise.
  destruct (handle_dbapi_exception_returns self1 e cur2) as [Hret _].
  destruct (on_error self1 e cur2) as [r cur3]. simpl in Hret. subst r. reflexivity.
Qed.

(** C3 (amended). When [pre_exec] has enabled identity-insert mode for an
    INSERT, having issued [SET IDENTITY_INSERT ... ON], the invocation
    issues the main statement and then [SET IDENTITY_INSERT ... OFF]: once
    when the main statement raises, whatever the database answers to that
    cleanup, and the error of the main statement is the one raised to the
    caller; once when the main statement and the disabling statement are
    both accepted, and the invocation returns; and twice when the main
    statement is accepted and the database rejects the disabling statement
    of [post_exec], whose error is handed to the context, tried again by
    its handler, and raised to the caller. *)
Theorem identity_insert_is_paired (self self1 : MSExecutionContext) (cur cur1 : Cursor)
    (statement : string) :
  isinsert self = true ->
  pre self cur = (Return self1, cur1) ->
  _enable_identity_insert self1 = true ->
  executed cur1 = app (executed cur) [ON self]
  /\ executed (snd (invoke self statement cur))
     = app (executed cur)
         (ON self :: statement :: OFF self ::
          if negb (rejected dbapi (executed cur1) statement)
             && rejected dbapi (app (executed cur1) [statement]) (OFF self)
          then [OFF self] else [])
  /\ (forall msg,
         dbapi (executed cur1) statement = Error msg ->
         fst (invoke self statement cur) = Raise (DBAPIError msg))
  /\ (rejected dbapi (executed cur1) statement = false ->
      match dbapi (app (executed cur1) [statement]) (OFF self) with
      | Ok _ _ => exists self2, fst (invoke self statement cur) = Return self2
      | Error msg => fst (invoke self statement cur) = Raise (DBAPIError msg)
      end).
Proof.
  intros Hins Hpre Hon.
  destruct (pre_exec_insert self self1 cur cur1 Hins Hpre) as (enable & Hself1 & Hlog1).
  assert (enable = true) as -> by (subst self1; exact Hon).
  rewrite andb_false_r in Hself1. simpl in Hself1.
  assert (OFF self1 = OFF self) as Hoff by (subst self1; reflexivity).
  assert (_select_lastrowid self1 = false) as Hq by (subst self1; reflexivity).
  split; [exact Hlog1|].
  rewrite (invoke_after_pre self self1 cur cur1 statement Hpre).
  pose proof (execute_logs statement cur1) as Hmain.
  pose proof (execute_outcome statement cur1) as Hout.
  unfold rejected.
  destruct (execute statement cur1) as [[[]|e] cur2]; simpl in Hmain, Hout.
  - destruct (dbapi (executed cur1) statement) as [n rs|msg0]; [|discriminate].
    split; [|split; [discriminate|]].
    + rewrite (post_exec_without_query self1 cur2 Hq).
      unfold cleanup, rejected. rewrite Hon, Hmain, Hlog1, Hoff, <- !List.app_assoc.
      simpl. destruct (dbapi _ (OFF self)); reflexivity.
    + intros _.
      pose proof (post_exec_without_query_outcome self1 cur2 Hq Hon) as Hpost.
      rewrite Hmain, Hoff in Hpost. exact Hpost.
  - destruct (dbapi (executed cur1) statement) as [n rs|msg0]; [discriminate|].
    split; [|split; [|discriminate]].
    + destruct (handle_dbapi_exception_returns self1 e cur2) as [_ Hlog].
      simpl. rewrite Hlog, Hon, Hmain, Hlog1, Hoff, <- !List.app_assoc. reflexivity.
    + intros msg Hmsg. simpl. congruence.
Qed.

End Context.

(** *** The scenarios *)

Lemma identity_insert_is_paired_witness :
  let self1 := set_flags true false insert_id_x in
  let cur1 := {| executed := ["SET IDENTITY_INSERT t ON"]; rowcount := 0; rows := [] |} in
  isinsert insert_id_x = true
  /\ pre_exec rejecting_db name (fun s => s) insert_id_x new_cursor = (Return self1, cur1)
  /\ _enable_identity_insert self1 = true
  /\ executed (snd (execute_context rejecting_db name (fun s => s) insert_id_x
                      insert_id_x_text new_cursor))
     = ["SET IDENTITY_INSERT t ON"; insert_id_x_text; "SET IDENTITY_INSERT t OFF"]
  /\ fst (execute_context rejecting_db name (fun s => s) insert_id_x
            insert_id_x_text new_cursor)
     = Raise (DBAPIError "duplicate key").
Proof.
  intros self1 cur1.
  assert (pre_exec rejecting_db name (fun s => s) insert_id_x new_cursor
          = (Return self1, cur1)) as Hpre by (vm_compute; reflexivity).
  destruct (identity_insert_is_paired rejecting_db name (fun s => s) insert_id_x self1
              new_cursor cur1 insert_id_x_text eq_refl Hpre eq_refl)
    as (_ & Hlog & Herr & _).
  split; [reflexivity|]. split; [exact Hpre|]. split; [reflexivity|].
  split; [exact Hlog|]. exact (Herr "duplicate key" eq_refl).
Defined.

(** C3, as first stated, fails when the main statement is accepted and
    the database rejects the disabling statement of [post_exec]: the
    error is handed to the context, whose handler issues the statement
    again, so that two disabling statements follow the INSERT. *)
Lemma rejected_cleanup_counterexample :
  let self1 := set_flags true false insert_id_x in
  let cur1 := {| executed := ["SET IDENTITY_INSERT t ON"]; rowcount := 1; rows := [] |} in
  pre_exec unplugged_db name (fun s => s) insert_id_x new_cursor = (Return self1, cur1)
  /\ _enable_identity_insert self1 = true
  /\ unplugged_db (executed cur1) insert_id_x_text = Ok 1 []
  /\ executed (snd (execute_context unplugged_db name (fun s => s) insert_id_x
                      insert_id_x_text new_cursor))
     = ["SET IDENTITY_INSERT t ON"; insert_id_x_text;
        "SET IDENTITY_INSERT t OFF"; "SET IDENTITY_INSERT t OFF"]
  /\ fst (execute_context unplugged_db name (fun s => s) insert_id_x
            insert_id_x_text new_cursor)
     = Raise (DBAPIError "connection lost").
Proof. intros self1 cur1. repeat split; vm_compute; reflexivity. Qed.

Lemma lastrowid_fetch_when_due_witness :
  let self := insert_x false in
  let self1 := set_flags false true self in
  _select_lastrowid self = false
  /\ pre_exec obliging_db name (fun s => s) self new_cursor = (Return self1, new_cursor)
  /\ _select_lastrowid self1 = true
  /\ executed (snd (post_exec obliging_db name (fun s => s) self1 new_cursor))
     = [scope_identity_query]
  /\ exists self2,
       fst (post_exec obliging_db name (fun s => s) self1 new_cursor) = Return self2
       /\ _lastrowid self2 = Some 42.
Proof.
  intros self self1.
  assert (pre_exec obliging_db name (fun s => s) self new_cursor
          = (Return self1, new_cursor)) as Hpre by (vm_compute; reflexivity).
  destruct (lastrowid_fetch_when_due obliging_db name (fun s => s) self self1
              new_cursor new_cursor eq_refl Hpre) as [_ Hpost].
  destruct (Hpost new_cursor) as [Hlog Hkey].
  split; [reflexivity|]. split; [exact Hpre|]. split; [reflexivity|].
  split; [exact Hlog|].
  exact (Hkey eq_refl 1 (VDecimal 42 0) [] [] 42 eq_refl eq_refl).
Defined.

(** C7, as first stated, fails for an INSERT compiled inline: one row, an
    identity column not driven by a Sequence, no RETURNING, no value given
    for the identity column, and yet no follow-up query: the INSERT is the
    only statement issued and no key is fetched. *)
Lemma inline_insert_counterexample :
  let self := insert_x true in
  executemany self = false
  /\ insert_has_identity self = true
  /\ returning (compiled self) = false
  /\ exists self2 cur2,
       execute_context obliging_db name (fun s => s) self insert_x_text new_cursor
       = (Return self2, cur2)
       /\ executed cur2 = [insert_x_text]
       /\ _enable_identity_insert self2 = false
       /\ _select_lastrowid self2 = false
       /\ _lastrowid self2 = None.
Proof.
  intros self. split; [reflexivity|]. split; [reflexivity|]. split; [reflexivity|].
  eexists _, _. split; [vm_compute; reflexivity|]. repeat split; reflexivity.
Qed.

End ExecutionFacts.

(** ** The execution context: further properties *)

Module ContextFacts.
Import Py Execution ExecutionSpec ContextResults.

Section Context.

Variable dbapi : list string -> string -> Reply.
Variable format_table : Table -> string.
Variable _encoder : string -> string.

Local Abbreviation pre := (pre_exec dbapi format_table _encoder).
Local Abbreviation post := (post_exec dbapi format_table _encoder).
Local Abbreviation ON := (identity_insert_on format_table _encoder).
Local Abbreviation OFF := (identity_insert_off format_table _encoder).

Ltac run_post :=
  unfold post_exec, bindM, cursor_rowcount, fetchall, ret, lift, _cursor_execute,
    try_except, handle_dbapi_exception, bindM, raise, try_except, ret, cursor_execute.

Ltac answer :=
  match goal with
  | |- context [dbapi ?h ?q] => destruct (dbapi h q) as [? ?|?]
  | H : context [dbapi ?h ?q] |- _ => destruct (dbapi h q) as [? ?|?]
  end.

(** X1. For an INSERT, UPDATE or DELETE the row count the context
    reports after [post_exec] is the one the cursor held when
    [post_exec] began, that is the count of the main statement, whatever
    the follow-up statements of [post_exec] left on the cursor.  For any
    other statement on a fresh context it is the count of the cursor as
    it stands. *)
Theorem rowcount_is_of_the_main_statement (self self2 : MSExecutionContext)
    (cur cur2 : Cursor) :
  post self cur = (Return self2, cur2) ->
  (isinsert self || isupdate self || isdelete self = true ->
   rowcount self2 cur2 = (Return (Execution.rowcount cur), cur2))
  /\ (isinsert self || isupdate self || isdelete self = false ->
      _rowcount self = None ->
      rowcount self2 cur2 = (Return (Execution.rowcount cur2), cur2)).
Proof.
  run_post. unfold rowcount.
  destruct (isinsert self || isupdate self || isdelete self); simpl;
    destruct (_select_lastrowid self); simpl.
  all: repeat answer; simpl.
  all: try (destruct rows0 as [|[|v row] rest]; simpl).
  all: try (destruct (int v); simpl).
  all: try (destruct (returning (compiled self)); simpl).
  all: try (destruct (_enable_identity_insert self); simpl).
  all: repeat answer; simpl.
  all: intros H; try discriminate H; injection H as <- <-; simpl.
  all: split; intros; try discriminate; try reflexivity.
  all: match goal with H : _rowcount _ = None |- _ => rewrite H end; reflexivity.
Qed.

(** X2. When the fetch of the generated key is due, a failure of it
    ends [post_exec] at once, after the one query: an error of the
    database is raised as it is, once the handler of the context has had
    it (which issues the disabling statement if identity-insert mode is
    on, and nothing if it is off, as it is whenever [pre_exec] asked for
    the fetch); a result without a row or with an empty first row is an
    [IndexError], and a NULL in the first column (no identity value was
    generated) is a [TypeError], with no statement after the query. *)
Theorem lastrowid_fetch_failures (self : MSExecutionContext) (cur : Cursor) :
  _select_lastrowid self = true ->
  let reply := dbapi (executed cur) (lastrowid_query self) in
  let ends_with e after :=
    fst (post self cur) = Raise e
    /\ executed (snd (post self cur))
       = app (executed cur) (lastrowid_query self :: after) in
  (forall msg,
      reply = Error msg ->
      ends_with (DBAPIError msg)
        (if _enable_identity_insert self then [OFF self] else []))
  /\ (forall n, reply = Ok n [] -> ends_with IndexError [])
  /\ (forall n rest, reply = Ok n ([] :: rest) -> ends_with IndexError [])
  /\ (forall n row rest,
         reply = Ok n ((VNull :: row) :: rest) -> ends_with TypeError []).
Proof.
  intros Hq reply ends_with. subst reply ends_with. unfold lastrowid_query.
  unfold post_exec, bindM, cursor_rowcount, fetchall, ret, lift.
  destruct (isinsert self || isupdate self || isdelete self); simpl; rewrite Hq.
  all: rewrite ExecutionFacts._cursor_execute_runs.
  all: answer; simpl.
  all: try (destruct rows0 as [|[|v row] rest]; simpl).
  all: try (destruct v; simpl).
  all: try match goal with
           | |- context [handle_dbapi_exception ?d ?f ?en ?c ?e ?cu] =>
             destruct (ExecutionFacts.handle_dbapi_exception_returns d f en c e cu)
               as [_ Hlog]; simpl in Hlog; rewrite Hlog, <- List.app_assoc
           end.
  all: repeat split; intros; try discriminate; try reflexivity; try congruence.
Qed.

(** X3. On an INSERT, UPDATE or DELETE with a RETURNING and no fetch of
    the generated key, [post_exec] buffers the rows the cursor holds when
    it begins, those of the main statement, before it issues the
    disabling statement: the buffered rows are not those of a follow-up
    statement. *)
Theorem returning_rows_are_buffered (self self2 : MSExecutionContext)
    (cur cur2 : Cursor) :
  isinsert self || isupdate self || isdelete self = true ->
  returning (compiled self) = true ->
  _select_lastrowid self = false ->
  post self cur = (Return self2, cur2) ->
  cursor_fetch_strategy self2 = Some (FullyBufferedCursorFetchStrategy (rows cur))
  /\ executed cur2
     = app (executed cur) (if _enable_identity_insert self then [OFF self] else []).
Proof.
  intros Hdml Hret Hq. unfold post_exec, bindM, cursor_rowcount, fetchall, ret.
  rewrite Hdml. simpl. rewrite Hq, Hret. simpl.
  destruct (_enable_identity_insert self) eqn:Hon; simpl.
  - rewrite ExecutionFacts._cursor_execute_runs. simpl.
    answer; intros H; [|discriminate H].
    injection H as <- <-. simpl. repeat split; reflexivity.
  - intros H. injection H as <- <-. simpl. rewrite List.app_nil_r.
    repeat split; reflexivity.
Qed.

(** X4. [pre_exec] on an INSERT enables identity-insert mode exactly when
    the table has an auto-generated key column not driven by a Sequence
    and the statement gives a value for it, in the first parameter set or
    in the parameters of the statement, by name or by column; it then
    issues the enabling statement and nothing else, and it never leaves
    both the mode and the fetch of the generated key switched on.  When
    the table has such a column and there is no parameter set at all,
    [pre_exec] raises [IndexError] before any statement is issued. *)
Theorem identity_insert_enabled_iff (self : MSExecutionContext) (cur : Cursor) :
  isinsert self = true ->
  (insert_has_identity self = true ->
   compiled_parameters self = [] ->
   pre self cur = (Raise IndexError, cur))
  /\ forall self1 cur1,
       pre self cur = (Return self1, cur1) ->
       (_enable_identity_insert self1 = true <->
        exists id_column parameters rest,
          _autoincrement_column (table (compiled self)) = Some id_column
          /\ default_is_Sequence id_column = false
          /\ compiled_parameters self = parameters :: rest
          /\ (is_Some (parameters !! key id_column)
              \/ exists d,
                   _dict_parameters (compiled self) = Some d
                   /\ (KeyName (key id_column) ∈ d \/ KeyColumn id_column ∈ d)))
       /\ _enable_identity_insert self1 && _select_lastrowid self1 = false
       /\ executed cur1
          = app (executed cur) (if _enable_identity_insert self1 then [ON self] else []).
Proof.
  intros Hins. unfold pre_exec. rewrite Hins. unfold bindM, insert_has_identity.
  destruct (_autoincrement_column (table (compiled self))) as [col|] eqn:Hcol.
  2:{ split; [discriminate|]. simpl. intros self1 cur1 [= <- <-]. simpl.
      rewrite List.app_nil_r. repeat split; try reflexivity; try discriminate.
      intros (c & _ & _ & H & _). discriminate H. }
  destruct (default_is_Sequence col) eqn:Hseq; simpl.
  { split; [discriminate|]. intros self1 cur1 [= <- <-]. simpl.
    rewrite List.app_nil_r. repeat split; try reflexivity; try discriminate.
    intros (c & ps & rest & [= <-] & H & _). congruence. }
  unfold lift, supplies_identity.
  destruct (compiled_parameters self) as [|parameters rest] eqn:Hps; simpl.
  { split; [reflexivity|]. intros self1 cur1 H. discriminate H. }
  split; [discriminate|].
  set (given := bool_decide (is_Some (parameters !! key col))
                || match _dict_parameters (compiled self) with
                   | Some ((_ :: _) as d) =>
                     bool_decide (KeyName (key col) ∈ d)
                     || bool_decide (KeyColumn col ∈ d)
                   | _ => false
                   end).
  assert (given = true <->
          (is_Some (parameters !! key col)
           \/ exists d, _dict_parameters (compiled self) = Some d
                        /\ (KeyName (key col) ∈ d \/ KeyColumn col ∈ d))) as Hgiven.
  { subst given. rewrite orb_true_iff, bool_decide_eq_true.
    destruct (_dict_parameters (compiled self)) as [[|k d]|].
    - split; [intros [H|H]; [left; exact H|discriminate]|].
      intros [H|(d & [= <-] & [H|H])]; [left; exact H| |];
        apply elem_of_nil in H; destruct H.
    - rewrite orb_true_iff, !bool_decide_eq_true.
      split; [intros [H|H]; [left; exact H|right; eexists; split; [reflexivity|exact H]]|].
      intros [H|(d' & Hd & H)]; [left; exact H|right].
      injection Hd as Hd. rewrite Hd. exact H.
    - split; [intros [H|H]; [left; exact H|discriminate]|].
      intros [H|(d & H & _)]; [left; exact H|discriminate]. }
  intros self1 cur1.
  destruct given eqn:Hg.
  - rewrite ExecutionFacts._cursor_execute_runs. unfold ret.
    answer; intros H; [|discriminate H]. injection H as <- <-. simpl.
    rewrite andb_false_r. simpl. repeat split; try reflexivity.
    intros _. exists col, parameters, rest.
    repeat split; try reflexivity; try assumption. apply Hgiven. reflexivity.
  - unfold ret. intros [= <- <-]. simpl. rewrite List.app_nil_r.
    repeat split; try reflexivity; try discriminate.
    intros (c & ps & rest' & [= <-] & _ & [= <- <-] & H).
    apply Hgiven in H. discriminate H.
Qed.

(** X28. When the database rejects the statement with which [pre_exec]
    enables identity-insert mode, the error is handed to the context,
    whose handler issues the disabling statement, once, whatever the
    database answers to it; the error is then raised, and the invocation
    ends there: the main statement is not run. *)
Theorem rejected_enabling_is_cleaned_up (self : MSExecutionContext) (cur : Cursor)
    (id_column : Column) (statement msg : string) :
  isinsert self = true ->
  _autoincrement_column (table (compiled self)) = Some id_column ->
  default_is_Sequence id_column = false ->
  supplies_identity self id_column = Return true ->
  dbapi (executed cur) (ON self) = Error msg ->
  fst (pre self cur) = Raise (DBAPIError msg)
  /\ executed (snd (pre self cur)) = app (executed cur) [ON self; OFF self]
  /\ execute_context dbapi format_table _encoder self statement cur
     = (Raise (DBAPIError msg), snd (pre self cur)).
Proof.
  intros Hins Hcol Hseq Hgiven Hreply.
  assert (fst (pre self cur) = Raise (DBAPIError msg)
          /\ executed (snd (pre self cur)) = app (executed cur) [ON self; OFF self])
    as [Hout Hlog].
  { unfold pre_exec. rewrite Hins. unfold insert_has_identity. rewrite Hcol, Hseq.
    simpl. unfold bindM, lift. rewrite Hgiven.
    rewrite ExecutionFacts._cursor_execute_runs.
    match goal with
    | |- context [dbapi (executed cur) ?st] => change st with (ON self)
    end.
    rewrite Hreply. simpl. split; [reflexivity|].
    match goal with
    | |- context [handle_dbapi_exception ?d ?f ?en ?c ?e ?cu] =>
      destruct (ExecutionFacts.handle_dbapi_exception_returns d f en c e cu)
        as [_ H]; rewrite H
    end.
    simpl. rewrite <- List.app_assoc. reflexivity. }
  split; [exact Hout|]. split; [exact Hlog|].
  unfold execute_context, bindM at 1.
  destruct (pre self cur) as [[self1|e] cur1]; simpl in Hout; [discriminate|].
  simpl. congruence.
Qed.

End Context.

(** *** The scenarios *)

Lemma rowcount_is_of_the_main_statement_witness :
  exists self2 cur2,
    post_exec silent_db name (fun s => s) update_returning after_update
    = (Return self2, cur2)
    /\ isupdate update_returning = true
    /\ Execution.rowcount cur2 = -1
    /\ rowcount self2 cur2 = (Return 3, cur2).
Proof.
  pose (self2 := set_fetch_strategy (FullyBufferedCursorFetchStrategy three_rows)
                   (set_rowcount 3 update_returning)).
  pose (cur2 := {| executed := [update_text; "SET IDENTITY_INSERT t OFF"];
                   Execution.rowcount := -1; rows := [] |}).
  assert (post_exec silent_db name (fun s => s) update_returning after_update
          = (Return self2, cur2)) as Hpost by (vm_compute; reflexivity).
  exists self2, cur2. split; [exact Hpost|]. split; [reflexivity|].
  split; [reflexivity|].
  exact (proj1 (rowcount_is_of_the_main_statement silent_db name (fun s => s)
                  update_returning self2 after_update cur2 Hpost) eq_refl).
Defined.

Lemma lastrowid_fetch_failures_witness :
  let self := set_flags false true (insert_x false) in
  _select_lastrowid self = true
  /\ fst (post_exec null_identity_db name (fun s => s) self new_cursor) = Raise TypeError
  /\ executed (snd (post_exec null_identity_db name (fun s => s) self new_cursor))
     = [scope_identity_query].
Proof.
  intros self. split; [reflexivity|].
  exact (proj2 (proj2 (proj2
           (lastrowid_fetch_failures null_identity_db name (fun s => s) self
              new_cursor eq_refl))) 1 [] [] eq_refl).
Defined.

Lemma returning_rows_are_buffered_witness :
  exists self2 cur2,
    post_exec silent_db name (fun s => s) update_returning after_update
    = (Return self2, cur2)
    /\ returning (compiled update_returning) = true
    /\ cursor_fetch_strategy self2 = Some (FullyBufferedCursorFetchStrategy three_rows)
    /\ executed cur2 = [update_text; "SET IDENTITY_INSERT t OFF"].
Proof.
  pose (self2 := set_fetch_strategy (FullyBufferedCursorFetchStrategy three_rows)
                   (set_rowcount 3 update_returning)).
  pose (cur2 := {| executed := [update_text; "SET IDENTITY_INSERT t OFF"];
                   Execution.rowcount := -1; rows := [] |}).
  assert (post_exec silent_db name (fun s => s) update_returning after_update
          = (Return self2, cur2)) as Hpost by (vm_compute; reflexivity).
  exists self2, cur2. split; [exact Hpost|]. split; [reflexivity|].
  exact (returning_rows_are_buffered silent_db name (fun s => s) update_returning
           self2 after_update cur2 eq_refl eq_refl eq_refl Hpost).
Defined.

Lemma identity_insert_enabled_iff_witness :
  let self1 := set_flags true false insert_id_x in
  let cur1 := {| executed := ["SET IDENTITY_INSERT t ON"];
                 Execution.rowcount := 1; rows := [] |} in
  isinsert insert_id_x = true
  /\ pre_exec obliging_db name (fun s => s) insert_id_x new_cursor = (Return self1, cur1)
  /\ _enable_identity_insert self1 && _select_lastrowid self1 = false
  /\ executed cur1 = ["SET IDENTITY_INSERT t ON"].
Proof.
  intros self1 cur1.
  assert (pre_exec obliging_db name (fun s => s) insert_id_x new_cursor
          = (Return self1, cur1)) as Hpre by (vm_compute; reflexivity).
  split; [reflexivity|]. split; [exact Hpre|].
  exact (proj2 (proj2 (identity_insert_enabled_iff obliging_db name (fun s => s)
                         insert_id_x new_cursor eq_refl) self1 cur1 Hpre)).
Defined.

Lemma rejected_enabling_is_cleaned_up_witness :
  isinsert insert_id_x = true
  /\ locked_db [] "SET IDENTITY_INSERT t ON" = Error "permission denied"
  /\ execute_context locked_db name (fun s => s) insert_id_x insert_id_x_text new_cursor
     = (Raise (DBAPIError "permission denied"),
        {| executed := ["SET IDENTITY_INSERT t ON"; "SET IDENTITY_INSERT t OFF"];
           Execution.rowcount := 0; rows := [] |}).
Proof.
  split; [reflexivity|]. split; [reflexivity|].
  destruct (rejected_enabling_is_cleaned_up locked_db name (fun s => s) insert_id_x
              new_cursor id_column insert_id_x_text "permission denied"
              eq_refl eq_refl eq_refl eq_refl eq_refl) as (_ & _ & Hrun).
  rewrite Hrun. reflexivity.
Defined.

End ContextFacts.

(** ** Schema names: further properties *)

Module ResolutionFacts.
Import Py Schema SchemaSpec Preparer StrFacts SchemaFacts.

Lemma split_without_free_dot (schema : string) :
  has_free_dot false schema = false ->
  split_schema schema
  = (None,
     if truthy_str (without_brackets schema)
     then Some (Str (without_brackets schema)) else None).
Proof.
  intros Hf. rewrite split_schema_scan.
  rewrite (scan_no_free_dot schema loop_start Hf). unfold finish. simpl.
  destruct (without_brackets schema); reflexivity.
Qed.

Lemma contains_dot_free (b : bool) (s : string) :
  contains_dot s = false -> has_free_dot b s = false.
Proof.
  revert b. induction s as [|ch s IH]; intros b H; [reflexivity|].
  simpl in *. apply orb_false_elim in H as [-> H]. simpl. apply IH, H.
Qed.

Lemma without_brackets_id (s : string) :
  without_brackets s = s <-> has_open s = false /\ mentions "]" s = false.
Proof.
  assert (forall t, (String.length (without_brackets t) <= String.length t)%nat) as Hlen.
  { induction t as [|ch t IH]; simpl; [lia|].
    destruct (Ascii.eqb ch "[" || Ascii.eqb ch "]"); simpl; lia. }
  induction s as [|ch s IH]; simpl; [tauto|].
  destruct (Ascii.eqb ch "[") eqn:Ho; simpl.
  - split; [|intros [H _]; discriminate H].
    intros H. pose proof (Hlen s) as Hl. rewrite H in Hl. simpl in Hl. lia.
  - destruct (Ascii.eqb ch "]") eqn:Hc; simpl.
    + split; [|intros [_ H]; discriminate H].
      intros H. pose proof (Hlen s) as Hl. rewrite H in Hl. simpl in Hl. lia.
    + split.
      * intros H. injection H as H. apply IH, H.
      * intros H. f_equal. apply IH, H.
Qed.

(** X5. A schema string without a "." outside brackets is not split: it
    resolves to no database and, as owner, to its text without
    brackets, or to no owner at all when nothing is left of it.  So
    "[a.b]" is the owner "a.b", and "" and "[]" name nothing.  This holds
    whatever sound memo the call finds. *)
Theorem undotted_schema_is_the_owner (schema : string) (memo : LRUCache) :
  cache_sound memo ->
  has_free_dot false schema = false ->
  fst (_schema_elements (Str schema) memo)
  = (None,
     if truthy_str (without_brackets schema)
     then Some (Str (without_brackets schema)) else None).
Proof.
  intros Hs Hf.
  destruct (schema_elements_split (Str schema) memo Hs) as [-> _]; [discriminate|].
  apply split_without_free_dot, Hf.
Qed.

(** X6. The memo never changes an answer: after any run of calls that
    starts with an empty memo, of any capacity, [_schema_elements]
    resolves a schema as it does with the empty memo. *)
Theorem memo_never_changes_the_answer (n : nat) (calls : list PyStr) (schema : PyStr) :
  let memo :=
    fold_left (fun memo schema => snd (_schema_elements schema memo)) calls
      (empty_cache n) in
  fst (_schema_elements schema memo) = fst (_schema_elements schema (empty_cache n)).
Proof.
  intros memo.
  assert (cache_sound memo) as Hs by apply memo_stays_sound, empty_cache_sound.
  assert (forall schema,
             (forall s, schema <> quoted_name s (Some true)) ->
             fst (_schema_elements schema memo)
             = fst (_schema_elements schema (empty_cache n))) as Hsplit.
  { intros schema' Hq.
    destruct (schema_elements_split schema' memo Hs Hq) as [-> _].
    destruct (schema_elements_split schema' (empty_cache n) (empty_cache_sound n) Hq)
      as [-> _].
    reflexivity. }
  destruct schema as [s|s [[|]|]]; try reflexivity; apply Hsplit; discriminate.
Qed.

(** X7. [_owner_plus_db] hands a schema with a "." to [_schema_elements]
    and returns any other non-empty schema as the owner, as it is,
    without touching the memo.  On a name without a "." the two agree
    exactly when the name has no bracket: [_owner_plus_db] keeps the
    brackets that [_schema_elements] drops.  No schema, or an empty one,
    resolves to the default schema of the dialect. *)
Theorem owner_plus_db_keeps_brackets (d : MSDialect) (s : string) (memo : LRUCache) :
  cache_sound memo ->
  s <> "" ->
  (contains_dot s = true ->
   _owner_plus_db d (Some (Str s)) memo = _schema_elements (Str s) memo)
  /\ (contains_dot s = false ->
      _owner_plus_db d (Some (Str s)) memo = ((None, Some (Str s)), memo)
      /\ (fst (_schema_elements (Str s) memo) = (None, Some (Str s))
          <-> has_open s = false /\ mentions "]" s = false))
  /\ _owner_plus_db d None memo = ((None, Some (default_schema_name d)), memo)
  /\ _owner_plus_db d (Some (Str "")) memo = ((None, Some (default_schema_name d)), memo).
Proof.
  intros Hs Hne.
  assert (truthy_str s = true) as Ht by (destruct s; [congruence|reflexivity]).
  split; [|split; [|split; reflexivity]].
  - intros Hd. unfold _owner_plus_db. simpl text. rewrite Ht, Hd. reflexivity.
  - intros Hd. split.
    + unfold _owner_plus_db. simpl text. rewrite Ht, Hd. reflexivity.
    + destruct (schema_elements_split (Str s) memo Hs) as [-> _]; [discriminate|].
      simpl text. rewrite (split_without_free_dot s (contains_dot_free false s Hd)).
      rewrite <- without_brackets_id.
      destruct (without_brackets s) eqn:Hw; simpl.
      * split; [discriminate|]. intros H. congruence.
      * split; [intros [= H]; exact H|]. intros <-. reflexivity.
Qed.

Section Quote.

Variable quote : option PyStr -> string.

Local Abbreviation quoted schema force memo := (fst (fst (quote_schema quote schema force memo))).

Lemma quote_schema_text (schema : PyStr) (force : option bool) (memo : LRUCache)
    (dbname owner : option PyStr) :
  fst (_schema_elements schema memo) = (dbname, owner) ->
  quoted schema force memo
  = if truthy_name dbname then quote dbname ++ "." ++ quote owner
    else if truthy_name owner then quote owner
    else "".
Proof.
  unfold quote_schema. destruct (_schema_elements schema memo) as [[db ow] memo'].
  simpl. intros [= -> ->]. reflexivity.
Qed.

(** X8. [quote_schema] quotes the parts that [_schema_elements] finds
    and joins them with a ".".  A schema without a "." outside brackets
    is quoted as one name, without its brackets, and gives the empty
    text when nothing is left of it.  A schema split at its last "."
    outside brackets, whatever the text before that "." is, gives the
    quoted database, a "." and the quoted owner; when nothing is left of
    the database part, as in ".b", the database is dropped and the owner
    alone is quoted.  When the text before the "." has no further "."
    outside brackets or no "[", the database quoted is that text without
    its brackets.  A name marked as quoted is quoted whole.  The [force]
    argument has no effect on the text. *)
Theorem quote_schema_joins_the_parts (schema pre post : string) (force : option bool)
    (memo : LRUCache) :
  cache_sound memo ->
  (has_free_dot false schema = false ->
   quoted (Str schema) force memo
   = if truthy_str (without_brackets schema)
     then quote (Some (Str (without_brackets schema))) else "")
  /\ (last_free_dot false schema = Some (pre, post) ->
      without_brackets post <> "" ->
      quoted (Str schema) force memo
      = (if truthy_str (text (dbname_of (database_text pre)))
         then quote (Some (dbname_of (database_text pre))) ++ "."
                ++ quote (Some (Str (without_brackets post)))
         else quote (Some (Str (without_brackets post))))
      /\ (has_free_dot false pre = false \/ has_open pre = false ->
          quoted (Str schema) force memo
          = if truthy_str (without_brackets pre)
            then quote (Some (Str (without_brackets pre))) ++ "."
                   ++ quote (Some (Str (without_brackets post)))
            else quote (Some (Str (without_brackets post)))))
  /\ (forall s,
         quoted (quoted_name s (Some true)) force memo
         = if truthy_str s then quote (Some (quoted_name s (Some true))) else "")
  /\ (forall name, quoted name force memo = quoted name None memo).
Proof.
  intros Hs. split; [|split; [|split]].
  - intros Hf.
    destruct (schema_elements_split (Str schema) memo Hs) as [Hr _]; [discriminate|].
    simpl text in Hr. rewrite (split_without_free_dot schema Hf) in Hr.
    rewrite (quote_schema_text _ _ _ _ _ Hr). unfold truthy_name.
    destruct (truthy_str (without_brackets schema)) eqn:Ht; simpl; rewrite ?Ht;
      reflexivity.
  - intros Hsplit Hpost.
    destruct (schema_elements_split (Str schema) memo Hs) as [Hr _]; [discriminate|].
    simpl text in Hr.
    rewrite (split_at_last_free_dot schema pre post Hsplit Hpost) in Hr.
    rewrite (quote_schema_text _ _ _ _ _ Hr). unfold truthy_name.
    assert (truthy_str (text (Str (without_brackets post))) = true) as Hown.
    { simpl. destruct (without_brackets post); [congruence|reflexivity]. }
    rewrite Hown.
    split; [reflexivity|].
    intros Hpre. rewrite (database_of_simple_text pre Hpre). reflexivity.
  - intros s. apply (quote_schema_text _ _ _ None (Some (quoted_name s (Some true)))).
    reflexivity.
  - intros name. unfold quote_schema.
    destruct (_schema_elements name memo) as [[db ow] memo']. reflexivity.
Qed.

End Quote.

(** *** Doubling and its inverse *)

Lemma prefix_one (c a : ascii) (s : string) :
  String.prefix (String c "") (String a s) = Ascii.eqb c a.
Proof.
  simpl. destruct (Ascii.ascii_dec c a) as [->|Hn].
  - rewrite Ascii.eqb_refl. destruct s; reflexivity.
  - symmetry. apply Ascii.eqb_neq, Hn.
Qed.

Lemma prefix_two (c a : ascii) (s : string) :
  Ascii.eqb c a = false -> String.prefix (String c (String c "")) (String a s) = false.
Proof.
  intros Hn. simpl. destruct (Ascii.ascii_dec c a) as [->|_]; [|reflexivity].
  rewrite Ascii.eqb_refl in Hn. discriminate.
Qed.

Lemma prefix_two_match (c : ascii) (s : string) :
  String.prefix (String c (String c "")) (String c (String c s)) = true.
Proof.
  simpl. destruct (Ascii.ascii_dec c c) as [_|Hn]; [|congruence]. destruct s; reflexivity.
Qed.

(** Doubling a character, one character of the text at a time. *)
Lemma double_cons (c a : ascii) (s : string) :
  replace_from 0 (String c "") (String c (String c "")) (String a s)
  = if Ascii.eqb c a
    then String c (String c (replace_from 0 (String c "") (String c (String c "")) s))
    else String a (replace_from 0 (String c "") (String c (String c "")) s).
Proof.
  cbn [replace_from]. rewrite prefix_one.
  destruct (Ascii.eqb c a); reflexivity.
Qed.

Lemma double_app (c : ascii) (s t : string) :
  replace_from 0 (String c "") (String c (String c "")) (s ++ t)
  = replace_from 0 (String c "") (String c (String c "")) s
      ++ replace_from 0 (String c "") (String c (String c "")) t.
Proof.
  induction s as [|a s IH]; [reflexivity|].
  rewrite append_cons, !double_cons, IH.
  destruct (Ascii.eqb c a); rewrite ?append_cons; reflexivity.
Qed.

(** Replacing each doubled character by one undoes the doubling. *)
Lemma undouble_double (c : ascii) (s : string) :
  replace_from 0 (String c (String c "")) (String c "")
    (replace_from 0 (String c "") (String c (String c "")) s) = s.
Proof.
  induction s as [|a s IH]; [reflexivity|].
  rewrite double_cons. destruct (Ascii.eqb c a) eqn:Hc.
  - apply Ascii.eqb_eq in Hc. subst a.
    set (d := replace_from 0 (String c "") (String c (String c "")) s) in *.
    cbn [replace_from]. rewrite prefix_two_match. cbn [String.length Nat.sub].
    rewrite append_cons, append_nil_l. f_equal.
    cbn [replace_from]. exact IH.
  - set (d := replace_from 0 (String c "") (String c (String c "")) s) in *.
    cbn [replace_from]. rewrite (prefix_two c a d Hc). f_equal. exact IH.
Qed.

(** X9. Escaping an identifier doubles each "]", and unescaping undoes
    it: [_unescape_identifier] recovers every value from its escaped
    form.  The converse fails: a value with a single "]" is not the
    escaped form of anything, and escaping what it unescapes to gives
    another text. *)
Theorem unescape_undoes_escape (value : string) :
  _unescape_identifier (_escape_identifier value) = value
  /\ _escape_identifier (_unescape_identifier "a]b") <> "a]b".
Proof.
  split; [apply undouble_double|]. vm_compute. discriminate.
Qed.

Lemma read_quoted_doubled (value tail : string) :
  String.prefix "'" tail = false ->
  read_quoted (replace_from 0 "'" "''" value ++ "'" ++ tail) = Some (value, tail).
Proof.
  intros Htail.
  assert (read_quoted ("'" ++ tail) = Some ("", tail)) as Hend.
  { rewrite append_cons, append_nil_l. cbn [read_quoted]. rewrite Ascii.eqb_refl.
    destruct tail as [|ch tail]; [reflexivity|].
    rewrite prefix_one in Htail. rewrite Ascii.eqb_sym, Htail. reflexivity. }
  set (r := "'" ++ tail) in *.
  induction value as [|a value IH].
  - cbn [replace_from]. rewrite append_nil_l. exact Hend.
  - rewrite double_cons. destruct (Ascii.eqb "'" a) eqn:Hq.
    + apply Ascii.eqb_eq in Hq. subst a. rewrite !append_cons.
      cbn [read_quoted]. rewrite Ascii.eqb_refl. rewrite IH. reflexivity.
    + rewrite append_cons. cbn [read_quoted].
      rewrite Ascii.eqb_sym, Hq, IH. reflexivity.
Qed.

(** X10. A value rendered as an [N'...'] literal cannot break out of it:
    read back as the server reads a literal, with two quotes in a row
    standing for one, the text gives the value again and ends where the
    literal ends.  When percent signs are doubled as well, halving them
    as the driver does gives the same literal. *)
Theorem literal_reads_back (value tail : string) :
  String.prefix "'" tail = false ->
  read_literal (literal_processor false value ++ tail) = Some (value, tail)
  /\ replace "%%" "%" (literal_processor true value) = literal_processor false value.
Proof.
  intros Htail. unfold literal_processor, replace. split.
  - rewrite !append_cons, append_nil_l. cbn [read_literal].
    rewrite append_assoc. apply read_quoted_doubled, Htail.
  - change ("N'" ++ replace_from 0 "%" "%%" (replace_from 0 "'" "''" value) ++ "'")
      with (replace_from 0 "%" "%%" "N'"
              ++ replace_from 0 "%" "%%" (replace_from 0 "'" "''" value)
              ++ replace_from 0 "%" "%%" "'").
    rewrite <- !double_app. apply undouble_double.
Qed.

(** *** The scenarios *)

Lemma undotted_schema_is_the_owner_witness :
  cache_sound (empty_cache 100)
  /\ has_free_dot false "[a.b]" = false
  /\ fst (_schema_elements (Str "[a.b]") (empty_cache 100)) = (None, Some (Str "a.b")).
Proof.
  split; [apply empty_cache_sound|]. split; [reflexivity|].
  exact (undotted_schema_is_the_owner "[a.b]" (empty_cache 100)
           (empty_cache_sound 100) eq_refl).
Defined.

Lemma owner_plus_db_keeps_brackets_witness :
  cache_sound (empty_cache 100)
  /\ "[dbo]" <> ""
  /\ _owner_plus_db default_dialect (Some (Str "[dbo]")) (empty_cache 100)
     = ((None, Some (Str "[dbo]")), empty_cache 100)
  /\ fst (_schema_elements (Str "[dbo]") (empty_cache 100)) = (None, Some (Str "dbo")).
Proof.
  assert ("[dbo]" <> "") as Hne by discriminate.
  split; [apply empty_cache_sound|]. split; [exact Hne|].
  split; [|reflexivity].
  exact (proj1 (proj1 (proj2 (owner_plus_db_keeps_brackets default_dialect "[dbo]"
                                (empty_cache 100) (empty_cache_sound 100) Hne))
                  eq_refl)).
Defined.

Lemma quote_schema_joins_the_parts_witness :
  cache_sound (empty_cache 100)
  /\ last_free_dot false "my db.dbo" = Some ("my db", "dbo")
  /\ fst (fst (quote_schema bracket_quote (Str "my db.dbo") None (empty_cache 100)))
     = "[my db].[dbo]".
Proof.
  assert (without_brackets "dbo" <> "") as Hpost by (vm_compute; discriminate).
  split; [apply empty_cache_sound|]. split; [reflexivity|].
  exact (proj2 (proj1 (proj2 (quote_schema_joins_the_parts bracket_quote "my db.dbo"
                                "my db" "dbo" None (empty_cache 100)
                                (empty_cache_sound 100)))
                  eq_refl Hpost) (or_introl eq_refl)).
Defined.

Lemma literal_reads_back_witness :
  String.prefix "'" " AND x = 1" = false
  /\ literal_processor false "O'Brien" = "N'O''Brien'"
  /\ read_literal ("N'O''Brien' AND x = 1") = Some ("O'Brien", " AND x = 1").
Proof.
  split; [reflexivity|]. split; [reflexivity|].
  exact (proj1 (literal_reads_back "O'Brien" " AND x = 1" eq_refl)).
Defined.

End ResolutionFacts.

(** ** Pagination: further properties *)

Module PaginationFacts.
Import Py Compiler CompilerSpec Dialect StrFacts TypeFacts CompilerFacts.

Section Hooks.

Variable process : bool -> ClauseElement -> string.
Variable process_from : FromClause -> string.
Variable super_get_select_precolumns : Select -> string.
Variable c : FromClause -> list ClauseElement.
Variable key : ClauseElement -> option string.
Variable unwrap_label_reference : ClauseElement -> ClauseElement.

Local Abbreviation translate := (translate_select_structure c key unwrap_label_reference).
Local Abbreviation precolumns := (get_select_precolumns process super_get_select_precolumns).
Local Abbreviation render :=
  (visit_select process process_from super_get_select_precolumns c key
     unwrap_label_reference).
Local Abbreviation order_by_text s :=
  (let order_by := String.concat ", " (map (process false) (_order_by_clauses s)) in
   if truthy_str order_by then " ORDER BY " ++ order_by else "").

(** X11. With native OFFSET / FETCH, a statement whose LIMIT or OFFSET
    asks for an ORDER BY, and has it, gets no TOP and the clause
    [OFFSET n ROWS], followed by [FETCH NEXT m ROWS ONLY] when it has a
    LIMIT; both are rendered as bound parameters.  A FETCH never comes
    without an OFFSET: a statement with a LIMIT expression and no OFFSET
    gets [OFFSET 0 ROWS]. *)
Theorem offset_fetch_text (d : MSDialect) (s : Select) :
  _supports_offset_fetch d = true ->
  needs_order_by s = true ->
  _order_by_clauses s <> [] ->
  limit_clause process d s
  = Return
      (newline ++ " OFFSET "
         ++ match _offset_clause s with
            | Some offset => process false offset
            | None => "0"
            end
         ++ " ROWS"
         ++ match _limit_clause s with
            | Some limit =>
              newline ++ " FETCH NEXT " ++ process false limit ++ " ROWS ONLY "
            | None => ""
            end)
  /\ precolumns s = Return (super_get_select_precolumns s)
  /\ translate d s = Return s.
Proof.
  intros Hsup Hneeds Ho. split; [|split].
  - unfold limit_clause. rewrite skips_offset_fetch_eq, Hsup, Hneeds. simpl.
    destruct (_order_by_clauses s); [congruence|]. simpl.
    destruct (_limit_clause s).
    + rewrite !append_assoc. reflexivity.
    + rewrite append_nil_r. reflexivity.
  - apply top_rendered. rewrite uses_top_eq, Hneeds, andb_false_r. reflexivity.
  - apply translate_keeps. rewrite uses_row_number_eq, Hsup. reflexivity.
Qed.

(** X12. At the top level the ORDER BY is always rendered, whatever the
    LIMIT and the OFFSET are: rendering it never reads them.  In a
    subquery [order_by_clause] returns exactly when it can read them as
    integers, the LIMIT being a plain integer or absent and, unless it
    is a plain integer other than 0, so the OFFSET; for a LIMIT and an
    OFFSET that are plain integers or absent, the ORDER BY is rendered
    exactly when the LIMIT is not 0 or, with native OFFSET / FETCH, the
    OFFSET is not 0; so it is there whenever [limit_clause] renders an
    OFFSET, which needs it, and it is dropped from a subquery without
    LIMIT and OFFSET. *)
Theorem subquery_order_by_follows_pagination (d : MSDialect) (s : Select) :
  order_by_clause process d false s = Return (order_by_text s)
  /\ ((exists text, order_by_clause process d true s = Return text)
      <-> readable_in_subquery s = true)
  /\ forall l o,
       _limit s = Return l ->
       _offset s = Return o ->
       order_by_clause process d true s
       = Return (if truthy_int l || truthy_int o && _supports_offset_fetch d
                 then order_by_text s else "")
       /\ (forall text,
              limit_clause process d s = Return text -> text <> "" ->
              order_by_clause process d true s = Return (order_by_text s))
       /\ (_limit_clause s = None -> _offset_clause s = None ->
           order_by_clause process d true s = Return "").
Proof.
  split; [|split].
  { unfold order_by_clause. simpl.
    destruct (truthy_str (String.concat ", " (map (process false) (_order_by_clauses s))));
      reflexivity. }
  { apply (order_by_clause_returns process d true s). }
  intros l o Hl Hoff.
  assert (order_by_clause process d true s
          = Return (if truthy_int l || truthy_int o && _supports_offset_fetch d
                    then order_by_text s else "")) as Hsub.
  { unfold order_by_clause. rewrite Hl, Hoff. simpl.
    destruct (truthy_int l), (truthy_int o), (_supports_offset_fetch d); simpl;
      try reflexivity;
      destruct (truthy_str (String.concat ", " (map (process false) (_order_by_clauses s))));
      reflexivity. }
  split; [exact Hsub|split].
  - intros text Htext Hne. rewrite Hsub.
    unfold limit_clause in Htext. rewrite skips_offset_fetch_eq in Htext.
    simpl in Htext.
    destruct (_supports_offset_fetch d); simpl in Htext; [|congruence].
    destruct (needs_order_by s) eqn:Hneeds; simpl in Htext; [|congruence].
    assert (truthy_int o = true) as ->; [|rewrite orb_true_r; reflexivity].
    unfold needs_order_by, non_simple, offset_nonzero in Hneeds.
    unfold _limit, _offset, _offset_or_limit_clause_asint in Hl, Hoff.
    destruct (_limit_clause s) as [[]|]; try discriminate Hl;
      destruct (_offset_clause s) as [[]|]; try discriminate Hoff;
      simpl in Hneeds; try discriminate Hneeds;
      injection Hoff as <-; exact Hneeds.
  - intros Hnl Hno. rewrite Hsub. unfold _limit, _offset in Hl, Hoff.
    rewrite Hnl in Hl. rewrite Hno in Hoff. simpl in Hl, Hoff.
    injection Hl as <-. injection Hoff as <-. reflexivity.
Qed.

(** X13. The subquery built by the rewrite keeps the columns of the
    statement, in order, followed by the rank column [mssql_rn], which
    ranks by the ORDER BY of the statement; it keeps its FROM object and
    its WHERE clause.  The outer query selects the columns of the
    subquery other than the rank: no column keyed [mssql_rn] is
    returned. *)
Theorem rank_column_is_hidden (d : MSDialect) (s : Select) :
  _supports_offset_fetch d = false ->
  needs_order_by s = true ->
  _mssql_visit s = false ->
  _order_by_clauses s <> [] ->
  exists outer inner,
    translate d s = Return outer
    /\ from_obj outer = Alias inner
    /\ columns inner
       = app (columns s)
           [Label "mssql_rn"
              (ROW_NUMBER_over (map unwrap_label_reference (_order_by_clauses s)))]
    /\ from_obj inner = from_obj s
    /\ _where_criteria inner = _where_criteria s
    /\ columns outer
       = List.filter (fun col => negb (bool_decide (key col = Some "mssql_rn")))
           (c (Alias inner))
    /\ (forall col, In col (columns outer) -> key col <> Some "mssql_rn").
Proof.
  intros Hsup Hneeds Htag Ho.
  assert (uses_row_number d s = Return true) as Hu.
  { rewrite uses_row_number_eq, Hsup, Hneeds, Htag. reflexivity. }
  pose proof (translate_rewrites c key unwrap_label_reference d s Hu Ho) as Ht.
  cbv zeta in Ht. rewrite Ht.
  eexists _, _. split; [reflexivity|].
  assert (forall l col,
             In col (List.filter
                       (fun col => negb (bool_decide (key col = Some "mssql_rn"))) l) ->
             key col <> Some "mssql_rn") as Hfilter.
  { intros l col Hin. apply List.filter_In in Hin as [_ Hk].
    apply negb_true_iff, bool_decide_eq_false in Hk. exact Hk. }
  destruct (_offset_clause s), (_limit_clause s); simpl;
    (split; [reflexivity|]); repeat (split; [reflexivity|]); apply Hfilter.
Qed.

(** X14. The version probe decides the strategy.  After
    [_setup_version_attributes], the top-level render call of an
    untagged statement whose LIMIT or OFFSET asks for an ORDER BY, and
    has it, gives a text, and of the three strategies, as they show in
    what [translate_select_structure], [get_select_precolumns] and
    [limit_clause] return in that call, it applies the native OFFSET /
    FETCH when the major version of the server is 11 or more, the
    [ROW_NUMBER] rewrite otherwise, and no other. *)
Theorem version_decides_the_strategy (d d' : MSDialect) (warnings : list string)
    (s : Select) :
  _setup_version_attributes d = Return (d', warnings) ->
  needs_order_by s = true ->
  _mssql_visit s = false ->
  _order_by_clauses s <> [] ->
  exists major rest text translated pre lim,
    server_version_info d = major :: rest
    /\ render d' false s = Return text
    /\ translate d' s = Return translated
    /\ precolumns translated = Return pre
    /\ limit_clause process d' translated = Return lim
    /\ forall strategy,
         applied s translated (super_get_select_precolumns translated) pre lim strategy
         <-> strategy = if 11 <=? major then NativeOffsetFetch else RowNumberRewrite.
Proof.
  intros Hsetup Hneeds Htag Ho. unfold _setup_version_attributes in Hsetup.
  destruct (server_version_info d) as [|major rest] eqn:Hv; [discriminate|].
  injection Hsetup as Hd _. exists major, rest.
  assert (_supports_offset_fetch d' = (11 <=? major)) as Hsup
    by (rewrite <- Hd; reflexivity).
  clear Hd.
  assert (renders d' false s = true) as Hrenders.
  { unfold renders, rewrite_due. rewrite Hneeds, Htag.
    destruct (_order_by_clauses s); [congruence|].
    destruct (_supports_offset_fetch d'); reflexivity. }
  destruct (proj2 (render_returns_iff process process_from super_get_select_precolumns
                     c key unwrap_label_reference d' false s) Hrenders) as [text Htext].
  destruct (render_hooks process process_from super_get_select_precolumns c key
              unwrap_label_reference d' false s text Htext)
    as (translated & pre & lim & Htr & Hpre & Hlim & Hrw & Htop & Hnative & _).
  exists text, translated, pre, lim.
  split; [reflexivity|]. split; [exact Htext|]. split; [exact Htr|].
  split; [exact Hpre|]. split; [exact Hlim|].
  unfold rewrite_due in Hrw. rewrite Hsup, Hneeds, Htag in Hrw.
  rewrite Hsup, Hneeds in Hnative. rewrite Hneeds, andb_false_r in Htop.
  intros []; simpl.
  - rewrite Hnative. destruct (11 <=? major); simpl; split; congruence.
  - rewrite Htop. destruct (11 <=? major); split; discriminate.
  - rewrite Hrw. destruct (11 <=? major); simpl; split; congruence.
Qed.

End Hooks.

(** *** The scenarios *)

Lemma offset_fetch_text_witness :
  let s := select_x_from_t [ColumnClause "x"]
             (Some (_OffsetLimitParam 5)) (Some (_OffsetLimitParam 10)) in
  _supports_offset_fetch mssql_2012 = true
  /\ needs_order_by s = true
  /\ _order_by_clauses s <> []
  /\ limit_clause basic_process mssql_2012 s
     = Return (newline ++ " OFFSET :param ROWS"
                 ++ newline ++ " FETCH NEXT :param ROWS ONLY ")
  /\ basic_visit_select mssql_2012 false s
     = Return ("SELECT x FROM t ORDER BY x" ++ newline ++ " OFFSET :param ROWS"
                 ++ newline ++ " FETCH NEXT :param ROWS ONLY ").
Proof.
  intros s.
  assert (_order_by_clauses s <> []) as Ho by discriminate.
  split; [reflexivity|]. split; [reflexivity|]. split; [exact Ho|].
  split; [|reflexivity].
  exact (proj1 (offset_fetch_text basic_process (fun _ => "") basic_c basic_key
                  (fun e => e) mssql_2012 s eq_refl eq_refl Ho)).
Defined.

Lemma subquery_order_by_follows_pagination_witness :
  let s := select_x_from_t [ColumnClause "x"] None (Some (_OffsetLimitParam 10)) in
  let unreadable := select_x_from_t [ColumnClause "x"] (Some (TextClause "@n")) None in
  _limit s = Return None
  /\ _offset s = Return (Some 10)
  /\ order_by_clause basic_process mssql_2012 true s = Return " ORDER BY x"
  /\ order_by_clause basic_process mssql_2008 true s = Return ""
  /\ order_by_clause basic_process mssql_2012 false unreadable = Return " ORDER BY x".
Proof.
  intros s unreadable. split; [reflexivity|]. split; [reflexivity|]. split; [|split].
  - exact (proj1 (proj2 (proj2 (subquery_order_by_follows_pagination basic_process
                                  mssql_2012 s)) None (Some 10) eq_refl eq_refl)).
  - exact (proj1 (proj2 (proj2 (subquery_order_by_follows_pagination basic_process
                                  mssql_2008 s)) None (Some 10) eq_refl eq_refl)).
  - exact (proj1 (subquery_order_by_follows_pagination basic_process mssql_2012
                    unreadable)).
Defined.

Lemma rank_column_is_hidden_witness :
  let s := select_x_from_t [ColumnClause "x"]
             (Some (_OffsetLimitParam 5)) (Some (_OffsetLimitParam 10)) in
  _order_by_clauses s <> []
  /\ exists outer inner,
       basic_translate mssql_2008 s = Return outer
       /\ from_obj outer = Alias inner
       /\ columns inner
          = [ColumnClause "x"; Label "mssql_rn" (ROW_NUMBER_over [ColumnClause "x"])]
       /\ columns outer = [ColumnClause "x"].
Proof.
  intros s.
  assert (_order_by_clauses s <> []) as Ho by discriminate.
  split; [exact Ho|].
  destruct (rank_column_is_hidden basic_c basic_key (fun e => e) mssql_2008 s
              eq_refl eq_refl eq_refl Ho)
    as (outer & inner & Ht & Hfrom & Hcols & _ & _ & Houter & _).
  exists outer, inner. split; [exact Ht|]. split; [exact Hfrom|].
  split; [exact Hcols|]. rewrite Houter.
  unfold basic_c, flat_map. rewrite Hcols. reflexivity.
Defined.

Lemma version_decides_the_strategy_witness :
  let s := select_x_from_t [ColumnClause "x"]
             (Some (_OffsetLimitParam 5)) (Some (_OffsetLimitParam 10)) in
  exists d' warnings text outer,
    _setup_version_attributes mssql_2008 = Return (d', warnings)
    /\ _order_by_clauses s <> []
    /\ basic_visit_select d' false s = Return text
    /\ basic_translate d' s = Return outer
    /\ outer <> s
    /\ limit_clause basic_process d' outer = Return "".
Proof.
  intros s.
  assert (_order_by_clauses s <> []) as Ho by discriminate.
  destruct (version_decides_the_strategy basic_process basic_from (fun _ => "") basic_c
              basic_key (fun e => e) mssql_2008 _ _ s eq_refl eq_refl eq_refl Ho)
    as (major & rest & text & outer & pre & lim & Hv & Htext & Htr & Hpre & Hlim & Hone).
  injection Hv as <- _.
  eexists _, _, text, outer. split; [reflexivity|]. split; [exact Ho|].
  split; [exact Htext|]. split; [exact Htr|].
  split; [exact (proj2 (Hone RowNumberRewrite) eq_refl)|].
  assert (lim = "") as ->; [|exact Hlim].
  destruct (string_dec lim "") as [E|E]; [exact E|].
  discriminate (proj1 (Hone NativeOffsetFetch) E).
Defined.

End PaginationFacts.

(** ** The version probe: further properties *)

Module DialectFacts.
Import Py Dialect TypeFacts.

(** X15. [_setup_version_attributes] can be run again: on the dialect it
    returned it returns the same dialect, with the same warnings.  When
    the caller left [deprecate_large_types] unset, the flag it sets is
    that of the native OFFSET / FETCH: both hold from major version 11
    on.  The version itself is left as it was; with no version at all,
    the empty tuple a dialect starts with, the call raises
    [IndexError]. *)
Theorem version_setup_can_be_repeated (d d' : MSDialect) (warnings : list string) :
  _setup_version_attributes d = Return (d', warnings) ->
  _setup_version_attributes d' = Return (d', warnings)
  /\ server_version_info d' = server_version_info d
  /\ (deprecate_large_types d = None ->
      deprecate_large_types d' = Some (_supports_offset_fetch d'))
  /\ (forall d0, server_version_info d0 = [] ->
                 _setup_version_attributes d0 = Raise IndexError).
Proof.
  unfold _setup_version_attributes.
  destruct (server_version_info d) as [|major rest] eqn:Hv; [discriminate|].
  cbv zeta.
  pose proof (tuple_ge_major major rest 11) as H12. fold MS_2012_VERSION in H12.
  remember (tuple_lt (major :: rest) MS_2005_VERSION) as before_2005.
  remember (tuple_ge (major :: rest) MS_2008_VERSION) as from_2008.
  remember (tuple_ge (major :: rest) MS_2012_VERSION) as from_2012.
  intros [= <- <-]. cbn -[tuple_lt tuple_ge].
  rewrite <- Heqbefore_2005, <- Heqfrom_2008, <- Heqfrom_2012.
  repeat split.
  - f_equal. f_equal. f_equal.
    + destruct (deprecate_large_types d); reflexivity.
    + destruct before_2005; reflexivity.
    + destruct before_2005; reflexivity.
    + destruct from_2008; reflexivity.
  - intros ->. f_equal. exact H12.
  - intros d0 ->. reflexivity.
Qed.

Lemma version_setup_can_be_repeated_witness :
  exists d' warnings,
    _setup_version_attributes CompilerSpec.mssql_2008 = Return (d', warnings)
    /\ _setup_version_attributes d' = Return (d', warnings).
Proof.
  eexists _, _. split; [reflexivity|].
  exact (proj1 (version_setup_can_be_repeated CompilerSpec.mssql_2008 _ _ eq_refl)).
Defined.

End DialectFacts.

(** ** Comparisons: further properties *)

Module BinaryFacts.
Import Py Binary.

Section Visit.

Variable Kwargs : Type.
Variable process : Element -> Kwargs -> string.
Variable super_visit_binary : Element -> Operator -> Element -> Kwargs -> string.

Local Abbreviation visit := (visit_binary Kwargs process super_visit_binary).

(** X16. In a compiler whose [process] hands a comparison to
    [visit_binary], a comparison is rendered by the base compiler with
    its operands swapped at most once: a bind parameter on the left of
    [=] is moved to the right when the right operand is not one, and
    any other comparison is rendered as it is.  What is rendered has a
    bind parameter on the left of [=] only when both operands are bind
    parameters, and moving twice changes nothing more. *)
Theorem bind_parameter_moves_right (left : Element) (operator : Operator)
    (right : Element) (kwargs : Kwargs) :
  (forall l o r kw, process (BinaryExpression l o r) kw = visit l o r kw) ->
  let (a, b) := moved left operator right in
  visit left operator right kwargs = super_visit_binary a operator b kwargs
  /\ moved a operator b = (a, b)
  /\ (isinstance_BindParameter a && is_eq operator = true ->
      isinstance_BindParameter b = true)
  /\ (is_eq operator = false -> (a, b) = (left, right)).
Proof.
  intros Hdispatch. unfold moved, visit_binary.
  destruct (isinstance_BindParameter left) eqn:Hl, (is_eq operator) eqn:Ho,
    (isinstance_BindParameter right) eqn:Hr; simpl;
    rewrite ?Hdispatch; unfold visit_binary; rewrite ?Hl, ?Ho, ?Hr; simpl;
    repeat split; congruence.
Qed.

End Visit.

Lemma bind_parameter_moves_right_witness :
  (forall l o r kw,
      sample_process (BinaryExpression l o r) kw
      = visit_binary unit sample_process sample_visit_binary l o r kw)
  /\ visit_binary unit sample_process sample_visit_binary
       (BindParameter "p") operator_eq (ColumnElement "x") tt
     = "x = :p".
Proof.
  assert (forall l o r kw,
             sample_process (BinaryExpression l o r) kw
             = visit_binary unit sample_process sample_visit_binary l o r kw) as Hd.
  { intros l o r kw. unfold visit_binary, sample_visit_binary.
    cbn [sample_process].
    destruct (isinstance_BindParameter l) eqn:Hl, (is_eq o) eqn:Ho,
      (isinstance_BindParameter r) eqn:Hr; simpl; reflexivity. }
  split; [exact Hd|].
  exact (proj1 (bind_parameter_moves_right unit sample_process sample_visit_binary
                  (BindParameter "p") operator_eq (ColumnElement "x") tt Hd)).
Defined.

End BinaryFacts.

(** ** Connections: further properties *)

Module ConnectionFacts.
Import Py Schema SchemaSpec Preparer Connection StrFacts SchemaFacts ResolutionFacts.

(** *** Replacing one character by another *)

Lemma swap_cons (c d a : ascii) (s : string) :
  replace_from 0 (String c "") (String d "") (String a s)
  = String (if Ascii.eqb c a then d else a)
      (replace_from 0 (String c "") (String d "") s).
Proof.
  cbn [replace_from]. rewrite prefix_one.
  destruct (Ascii.eqb c a); reflexivity.
Qed.

Lemma swap_twice (c d : ascii) (s : string) :
  Ascii.eqb c d = false ->
  replace_from 0 (String c "") (String d "")
    (replace_from 0 (String c "") (String d "") s)
  = replace_from 0 (String c "") (String d "") s.
Proof.
  intros Hcd. induction s as [|a s IH]; [reflexivity|].
  rewrite !swap_cons, IH.
  destruct (Ascii.eqb c a) eqn:Ha; [rewrite Hcd|rewrite Ha]; reflexivity.
Qed.

Section Server.

Variable execute_error : list Event -> string -> option string.
Variable fetched : list Event -> Fetched.
Variable driver_scalar : list Event -> string -> Outcome (option string).
Variable iteration : list string.
Variable upper : string -> string.
Variable quote : option PyStr -> string.

Local Abbreviation set_level := (set_isolation_level execute_error iteration).
Local Abbreviation get_level := (get_isolation_level execute_error fetched upper).
Local Abbreviation switch := (_switch_db driver_scalar quote).

(** X17. [set_isolation_level] reads underscores as spaces, so a level
    and its spelling with spaces are set alike.  A level that is then
    not one of the five names is refused with an [ArgumentError] before
    anything is done to the connection.  Otherwise one cursor is
    opened and the one statement executed on it; when the statement
    succeeds the cursor is closed and, for SNAPSHOT only, the
    connection committed; when it fails its error is raised, the cursor
    is left open and nothing is committed. *)
Theorem isolation_level_is_validated (level : string) (trace : list Event) :
  let spelled := replace "_" " " level in
  let statement := "SET TRANSACTION ISOLATION LEVEL " ++ spelled in
  set_level spelled trace = set_level level trace
  /\ (in_lookup spelled = false ->
      exists msg, set_level level trace = (Raises (ArgumentError msg), trace))
  /\ (in_lookup spelled = true ->
      set_level level trace =
      match execute_error (app trace [cursor_open]) statement with
      | None =>
        (Returns tt,
         app trace
           (cursor_open :: execute statement :: cursor_close
              :: if String.eqb spelled "SNAPSHOT" then [commit] else []))
      | Some msg =>
        (Raises (Base (DBAPIError msg)), app trace [cursor_open; execute statement])
      end).
Proof.
  intros spelled statement. split; [|split].
  - unfold set_isolation_level. fold spelled.
    assert (replace "_" " " spelled = spelled) as ->; [|reflexivity].
    apply swap_twice. reflexivity.
  - intros Hno. unfold set_isolation_level. fold spelled. rewrite Hno. simpl.
    eexists. reflexivity.
  - intros Hin. unfold set_isolation_level. fold spelled. rewrite Hin. simpl.
    unfold bindC, emit, cursor_execute. fold statement.
    destruct (execute_error (app trace [cursor_open]) statement) as [msg|].
    + rewrite <- List.app_assoc. reflexivity.
    + destruct (String.eqb spelled "SNAPSHOT"); unfold ret;
        rewrite <- !List.app_assoc; reflexivity.
Qed.

(** One turn of the loop of [get_isolation_level]. *)
Lemma try_views_cons (v : string) (vs : list string) (last_error : option string)
    (trace : list Event) :
  let q := isolation_query v in
  try_views execute_error fetched upper (v :: vs) last_error trace =
  match execute_error (app trace [cursor_open]) q with
  | Some msg =>
    try_views execute_error fetched upper vs (Some msg)
      (app trace [cursor_open; execute q; cursor_close])
  | None =>
    let done := app trace [cursor_open; execute q; fetchone; cursor_close] in
    match fetched (app trace [cursor_open; execute q]) with
    | FetchError msg => try_views execute_error fetched upper vs (Some msg) done
    | NoRow => (Raises (Base TypeError), done)
    | Row [] => (Raises (Base IndexError), done)
    | Row (None :: _) => (Raises (Base AttributeError), done)
    | Row (Some val :: _) => (Returns (upper val), done)
    end
  end.
Proof.
  intros q. cbn [try_views]. fold q.
  unfold bindC, emit, cursor_execute, fetchone_0, ret, raise.
  destruct (execute_error (app trace [cursor_open]) q) as [msg|].
  - rewrite <- !List.app_assoc. reflexivity.
  - rewrite <- !List.app_assoc. cbn [app].
    destruct (fetched (app trace [cursor_open; execute q])) as [msg| |[|[val|] values]];
      rewrite <- ?List.app_assoc; reflexivity.
Qed.

(** One run of the loop of [get_isolation_level], over any views: the
    cursors are closed, the views are read in order, a further view is
    read only after an error of the driver, and what is returned is the
    first column of the row fetched last, on the last cursor of the run,
    in upper case. *)
Lemma try_views_run (vs : list string) (last_error : option string)
    (trace : list Event) :
  exists added n,
    snd (try_views execute_error fetched upper vs last_error trace) = app trace added
    /\ well_bracketed false added = true
    /\ executed_statements added = map isolation_query (firstn n vs)
    /\ (forall v rest,
           vs = v :: rest -> (1 < n)%nat ->
           execute_error (app trace [cursor_open]) (isolation_query v) <> None
           \/ exists msg,
                fetched (app trace [cursor_open; execute (isolation_query v)])
                = FetchError msg)
    /\ (forall level,
           fst (try_views execute_error fetched upper vs last_error trace)
           = Returns level ->
           exists before view val rest,
             added = app before [cursor_open; execute (isolation_query view);
                                 fetchone; cursor_close]
             /\ In view vs
             /\ execute_error (app trace (app before [cursor_open]))
                  (isolation_query view) = None
             /\ fetched (app trace (app before [cursor_open;
                                                execute (isolation_query view)]))
                = Row (Some val :: rest)
             /\ level = upper val).
Proof.
  revert last_error trace. induction vs as [|v vs IH]; intros last_error trace.
  - exists [warn ("Could not fetch transaction isolation level, "
                    ++ "tried views: " ++ str_views ++ "; final error was: "
                    ++ str_error last_error)], 0%nat.
    repeat split; try reflexivity; try discriminate.
  - rewrite try_views_cons. cbv zeta.
    destruct (execute_error (app trace [cursor_open]) (isolation_query v))
      as [msg|] eqn:Hexecute.
    + destruct (IH (Some msg)
                  (app trace [cursor_open; execute (isolation_query v); cursor_close]))
        as (added & n & Htrace & Hclosed & Hread & _ & Hlevel).
      exists (cursor_open :: execute (isolation_query v) :: cursor_close :: added), (S n).
      split; [rewrite Htrace, <- !List.app_assoc; reflexivity|].
      split; [exact Hclosed|].
      split; [cbn; rewrite <- Hread; reflexivity|].
      split; [intros v' rest [= <- <-] _; left; congruence|].
      intros level Hreturns.
      destruct (Hlevel level Hreturns)
        as (before & view & val & rest & -> & Hin & Hok & Hrow & ->).
      exists (cursor_open :: execute (isolation_query v) :: cursor_close :: before),
        view, val, rest.
      split; [reflexivity|]. split; [right; exact Hin|].
      rewrite <- !List.app_assoc in Hok, Hrow. auto.
    + destruct (fetched (app trace [cursor_open; execute (isolation_query v)]))
        as [msg| |[|[val|] values]] eqn:Hfetched.
      * destruct (IH (Some msg)
                    (app trace [cursor_open; execute (isolation_query v); fetchone;
                                cursor_close]))
          as (added & n & Htrace & Hclosed & Hread & _ & Hlevel).
        exists (cursor_open :: execute (isolation_query v) :: fetchone :: cursor_close
                  :: added), (S n).
        split; [rewrite Htrace, <- !List.app_assoc; reflexivity|].
        split; [exact Hclosed|].
        split; [cbn; rewrite <- Hread; reflexivity|].
        split; [intros v' rest [= <- <-] _; right; exists msg; exact Hfetched|].
        intros level Hreturns.
        destruct (Hlevel level Hreturns)
          as (before & view & val & rest & -> & Hin & Hok & Hrow & ->).
        exists (cursor_open :: execute (isolation_query v) :: fetchone :: cursor_close
                  :: before), view, val, rest.
        split; [reflexivity|]. split; [right; exact Hin|].
        rewrite <- !List.app_assoc in Hok, Hrow. auto.
      * exists [cursor_open; execute (isolation_query v); fetchone; cursor_close], 1%nat.
        repeat split; try reflexivity; try discriminate. intros; lia.
      * exists [cursor_open; execute (isolation_query v); fetchone; cursor_close], 1%nat.
        repeat split; try reflexivity; try discriminate. intros; lia.
      * exists [cursor_open; execute (isolation_query v); fetchone; cursor_close], 1%nat.
        split; [reflexivity|].
        split; [reflexivity|]. split; [reflexivity|]. split; [intros; lia|].
        cbn. intros level [= <-]. exists [], v, val, values.
        split; [reflexivity|]. split; [left; reflexivity|].
        split; [exact Hexecute|]. split; [exact Hfetched|reflexivity].
      * exists [cursor_open; execute (isolation_query v); fetchone; cursor_close], 1%nat.
        repeat split; try reflexivity; try discriminate. intros; lia.
Qed.

(** X18. [get_isolation_level] closes every cursor it opens, whether it
    returns or raises.  It reads the first view and goes on to the second
    only when the driver raised an error on the first; any other failure
    ends the call.  Before SQL Server 2005 it raises
    [NotImplementedError] without touching the connection.  What it
    returns is the first column of the row it fetched last, on the last
    cursor of the call, after a query of one of the two views that the
    server accepted, in upper case; from SQL Server 2005 on, when the
    server accepts the query of the first view and gives a row whose
    first column is not NULL, that column in upper case is returned after
    that one query. *)
Theorem isolation_level_cursors_are_closed (self : MSDialect) (trace : list Event) :
  let first := isolation_query "sys.dm_exec_sessions" in
  let second := isolation_query "sys.dm_pdw_nodes_exec_sessions" in
  exists added,
    snd (get_level self trace) = app trace added
    /\ well_bracketed false added = true
    /\ (tuple_lt (server_version_info self) MS_2005_VERSION = true ->
        added = []
        /\ exists msg, fst (get_level self trace) = Raises (NotImplementedError msg))
    /\ (executed_statements added = []
        \/ executed_statements added = [first]
        \/ executed_statements added = [first; second])
    /\ (executed_statements added = [first; second] ->
        execute_error (app trace [cursor_open]) first <> None
        \/ exists msg,
             fetched (app trace [cursor_open; execute first]) = FetchError msg)
    /\ (forall level,
           fst (get_level self trace) = Returns level ->
           exists before view val rest,
             added = app before [cursor_open; execute (isolation_query view);
                                 fetchone; cursor_close]
             /\ In view views
             /\ execute_error (app trace (app before [cursor_open]))
                  (isolation_query view) = None
             /\ fetched (app trace (app before [cursor_open;
                                                execute (isolation_query view)]))
                = Row (Some val :: rest)
             /\ level = upper val)
    /\ (forall val rest,
           tuple_lt (server_version_info self) MS_2005_VERSION = false ->
           execute_error (app trace [cursor_open]) first = None ->
           fetched (app trace [cursor_open; execute first]) = Row (Some val :: rest) ->
           get_level self trace
           = (Returns (upper val),
              app trace [cursor_open; execute first; fetchone; cursor_close])).
Proof.
  intros first second. unfold get_isolation_level.
  destruct (tuple_lt (server_version_info self) MS_2005_VERSION) eqn:Hv.
  - exists []. rewrite List.app_nil_r. simpl.
    repeat split; try reflexivity; try discriminate.
    + eexists. reflexivity.
    + left. reflexivity.
  - destruct (try_views_run views None trace)
      as (added & n & Htrace & Hclosed & Hread & Hsecond & Hlevel).
    exists added. split; [exact Htrace|]. split; [exact Hclosed|].
    split; [discriminate|]. split; [|split; [|split; [exact Hlevel|]]].
    + rewrite Hread.
      destruct n as [|[|n]]; [left|right; left|right; right]; cbn;
        rewrite ?List.firstn_nil; reflexivity.
    + intros Hboth. apply (Hsecond _ _ eq_refl).
      rewrite Hread in Hboth. destruct n as [|[|n]]; [discriminate..|lia].
    + intros val rest _ Hok Hrow. unfold views. rewrite try_views_cons. cbv zeta.
      fold first. rewrite Hok, Hrow. reflexivity.
Qed.

(** X19. When [_switch_db] has switched to another database, it
    switches back after the call, once, whether the call returns or
    raises; the outcome of the call is the outcome of [_switch_db],
    unless switching back fails, and then that error is raised.  When
    the switch itself fails, the call is not made and nothing is
    switched back. *)
Theorem switched_database_is_restored {A} (dbname : option PyStr) (fn : C A)
    (trace : list Event) (current : option string) :
  truthy_name dbname = true ->
  driver_scalar trace "select db_name()" = Returns current ->
  differs current dbname = true ->
  let asked := app trace [exec_driver_sql "select db_name()"] in
  let switch_to := "use " ++ quote dbname in
  let switch_back := "use " ++ quote (option_map Str current) in
  (forall e,
      driver_scalar asked switch_to = Raises e ->
      switch dbname fn trace = (Raises e, app asked [exec_driver_sql switch_to]))
  /\ (forall r,
         driver_scalar asked switch_to = Returns r ->
         let ran := fn (app asked [exec_driver_sql switch_to]) in
         snd (switch dbname fn trace) = app (snd ran) [exec_driver_sql switch_back]
         /\ fst (switch dbname fn trace)
            = match driver_scalar (snd ran) switch_back with
              | Returns _ => fst ran
              | Raises e => Raises e
              end).
Proof.
  intros Hdb Hcurrent Hdiffers asked switch_to switch_back.
  unfold _switch_db, bindC, scalar, try_finally, ret. rewrite Hdb, Hcurrent, Hdiffers.
  fold asked switch_to. split.
  - intros e ->. reflexivity.
  - intros r ->. cbv zeta. simpl. fold switch_back.
    destruct (fn (app asked [exec_driver_sql switch_to])) as [out ran]. simpl.
    rewrite ?Hdb, ?Hdiffers. simpl.
    destruct (driver_scalar ran switch_back); split; reflexivity.
Qed.

(** X20. A reflection function wrapped by [_db_plus_owner] and called
    with a schema that names no database (a non-empty name without a
    ".", or no schema at all) is called as it is, with no database and
    with that schema, or the default one, as owner: nothing is asked of
    the connection on its behalf, and the memo is not touched.  Nor is
    any database switched when the one asked for is the current one:
    the call is made right after the current database has been read. *)
Theorem reflection_without_database_stays_put {A}
    (fn : string -> option PyStr -> option PyStr -> option PyStr -> C A)
    (d : MSDialect) (tablename s : string) (memo : LRUCache) (trace : list Event) :
  s <> "" ->
  contains_dot s = false ->
  let wrapped := _db_plus_owner driver_scalar quote fn d tablename in
  snd (wrapped (Some (Str s)) memo) = memo
  /\ fst (wrapped (Some (Str s)) memo) trace
     = fn tablename None (Some (Str s)) (Some (Str s)) trace
  /\ fst (wrapped None memo) trace
     = fn tablename None (Some (default_schema_name d)) None trace
  /\ (forall dbname current (call : C A),
         truthy_name dbname = true ->
         driver_scalar trace "select db_name()" = Returns current ->
         differs current dbname = false ->
         switch dbname call trace
         = call (app trace [exec_driver_sql "select db_name()"])).
Proof.
  intros Hne Hdot wrapped. subst wrapped. unfold _db_plus_owner, _owner_plus_db.
  simpl text.
  assert (truthy_str s = true) as -> by (destruct s; [congruence|reflexivity]).
  rewrite Hdot. simpl.
  assert (forall call : C A, switch None call trace = call trace) as Hnone.
  { intros call. unfold _switch_db, bindC, try_finally, ret. simpl.
    destruct (call trace); reflexivity. }
  split; [reflexivity|]. split; [apply Hnone|]. split; [apply Hnone|].
  intros dbname current call Hdb Hcurrent Hsame.
  unfold _switch_db, bindC, scalar, try_finally, ret.
  rewrite Hdb, Hcurrent, Hsame. simpl.
  destruct (call (app trace [exec_driver_sql "select db_name()"])).
  rewrite ?Hsame. reflexivity.
Qed.

End Server.

(** *** The scenarios *)

Lemma switched_database_is_restored_witness :
  truthy_name (Some (Str "sales")) = true
  /\ differs (Some "master") (Some (Str "sales")) = true
  /\ snd (_switch_db master_scalar bracket_quote (Some (Str "sales")) failing_fn [])
     = [exec_driver_sql "select db_name()"; exec_driver_sql "use [sales]";
        exec_driver_sql "select 1 from t"; exec_driver_sql "use [master]"]
  /\ fst (_switch_db master_scalar bracket_quote (Some (Str "sales")) failing_fn [])
     = Raises (Base (DBAPIError "no such table")).
Proof.
  split; [reflexivity|]. split; [reflexivity|].
  exact (proj2 (switched_database_is_restored master_scalar bracket_quote
                  (Some (Str "sales")) failing_fn [] (Some "master")
                  eq_refl eq_refl eq_refl) None eq_refl).
Defined.

Lemma reflection_without_database_stays_put_witness :
  "dbo" <> ""
  /\ fst (_db_plus_owner master_scalar bracket_quote (fun _ _ _ _ => failing_fn)
            default_dialect "t" (Some (Str "dbo")) (empty_cache 100)) []
     = (Raises (Base (DBAPIError "no such table")),
        [exec_driver_sql "select 1 from t"]).
Proof.
  assert ("dbo" <> "") as Hne by discriminate.
  split; [exact Hne|].
  exact (proj1 (proj2 (reflection_without_database_stays_put master_scalar bracket_quote
                         (fun _ _ _ _ => failing_fn) default_dialect "t" "dbo"
                         (empty_cache 100) [] Hne eq_refl))).
Defined.

End ConnectionFacts.

(** ** Reflection: further properties *)

Module ReflectionFacts.
Import Py Reflection.

(** *** The dictionary of indexes *)

Lemma setitem_keys (k : Z) (v : ReflectedIndex) (indexes : Indexes) :
  map fst (setitem k v indexes)
  = if bool_decide (k ∈ map fst indexes) then map fst indexes
    else app (map fst indexes) [k].
Proof.
  induction indexes as [|[k' v'] rest IH]; [reflexivity|].
  cbn [setitem]. destruct (Z.eqb_spec k k') as [->|Hne].
  - cbn [map fst]. rewrite bool_decide_eq_true_2 by apply list_elem_of_here.
    reflexivity.
  - cbn [map fst]. rewrite IH.
    destruct (decide (k ∈ map fst rest)) as [Hin|Hout].
    + rewrite !bool_decide_eq_true_2; [reflexivity| |exact Hin].
      apply list_elem_of_further, Hin.
    + rewrite !bool_decide_eq_false_2; [reflexivity| |exact Hout].
      intros Hin. apply elem_of_cons in Hin as [Heq|Hin]; [congruence|tauto].
Qed.

Lemma map_other_keys (k : Z) (f : Z * ReflectedIndex -> Z * ReflectedIndex)
    (indexes : Indexes) :
  k ∉ map fst indexes ->
  map (fun item => if k =? fst item then f item else item) indexes = indexes.
Proof.
  induction indexes as [|[k' v'] rest IH]; intros Hout; [reflexivity|].
  cbn [map fst] in *. apply not_elem_of_cons in Hout as [Hne Hout].
  destruct (Z.eqb_spec k k') as [->|_]; [congruence|]. f_equal. apply IH, Hout.
Qed.

(** With distinct keys, setting the item of a key that is there changes
    that item and no other. *)
Lemma setitem_map (k : Z) (v : ReflectedIndex) (indexes : Indexes) :
  NoDup (map fst indexes) ->
  k ∈ map fst indexes ->
  setitem k v indexes
  = map (fun item => if k =? fst item then (k, v) else item) indexes.
Proof.
  induction indexes as [|[k' v'] rest IH]; intros Hnd Hin.
  - apply elem_of_nil in Hin. destruct Hin.
  - cbn [setitem map fst] in *. apply NoDup_cons in Hnd as [Hhead Hnd].
    destruct (Z.eqb_spec k k') as [->|Hne].
    + f_equal. symmetry. apply (map_other_keys k' (fun _ => (k', v))), Hhead.
    + f_equal. apply IH; [exact Hnd|].
      apply elem_of_cons in Hin as [Heq|Hin]; [congruence|exact Hin].
Qed.

Lemma setitem_new (k : Z) (v : ReflectedIndex) (indexes : Indexes) :
  k ∉ map fst indexes -> setitem k v indexes = app indexes [(k, v)].
Proof.
  induction indexes as [|[k' v'] rest IH]; intros Hout; [reflexivity|].
  cbn [setitem map fst] in *. apply not_elem_of_cons in Hout as [Hne Hout].
  destruct (Z.eqb_spec k k') as [->|_]; [congruence|].
  rewrite IH by exact Hout. reflexivity.
Qed.

(** With distinct keys, a column goes to the item of its key, if there
    is one, and to no other. *)
Lemma append_column_map (k : Z) (name : string) (indexes : Indexes) :
  NoDup (map fst indexes) ->
  append_column k name indexes
  = map (fun item => if k =? fst item then with_columns [name] item else item) indexes.
Proof.
  induction indexes as [|[k' v'] rest IH]; intros Hnd; [reflexivity|].
  cbn [append_column map fst] in *. apply NoDup_cons in Hnd as [Hhead Hnd].
  destruct (Z.eqb_spec k k') as [->|Hne].
  - unfold with_columns. cbn [fst snd]. f_equal. symmetry.
    apply (map_other_keys k' (with_columns [name])), Hhead.
  - f_equal. apply IH, Hnd.
Qed.

Lemma append_column_keys (k : Z) (name : string) (indexes : Indexes) :
  map fst (append_column k name indexes) = map fst indexes.
Proof.
  induction indexes as [|[k' v'] rest IH]; [reflexivity|].
  cbn [append_column]. destruct (k =? k'); cbn [map fst]; [reflexivity|].
  rewrite IH. reflexivity.
Qed.

Lemma with_columns_nil (item : Z * ReflectedIndex) : with_columns [] item = item.
Proof.
  destruct item as [k [n u cs]]. unfold with_columns. cbn. rewrite List.app_nil_r.
  reflexivity.
Qed.

Lemma with_columns_app (a b : list string) (item : Z * ReflectedIndex) :
  with_columns b (with_columns a item) = with_columns (app a b) item.
Proof. unfold with_columns. cbn. rewrite List.app_assoc. reflexivity. Qed.

(** The second loop of [get_indexes]: every item gets the columns of
    its key, in the order of the rows. *)
Lemma columns_grouped (column_rows : list IndexColumnRow) (indexes : Indexes) :
  NoDup (map fst indexes) ->
  fold_left
    (fun indexes row => append_column (column_index_id row) (column_name row) indexes)
    column_rows indexes
  = map (fun item => with_columns (columns_of column_rows (fst item)) item) indexes.
Proof.
  revert indexes. induction column_rows as [|row rows IH]; intros indexes Hnd.
  - cbn [fold_left]. symmetry. rewrite <- (List.map_id indexes) at 2.
    apply List.map_ext. intros item. apply with_columns_nil.
  - cbn [fold_left]. rewrite IH by (rewrite append_column_keys; exact Hnd).
    rewrite (append_column_map _ _ _ Hnd), List.map_map.
    apply List.map_ext. intros [k v]. unfold columns_of. cbn [List.filter fst].
    destruct (column_index_id row =? k).
    + cbn [map]. rewrite with_columns_app. reflexivity.
    + reflexivity.
Qed.

(** *** The ids *)

Lemma first_appearances_snoc (rows : list IndexRow) (row : IndexRow) :
  first_appearances (app rows [row])
  = if bool_decide (index_id row ∈ first_appearances rows)
    then first_appearances rows
    else app (first_appearances rows) [index_id row].
Proof. unfold first_appearances. rewrite List.fold_left_app. reflexivity. Qed.

Lemma first_appearances_spec (rows : list IndexRow) :
  NoDup (first_appearances rows)
  /\ forall k, k ∈ first_appearances rows <-> k ∈ map index_id rows.
Proof.
  induction rows as [|row rows [IHnd IHin]] using List.rev_ind.
  - split; [apply NoDup_nil_2|]. intros k. reflexivity.
  - rewrite first_appearances_snoc, List.map_app. cbn [map].
    destruct (decide (index_id row ∈ first_appearances rows)) as [Hin|Hout].
    + rewrite bool_decide_eq_true_2 by exact Hin. split; [exact IHnd|].
      intros k. rewrite elem_of_app, list_elem_of_singleton, <- IHin.
      split; [tauto|]. intros [H| ->]; assumption.
    + rewrite bool_decide_eq_false_2 by exact Hout. split.
      * apply NoDup_app. split; [exact IHnd|]. split; [|apply NoDup_singleton].
        intros k Hk Hk'. apply list_elem_of_singleton in Hk'. congruence.
      * intros k. rewrite !elem_of_app, !list_elem_of_singleton, IHin. reflexivity.
Qed.

Lemma described_by_snoc (rows : list IndexRow) (row : IndexRow) (k : Z) :
  described_by (app rows [row]) k
  = if index_id row =? k then Some row else described_by rows k.
Proof. unfold described_by. rewrite List.rev_app_distr. reflexivity. Qed.

(** The first loop of [get_indexes]: one item per id, in the order of
    the first appearances, from the last row of the id. *)
Lemma indexes_collected (rows : list IndexRow) :
  fold_left
    (fun indexes row =>
       setitem (index_id row)
         {| index_name := name row; unique := is_unique row =? 1; column_names := [] |}
         indexes)
    rows []
  = map (fun k => (k, entry_of rows [] k)) (first_appearances rows).
Proof.
  induction rows as [|row rows IH] using List.rev_ind; [reflexivity|].
  rewrite List.fold_left_app. cbn [fold_left]. rewrite IH.
  destruct (first_appearances_spec rows) as [Hnd _].
  assert (map fst (map (fun k => (k, entry_of rows [] k)) (first_appearances rows))
          = first_appearances rows) as Hkeys.
  { rewrite List.map_map. cbn [fst]. apply List.map_id. }
  rewrite first_appearances_snoc.
  destruct (decide (index_id row ∈ first_appearances rows)) as [Hin|Hout].
  - rewrite bool_decide_eq_true_2 by exact Hin.
    rewrite setitem_map by (rewrite Hkeys; assumption).
    rewrite List.map_map. apply List.map_ext. intros k. cbn [fst].
    unfold entry_of. rewrite described_by_snoc.
    destruct (Z.eqb_spec (index_id row) k) as [->|Hne]; reflexivity.
  - rewrite bool_decide_eq_false_2 by exact Hout.
    rewrite setitem_new by (rewrite Hkeys; exact Hout).
    rewrite List.map_app. cbn [map]. f_equal.
    + apply map_ext_in. intros k Hk. unfold entry_of. rewrite described_by_snoc.
      destruct (Z.eqb_spec (index_id row) k) as [Heq|Hne]; [|reflexivity].
      exfalso. apply Hout. rewrite Heq. apply list_elem_of_In, Hk.
    + unfold entry_of. rewrite described_by_snoc, Z.eqb_refl. reflexivity.
Qed.

(** X21. From SQL Server 2005 on, [get_indexes] returns one entry for
    each distinct index id of the first result set, in the order in
    which the ids first appear; the entry has the name and the
    uniqueness of the last row with that id, and for columns the names
    of the rows of the second result set with that id, in their order.
    The rows of the second result set with another id, such as those of
    the primary key, are left out.  On an older server it returns the
    empty list. *)
Theorem indexes_group_their_columns (self : MSDialect) (index_rows : list IndexRow)
    (column_rows : list IndexColumnRow) :
  let ids := first_appearances index_rows in
  (tuple_lt (server_version_info self) MS_2005_VERSION = false ->
   get_indexes self index_rows column_rows
   = map (entry_of index_rows column_rows) ids)
  /\ (tuple_lt (server_version_info self) MS_2005_VERSION = true ->
      get_indexes self index_rows column_rows = [])
  /\ NoDup ids
  /\ (forall k, k ∈ ids <-> exists row, row ∈ index_rows /\ index_id row = k)
  /\ (forall k, k ∈ ids ->
        exists row,
          described_by index_rows k = Some row
          /\ row ∈ index_rows /\ index_id row = k).
Proof.
  intros ids. destruct (first_appearances_spec index_rows) as [Hnd Hin].
  split; [|split; [|split; [exact Hnd|split]]].
  - intros Hv. unfold get_indexes. rewrite Hv, indexes_collected.
    rewrite columns_grouped by (rewrite List.map_map; cbn [fst]; rewrite List.map_id;
                                 exact Hnd).
    rewrite !List.map_map. apply List.map_ext. intros k. reflexivity.
  - intros Hv. unfold get_indexes. rewrite Hv. reflexivity.
  - intros k. subst ids. rewrite Hin, list_elem_of_fmap. split.
    + intros (row & -> & Hrow). exists row. split; [exact Hrow|reflexivity].
    + intros (row & Hrow & <-). exists row. split; [reflexivity|exact Hrow].
  - intros k Hk. subst ids. apply Hin, list_elem_of_fmap in Hk as (row & -> & Hrow).
    unfold described_by.
    destruct (List.find (fun r => index_id r =? index_id row) (rev index_rows))
      as [found|] eqn:Hfind.
    + apply List.find_some in Hfind as [Hfound Hid]. exists found.
      split; [reflexivity|]. split.
      * apply list_elem_of_In, List.in_rev, Hfound.
      * apply Z.eqb_eq, Hid.
    + exfalso. apply list_elem_of_In, List.in_rev in Hrow.
      pose proof (List.find_none _ _ Hfind row Hrow) as Hno.
      cbv beta in Hno. rewrite Z.eqb_refl in Hno. discriminate.
Qed.

(** *** The primary key *)

Lemma pk_loop (rows : list ConstraintRow) (pkeys : list string)
    (constraint_name : option string) :
  let primary :=
    List.filter (fun row => contains "PRIMARY" (CONSTRAINT_TYPE row)) rows in
  fold_left
    (fun '(pkeys, constraint_name) row =>
       if contains "PRIMARY" (CONSTRAINT_TYPE row)
       then (app pkeys [COLUMN_NAME row],
             match constraint_name with
             | None => CONSTRAINT_NAME row
             | Some _ => constraint_name
             end)
       else (pkeys, constraint_name))
    rows (pkeys, constraint_name)
  = (app pkeys (map COLUMN_NAME primary),
     match constraint_name with
     | None => first_name primary
     | Some _ => constraint_name
     end).
Proof.
  revert pkeys constraint_name. induction rows as [|row rows IH];
    intros pkeys constraint_name.
  - cbn. rewrite List.app_nil_r. destruct constraint_name; reflexivity.
  - cbn [fold_left List.filter].
    destruct (contains "PRIMARY" (CONSTRAINT_TYPE row)).
    + rewrite IH. cbn [map]. rewrite <- List.app_assoc. cbn [app]. f_equal.
      destruct constraint_name as [n|]; [reflexivity|].
      unfold first_name. simpl.
      destruct (CONSTRAINT_NAME row); reflexivity.
    + apply IH.
Qed.

(** X22. [get_pk_constraint] returns, as constrained columns, the column
    names of the rows whose constraint type mentions PRIMARY, in the
    order of the result set, and as name the first constraint name that
    is not null among those rows.  Without such a row there is no
    column and no name, whatever the other rows hold. *)
Theorem primary_key_is_read_in_order (rows : list ConstraintRow) :
  let primary :=
    List.filter (fun row => contains "PRIMARY" (CONSTRAINT_TYPE row)) rows in
  get_pk_constraint rows
  = {| constrained_columns := map COLUMN_NAME primary; pk_name := first_name primary |}
  /\ (primary = [] ->
      get_pk_constraint rows = {| constrained_columns := []; pk_name := None |}).
Proof.
  intros primary.
  assert (get_pk_constraint rows
          = {| constrained_columns := map COLUMN_NAME primary;
               pk_name := first_name primary |}) as Hpk.
  { unfold get_pk_constraint. rewrite pk_loop. reflexivity. }
  split; [exact Hpk|]. intros Hnone. rewrite Hpk, Hnone. reflexivity.
Qed.

(** *** The scenarios *)

Lemma indexes_group_their_columns_witness :
  tuple_lt (server_version_info CompilerSpec.mssql_2012) MS_2005_VERSION = false
  /\ get_indexes CompilerSpec.mssql_2012 sample_index_rows sample_column_rows
     = [ {| index_name := "ix_email"; unique := true;
            column_names := ["email"; "tenant"] |};
         {| index_name := "ix_name"; unique := false; column_names := ["last"] |} ].
Proof.
  split; [reflexivity|].
  exact (proj1 (indexes_group_their_columns CompilerSpec.mssql_2012 sample_index_rows
                  sample_column_rows) eq_refl).
Defined.

End ReflectionFacts.

(** ** Row versions: further properties *)

Module TimestampFacts.
Import Timestamp.

Lemma hex_digit_value (n : N) :
  (n < 16)%N -> digit_value (hex_digit n) = Some (Z.of_N n).
Proof.
  intros Hn. destruct n as [|p]; [reflexivity|].
  do 4 (try (destruct p as [p|p|]; try reflexivity)); lia.
Qed.

Lemma byte_digits (b : Byte.byte) (acc : Z) :
  let n := Byte.to_N b in
  digit_value (hex_digit (n / 16)) = Some (Z.of_N (n / 16))
  /\ digit_value (hex_digit (n mod 16)) = Some (Z.of_N (n mod 16))
  /\ (acc * 16 + Z.of_N (n / 16)) * 16 + Z.of_N (n mod 16) = acc * 256 + Z.of_N n.
Proof.
  intros n. pose proof (Byte.to_N_bounded b) as Hb. fold n in Hb.
  split; [|split].
  - apply hex_digit_value. apply N.Div0.div_lt_upper_bound. lia.
  - apply hex_digit_value. apply N.mod_lt. lia.
  - rewrite N2Z.inj_div, N2Z.inj_mod.
    pose proof (Z.div_mod (Z.of_N n) 16 ltac:(lia)) as Hdm.
    change (Z.of_N 16) with 16. lia.
Qed.

Lemma digits_of_bytes (value : list Byte.byte) (acc : Z) :
  digits_16 acc (hex_encode value)
  = Some (fold_left (fun acc b => acc * 256 + Z.of_N (Byte.to_N b)) value acc).
Proof.
  revert acc. induction value as [|b value IH]; intros acc; [reflexivity|].
  destruct (byte_digits b acc) as (Hhi & Hlo & Hsum).
  cbn [hex_encode digits_16 fold_left]. rewrite Hhi, Hlo, IH, Hsum. reflexivity.
Qed.

(** The number of a byte string from a start value, and its range. *)
Lemma big_endian_from (value : list Byte.byte) (acc : Z) :
  fold_left (fun acc b => acc * 256 + Z.of_N (Byte.to_N b)) value acc
  = acc * 256 ^ Z.of_nat (List.length value) + big_endian value
  /\ 0 <= big_endian value < 256 ^ Z.of_nat (List.length value).
Proof.
  unfold big_endian. revert acc.
  induction value as [|b value IH]; intros acc.
  - cbn. lia.
  - cbn [fold_left List.length].
    destruct (IH (acc * 256 + Z.of_N (Byte.to_N b))) as [Hacc Hrange].
    destruct (IH (0 * 256 + Z.of_N (Byte.to_N b))) as [Hzero _].
    pose proof (Byte.to_N_bounded b) as Hb.
    rewrite Nat2Z.inj_succ, Z.pow_succ_r by lia.
    rewrite Hacc, Hzero. split; [ring|]. nia.
Qed.

(** X23. A row version read with [convert_int] is the number its bytes
    spell, the first byte the most significant: it is not negative and
    is below [256] to the number of bytes, and of two values of the same
    length the smaller number is the one that comes first as a byte
    string, so that comparing the integers compares the row versions.
    NULL stays [None]; an empty value is a [ValueError].  Without
    [convert_int] the value is returned as the base type gives it. *)
Theorem row_version_is_read_big_endian (Raw : Type)
    (super_ : Raw -> option (list Byte.byte)) (value : Raw) :
  (super_ value = None ->
   result_processor Raw super_ true value = Returns PNone)
  /\ (super_ value = Some [] -> result_processor Raw super_ true value = ValueError)
  /\ (forall bytes,
         super_ value = Some bytes -> bytes <> [] ->
         result_processor Raw super_ true value = Returns (PInt (big_endian bytes))
         /\ 0 <= big_endian bytes < 256 ^ Z.of_nat (List.length bytes))
  /\ (forall a b,
         List.length a = List.length b ->
         (big_endian a <? big_endian b) = bytes_lt a b)
  /\ (forall bytes,
         super_ value = Some bytes ->
         result_processor Raw super_ false value = Returns (PBytes bytes)).
Proof.
  unfold result_processor. split; [intros ->; reflexivity|].
  split; [intros ->; reflexivity|]. split; [|split].
  - intros bytes -> Hne. split; [|apply (big_endian_from bytes 0)].
    unfold int_16. destruct bytes as [|b bytes]; [congruence|].
    cbn [hex_encode]. change (String ?h ?t) with (hex_encode (b :: bytes)).
    rewrite digits_of_bytes. reflexivity.
  - induction a as [|x a IH]; intros [|y b] Hlen; try discriminate Hlen.
    + reflexivity.
    + injection Hlen as Hlen. cbn [bytes_lt]. rewrite <- (IH b Hlen).
      unfold big_endian. cbn [fold_left].
      destruct (big_endian_from a (0 * 256 + Z.of_N (Byte.to_N x))) as [-> Ha].
      destruct (big_endian_from b (0 * 256 + Z.of_N (Byte.to_N y))) as [-> Hb].
      rewrite <- Hlen in *.
      fold (big_endian a). fold (big_endian b).
      set (p := 256 ^ Z.of_nat (List.length a)) in *.
      destruct (N.ltb_spec (Byte.to_N x) (Byte.to_N y)) as [Hxy|Hxy].
      * apply Z.ltb_lt. nia.
      * destruct (N.ltb_spec (Byte.to_N y) (Byte.to_N x)) as [Hyx|Hyx].
        -- apply Z.ltb_ge. nia.
        -- assert (Byte.to_N x = Byte.to_N y) as -> by lia.
           destruct (Z.ltb_spec (big_endian a) (big_endian b));
             [apply Z.ltb_lt|apply Z.ltb_ge]; lia.
  - intros bytes ->. reflexivity.
Qed.

Lemma row_version_is_read_big_endian_witness :
  let value := [Byte.x00; Byte.x00; Byte.x01; Byte.x2c] in
  value <> []
  /\ result_processor (list Byte.byte) Some true value = Returns (PInt 300)
  /\ 0 <= 300 < 256 ^ 4.
Proof.
  intros value.
  assert (value <> []) as Hne by discriminate.
  split; [exact Hne|].
  exact (proj1 (proj2 (proj2 (row_version_is_read_big_endian (list Byte.byte) Some value)))
           value eq_refl Hne).
Defined.

End TimestampFacts.

(** ** Dates and times: further properties *)

Module DateTimeFacts.
Import DateTime.

Section Interpreter.

Variable unicode_decimal : N -> option Z.
Variable int_max_str_digits : option nat.

Local Abbreviation decimal := (decimal unicode_decimal).
Local Abbreviation is_digit := (is_digit unicode_decimal).
Local Abbreviation span_digits := (span_digits unicode_decimal).
Local Abbreviation take_digits := (take_digits unicode_decimal).
Local Abbreviation digits_10 := (digits_10 unicode_decimal).
Local Abbreviation some_digits := (some_digits unicode_decimal).
Local Abbreviation starts_with_digit := (starts_with_digit unicode_decimal).
Local Abbreviation all_digits := (all_digits unicode_decimal).
Local Abbreviation int_or_0 := (int_or_0 unicode_decimal int_max_str_digits).
Local Abbreviation match_date := (match_date unicode_decimal).
Local Abbreviation match_time := (match_time unicode_decimal).
Local Abbreviation date_result_processor :=
  (date_result_processor unicode_decimal int_max_str_digits).
Local Abbreviation time_result_processor :=
  (time_result_processor unicode_decimal int_max_str_digits).

(** *** Numbers in a given width *)

Lemma digit_is_digit (k : Z) :
  0 <= k <= 9 -> decimal (digit k) = Some k /\ is_digit (digit k) = true.
Proof.
  intros Hk.
  assert (k = 0 \/ k = 1 \/ k = 2 \/ k = 3 \/ k = 4 \/ k = 5 \/ k = 6 \/ k = 7
          \/ k = 8 \/ k = 9) as Hcases by lia.
  repeat (destruct Hcases as [->|Hcases]; [split; reflexivity|]).
  subst k. split; reflexivity.
Qed.

Lemma span_pad (width : nat) (n : Z) (tail : Text) :
  0 <= n ->
  span_digits (pad_onto width n tail)
  = let (digits, rest) := span_digits tail in (pad_onto width n digits, rest).
Proof.
  revert n tail. induction width as [|w IH]; intros n tail Hn.
  - cbn [pad_onto]. destruct (span_digits tail); reflexivity.
  - cbn [pad_onto]. rewrite IH by (apply Z.div_pos; lia).
    cbn [DateTime.span_digits].
    destruct (digit_is_digit (n mod 10)) as [_ ->];
      [pose proof (Z.mod_pos_bound n 10); lia|].
    destruct (span_digits tail); reflexivity.
Qed.

Lemma pad_not_empty (width : nat) (n : Z) (c : N) (tail : Text) :
  exists c' tail', pad_onto width n (c :: tail) = c' :: tail'.
Proof.
  revert n c tail. induction width as [|w IH]; intros n c tail.
  - exists c, tail. reflexivity.
  - cbn [pad_onto]. apply IH.
Qed.

Lemma pad_nonempty (width : nat) (n : Z) :
  exists c tail, pad_onto (S width) n [] = c :: tail.
Proof. cbn [pad_onto]. apply pad_not_empty. Qed.

(** A number in its width, before a text that does not start with a
    digit, is the run of digits found there. *)
Lemma some_digits_pad (width : nat) (n : Z) (tail : Text) :
  0 <= n ->
  starts_with_digit tail = false ->
  some_digits (pad_onto (S width) n tail) = Some (pad_onto (S width) n [], tail).
Proof.
  intros Hn Htail. unfold DateTime.some_digits. rewrite span_pad by exact Hn.
  assert (span_digits tail = ([], tail)) as ->.
  { destruct tail as [|c tail]; [reflexivity|].
    cbn [DateTime.span_digits]. cbn in Htail. rewrite Htail. reflexivity. }
  destruct (pad_nonempty width n) as (c & t & ->). reflexivity.
Qed.

Lemma take_pad (width k : nat) (n : Z) (tail : Text) :
  0 <= n ->
  take_digits (width + k) (pad_onto width n tail)
  = pad_onto width n (take_digits k tail).
Proof.
  revert k n tail. induction width as [|w IH]; intros k n tail Hn; [reflexivity|].
  cbn [pad_onto]. replace (S w + k)%nat with (w + S k)%nat by lia.
  rewrite IH by (apply Z.div_pos; lia).
  cbn [DateTime.take_digits].
  destruct (digit_is_digit (n mod 10)) as [_ ->];
    [pose proof (Z.mod_pos_bound n 10); lia|].
  reflexivity.
Qed.

Lemma digits_pad (width : nat) (n acc : Z) (tail : Text) :
  0 <= n < 10 ^ Z.of_nat width ->
  digits_10 acc (pad_onto width n tail)
  = digits_10 (acc * 10 ^ Z.of_nat width + n) tail.
Proof.
  revert n acc tail. induction width as [|w IH]; intros n acc tail Hn.
  - cbn [pad_onto]. f_equal. cbn in Hn. cbn. lia.
  - rewrite Nat2Z.inj_succ, Z.pow_succ_r in * by lia.
    cbn [pad_onto].
    pose proof (Z.mod_pos_bound n 10 ltac:(lia)) as Hmod.
    pose proof (Z.div_mod n 10 ltac:(lia)) as Hdm.
    rewrite IH.
    + cbn [DateTime.digits_10]. destruct (digit_is_digit (n mod 10)) as [-> _]; [lia|].
      f_equal. lia.
    + split; [apply Z.div_pos; lia|].
      apply Z.div_lt_upper_bound; lia.
Qed.

Lemma length_pad (width : nat) (n : Z) (tail : Text) :
  List.length (pad_onto width n tail) = (width + List.length tail)%nat.
Proof.
  revert n tail. induction width as [|w IH]; intros n tail; [reflexivity|].
  cbn [pad_onto]. rewrite IH. cbn. lia.
Qed.

(** A text of no more than 640 digits is within any limit of [int]. *)
Lemma int_of_digits (digits : Text) :
  (List.length digits <= 640)%nat ->
  int_or_0 (Some digits) = Some (digits_10 0 digits).
Proof.
  intros Hlen. unfold DateTime.int_or_0, DateTime.int.
  destruct digits as [|c digits]; [reflexivity|].
  destruct int_max_str_digits as [limit|]; [|reflexivity].
  destruct (Nat.ltb_spec (Nat.max limit 640) (List.length (c :: digits)));
    [lia|reflexivity].
Qed.

Lemma int_of_pad (width : nat) (n : Z) :
  (width <= 640)%nat ->
  0 <= n < 10 ^ Z.of_nat width ->
  int_or_0 (Some (pad_onto width n [])) = Some n.
Proof.
  intros Hw Hn. rewrite int_of_digits by (rewrite length_pad; cbn; lia).
  rewrite (digits_pad width n 0 [] Hn). cbn [DateTime.digits_10]. f_equal.
Qed.

Lemma pad_append (width : nat) (n : Z) (tail rest : Text) :
  app (pad_onto width n tail) rest = pad_onto width n (app tail rest).
Proof.
  revert n tail. induction width as [|w IH]; intros n tail; [reflexivity|].
  cbn [pad_onto]. rewrite IH. reflexivity.
Qed.

Lemma take_digits_app (n : nat) (digits rest : Text) :
  all_digits digits = true ->
  (List.length digits <= n)%nat ->
  List.length digits = n \/ starts_with_digit rest = false ->
  take_digits n (app digits rest) = digits.
Proof.
  revert n. induction digits as [|c digits IH]; intros n Hall Hlen Hstop.
  - cbn [app]. destruct n as [|n]; [reflexivity|].
    destruct Hstop as [Hstop|Hstop]; [discriminate Hstop|].
    destruct rest as [|c rest]; [reflexivity|].
    cbn in Hstop. cbn [DateTime.take_digits]. rewrite Hstop. reflexivity.
  - cbn in Hall. apply andb_prop in Hall as [Hc Hall].
    destruct n as [|n]; [cbn in Hlen; lia|].
    cbn [app DateTime.take_digits]. rewrite Hc. f_equal.
    apply IH; [exact Hall|cbn in Hlen; lia|].
    destruct Hstop as [Hstop|Hstop]; [left; cbn in Hstop; lia|right; exact Hstop].
Qed.

Lemma take_digits_length (n : nat) (s : Text) :
  (List.length (take_digits n s) <= n)%nat.
Proof.
  revert s. induction n as [|n IH]; intros s; [cbn; lia|].
  destruct s as [|c s]; [cbn; lia|]. cbn [DateTime.take_digits].
  destruct (is_digit c); cbn; [specialize (IH s)|]; lia.
Qed.

(** *** The two regular expressions on a text in the standard form *)

Lemma match_time_text (h m s : Z) (tail : Text) :
  0 <= h -> 0 <= m -> 0 <= s ->
  starts_with_digit tail = false ->
  match_time (pad_onto 2 h (colon :: pad_onto 2 m (colon :: pad_onto 2 s tail)))
  = Some (pad_onto 2 h [], pad_onto 2 m [], pad_onto 2 s [],
          match expect full_stop tail with
          | Some rest => Some (take_digits 6 rest)
          | None => None
          end).
Proof.
  intros Hh Hm Hs Htail. unfold DateTime.match_time.
  rewrite (some_digits_pad 1 h) by (try reflexivity; exact Hh).
  cbn [expect]. rewrite N.eqb_refl.
  rewrite (some_digits_pad 1 m) by (try reflexivity; exact Hm).
  cbn [expect]. rewrite N.eqb_refl.
  rewrite (some_digits_pad 1 s tail Hs Htail).
  destruct (expect full_stop tail); reflexivity.
Qed.

Lemma match_date_text (y m d : Z) (tail : Text) :
  0 <= y -> 0 <= m -> 0 <= d ->
  starts_with_digit tail = false ->
  match_date (pad_onto 4 y (hyphen :: pad_onto 2 m (hyphen :: pad_onto 2 d tail)))
  = Some (pad_onto 4 y [], pad_onto 2 m [], pad_onto 2 d []).
Proof.
  intros Hy Hm Hd Htail. unfold DateTime.match_date.
  rewrite (some_digits_pad 3 y) by (try reflexivity; exact Hy).
  cbn [expect]. rewrite N.eqb_refl.
  rewrite (some_digits_pad 1 m) by (try reflexivity; exact Hm).
  cbn [expect]. rewrite N.eqb_refl.
  rewrite (some_digits_pad 1 d tail Hd Htail).
  reflexivity.
Qed.

Lemma offset_stops (offset : Text) :
  is_offset offset = true ->
  starts_with_digit offset = false /\ expect full_stop offset = None.
Proof.
  destruct offset as [|c offset]; [split; reflexivity|].
  cbn [is_offset]. intros Hc. apply orb_prop in Hc as [Hc|Hc];
    apply N.eqb_eq in Hc; subst c; split; reflexivity.
Qed.

Lemma valid_time_ranges (t : time) :
  valid_time t = true ->
  0 <= hour t < 10 ^ 2 /\ 0 <= minute t < 10 ^ 2 /\ 0 <= second t < 10 ^ 2
  /\ 0 <= microsecond t < 10 ^ 6.
Proof. unfold valid_time. intros Hv. lia. Qed.

Lemma valid_time_made (t : time) :
  valid_time t = true ->
  datetime_time (hour t) (minute t) (second t) (microsecond t) = Returns (Time t []).
Proof.
  intros Hv. pose proof (valid_time_ranges t Hv) as (Hh & Hm & Hs & Hus).
  unfold datetime_time.
  assert (forall n, 0 <= n < 10 ^ 6 -> fits_int n = true) as Hfits.
  { intros n Hn. unfold fits_int, INT_MAX. lia. }
  rewrite !Hfits by lia. destruct t as [h m s us]. cbn [hour minute second microsecond].
  cbn [hour minute second microsecond] in Hv. cbn [andb negb]. rewrite Hv. reflexivity.
Qed.

(** X24. A time keeps its value through [TIME]: what the bind processor
    makes of a [datetime.time], its text, the result processor reads
    back as the same time, without the UTC offset; and what it makes of
    a [datetime.datetime], the same time on the first day of 1900, is
    read back as that time.  This holds whichever characters beyond
    ASCII the interpreter takes for digits, and whatever limit it puts
    on [int]. *)
Theorem time_survives_the_round_trip (t : time) (offset : Text) (d : date) :
  valid_time t = true ->
  is_offset offset = true ->
  time_result_processor (time_bind_processor (Time t offset)) = Returns (Time t [])
  /\ time_bind_processor (DateTime d t offset) = DateTime zero_date t []
  /\ time_result_processor (time_bind_processor (DateTime d t offset))
     = Returns (Time t []).
Proof.
  intros Hvalid Hoffset. split; [|split; reflexivity].
  destruct (valid_time_ranges t Hvalid) as (Hh & Hm & Hs & Hus).
  destruct (offset_stops offset Hoffset) as [Hstop Hnone].
  cbn [time_bind_processor DateTime.time_result_processor]. unfold str_time.
  rewrite match_time_text; try lia.
  2:{ destruct (microsecond t =? 0); [exact Hstop|reflexivity]. }
  rewrite !int_of_pad by (cbn; lia).
  assert (int_or_0
            match expect full_stop
                    (if microsecond t =? 0 then offset
                     else full_stop :: pad_onto 6 (microsecond t) offset) with
            | Some rest => Some (take_digits 6 rest)
            | None => None
            end = Some (microsecond t)) as ->.
  { destruct (Z.eqb_spec (microsecond t) 0) as [Hz|Hz].
    - rewrite Hnone, Hz. reflexivity.
    - cbn [expect]. rewrite N.eqb_refl.
      change 6%nat with (6 + 0)%nat at 1. rewrite take_pad by lia.
      cbn [DateTime.take_digits]. apply (int_of_pad 6); cbn; lia. }
  apply valid_time_made, Hvalid.
Qed.

(** X25. Read from a text, a time is the hours, minutes and seconds
    found at its start and, after a ".", at most six digits taken as a
    count of microseconds whatever their number: a shorter fraction is
    not scaled, so [.5] is five microseconds, and what follows the sixth
    digit is dropped with the rest of the text.  The digits are those the
    interpreter takes for decimal digits, those beyond ASCII included: a
    fraction ends at the first character that is not one of them. *)
Theorem fraction_is_a_count_of_microseconds (h m s : Z) (digits rest : Text) :
  0 <= h < 100 -> 0 <= m < 100 -> 0 <= s < 100 ->
  all_digits digits = true ->
  (List.length digits <= 6)%nat ->
  List.length digits = 6%nat \/ starts_with_digit rest = false ->
  time_result_processor
    (Str (pad_onto 2 h
            (colon :: pad_onto 2 m
               (colon :: pad_onto 2 s (full_stop :: app digits rest)))))
  = datetime_time h m s (digits_10 0 digits).
Proof.
  intros Hh Hm Hs Hall Hlen Hstop. cbn [DateTime.time_result_processor].
  rewrite match_time_text by (try reflexivity; lia).
  rewrite !int_of_pad by (cbn; lia).
  cbn [expect]. rewrite N.eqb_refl.
  rewrite (take_digits_app 6 digits rest Hall Hlen Hstop).
  rewrite int_of_digits by lia. reflexivity.
Qed.

Lemma valid_date_ranges (d : date) :
  valid_date d = true ->
  0 <= year d < 10 ^ 4 /\ 0 <= month d < 10 ^ 2 /\ 0 <= day d < 10 ^ 2.
Proof.
  unfold valid_date, days_in_month. intros Hv.
  repeat (apply andb_prop in Hv as [Hv ?]).
  destruct (month d =? 2), (is_leap (year d)),
    ((month d =? 4) || (month d =? 6) || (month d =? 9) || (month d =? 11)); lia.
Qed.

Lemma valid_date_made (d : date) :
  valid_date d = true ->
  datetime_date (year d) (month d) (day d) = Returns (Date d).
Proof.
  intros Hv. pose proof (valid_date_ranges d Hv) as (Hy & Hm & Hd).
  unfold datetime_date.
  assert (forall n, 0 <= n < 10 ^ 4 -> fits_int n = true) as Hfits.
  { intros n Hn. unfold fits_int, INT_MAX. lia. }
  rewrite !Hfits by lia. destruct d as [y m dd]. cbn [year month day].
  cbn [year month day] in Hv. cbn [andb negb]. rewrite Hv. reflexivity.
Qed.


End Interpreter.

(** *** The scenarios *)

Lemma time_survives_the_round_trip_witness :
  let t := {| hour := 5; minute := 4; second := 3; microsecond := 21 |} in
  valid_time t = true
  /\ time_bind_processor (Time t (of_string "+01:00"))
     = Str (of_string "05:04:03.000021+01:00")
  /\ time_result_processor arabic_indic (Some 4300%nat)
       (Str (of_string "05:04:03.000021+01:00"))
     = Returns (Time t []).
Proof.
  intros t. split; [reflexivity|]. split; [reflexivity|].
  exact (proj1 (time_survives_the_round_trip arabic_indic (Some 4300%nat) t
                  (of_string "+01:00") zero_date eq_refl eq_refl)).
Defined.

(** A fraction of one digit, and one of two digits of which the second
    is the Arabic-Indic digit three. *)
Lemma fraction_is_a_count_of_microseconds_witness :
  all_digits arabic_indic (of_string "5") = true
  /\ all_digits arabic_indic [53; 1635]%N = true
  /\ time_result_processor arabic_indic (Some 4300%nat) (Str (of_string "12:34:56.5"))
     = Returns (Time {| hour := 12; minute := 34; second := 56; microsecond := 5 |} [])
  /\ time_result_processor arabic_indic (Some 4300%nat)
       (Str (app (of_string "12:34:56.") [53; 1635]%N))
     = Returns (Time {| hour := 12; minute := 34; second := 56; microsecond := 53 |} []).
Proof.
  split; [reflexivity|]. split; [reflexivity|]. split.
  - exact (fraction_is_a_count_of_microseconds arabic_indic (Some 4300%nat) 12 34 56
             (of_string "5") []
             ltac:(lia) ltac:(lia) ltac:(lia) eq_refl ltac:(cbn; lia) (or_intror eq_refl)).
  - exact (fraction_is_a_count_of_microseconds arabic_indic (Some 4300%nat) 12 34 56
             [53; 1635]%N []
             ltac:(lia) ltac:(lia) ltac:(lia) eq_refl ltac:(cbn; lia) (or_intror eq_refl)).
Defined.


End DateTimeFacts.

(** ** Aliases of tables: further properties *)

Module AliasingFacts.
Import Aliasing.

Lemma alias_kept (table other : Table) (alias : Alias) (self : Compiler) :
  tablealiases self !! table = Some alias ->
  tablealiases (snd (_schema_aliased_table other self)) !! table = Some alias.
Proof.
  intros Hin. unfold _schema_aliased_table.
  destruct (schema other); [|exact Hin].
  destruct (tablealiases self !! other) as [found|] eqn:Hother; [exact Hin|].
  cbn. rewrite lookup_insert_ne; [exact Hin|]. intros ->. congruence.
Qed.

Lemma alias_kept_after (tables : list Table) (table : Table) (alias : Alias)
    (self : Compiler) :
  tablealiases self !! table = Some alias ->
  tablealiases (after tables self) !! table = Some alias.
Proof.
  revert self. induction tables as [|other tables IH]; intros self Hin; [exact Hin|].
  apply IH, alias_kept, Hin.
Qed.

Lemma well_formed_kept (table : Table) (self : Compiler) :
  well_formed self -> well_formed (snd (_schema_aliased_table table self)).
Proof.
  intros Hwf. unfold _schema_aliased_table.
  destruct (schema table); [|exact Hwf].
  destruct (tablealiases self !! table) as [found|] eqn:Hfound; [exact Hwf|].
  intros other alias. cbn. destruct (decide (table = other)) as [->|Hne].
  - rewrite lookup_insert_eq. intros [= <-]. reflexivity.
  - rewrite lookup_insert_ne by exact Hne. apply Hwf.
Qed.

Lemma well_formed_after (tables : list Table) (self : Compiler) :
  well_formed self -> well_formed (after tables self).
Proof.
  revert self. induction tables as [|table tables IH]; intros self Hwf; [exact Hwf|].
  apply IH, well_formed_kept, Hwf.
Qed.

(** X27. A table with a schema gets one alias for the life of the
    compiler: the alias given at its first lookup is an alias of that
    table, and it is the one every later lookup returns, whatever other
    tables are looked up before or in between; a lookup that finds it
    leaves the compiler as it was.  So two tables never share an
    alias.  A table without a schema gets none, and looking it up
    changes nothing. *)
Theorem alias_of_a_table_is_stable (table : Table) (before between : list Table) :
  let self := after before new_compiler in
  (schema table <> None ->
   exists alias,
     fst (_schema_aliased_table table self) = Some alias
     /\ element alias = table
     /\ let later := after between (snd (_schema_aliased_table table self)) in
        _schema_aliased_table table later = (Some alias, later))
  /\ (schema table = None -> _schema_aliased_table table self = (None, self)).
Proof.
  intros self. split.
  - intros Hschema.
    assert (well_formed (snd (_schema_aliased_table table self))) as Hwf.
    { apply well_formed_kept, well_formed_after. intros t a Hin.
      cbn in Hin. rewrite lookup_empty in Hin. discriminate. }
    assert (exists alias,
               fst (_schema_aliased_table table self) = Some alias
               /\ tablealiases (snd (_schema_aliased_table table self)) !! table
                  = Some alias) as (alias & Hfirst & Hstored).
    { unfold _schema_aliased_table.
      destruct (schema table) as [s|]; [|congruence].
      destruct (tablealiases self !! table) as [found|] eqn:Hfound.
      - exists found. split; [reflexivity|exact Hfound].
      - eexists. split; [reflexivity|]. cbn. apply lookup_insert_eq. }
    exists alias. split; [exact Hfirst|]. split; [apply (Hwf _ _ Hstored)|].
    intros later. unfold _schema_aliased_table.
    destruct (schema table) as [s|]; [|congruence].
    subst later. rewrite (alias_kept_after between table alias _ Hstored). reflexivity.
  - intros Hnone. unfold _schema_aliased_table. rewrite Hnone. reflexivity.
Qed.

Lemma alias_of_a_table_is_stable_witness :
  let dbo_t := {| schema := Some "dbo"; name := "t" |} in
  let dbo_u := {| schema := Some "dbo"; name := "u" |} in
  schema dbo_t <> None
  /\ exists alias,
       fst (_schema_aliased_table dbo_t (after [dbo_u] new_compiler)) = Some alias
       /\ element alias = dbo_t
       /\ fst (_schema_aliased_table dbo_t (after [dbo_u; dbo_t; dbo_u] new_compiler))
          = Some alias.
Proof.
  intros dbo_t dbo_u.
  assert (schema dbo_t <> None) as Hschema by discriminate.
  split; [exact Hschema|].
  destruct (proj1 (alias_of_a_table_is_stable dbo_t [dbo_u] [dbo_u]) Hschema)
    as (alias & Hfirst & Helement & Hlater).
  exists alias. split; [exact Hfirst|]. split; [exact Helement|].
  cbv zeta in Hlater.
  change (after [dbo_u; dbo_t; dbo_u] new_compiler)
    with (after [dbo_u] (snd (_schema_aliased_table dbo_t (after [dbo_u] new_compiler)))).
  rewrite Hlater. reflexivity.
Defined.

End AliasingFacts.
